(** * The ArUco head tracker of opentrack: a shallow embedding

    Source: [tracker-aruco/ftnoir_tracker_aruco.cpp].  The capture loop
    ([aruco_tracker::run]) and the calibration dialog ([aruco_dialog]) are
    written as state transformers over records holding the members the
    code reads and writes.  C++ [double] is IEEE binary64, modelled by
    Rocq's primitive floats; C++ [float] is IEEE binary32, modelled by the
    Standard Library's [spec_float] at precision 24; C++ [int] is modelled
    by [Z]: the code compares ints, halves a frame dimension, subtracts
    one from it and subtracts two clamped coordinates, and none of these
    leaves the 32-bit range (lemma [roi_arithmetic_in_range]).

    The axis clamping of [ftnoir_protocol_vjoy/ftnoir_protocol_vjoy.cpp]
    is embedded in module [VJoy].

    The capture loop and the consumer run in two threads: the
    interleavings of [set_rmat] and [data] under the tracker's mutex are
    the runs of the transition systems of modules [PoseLock] and
    [Threads].

    OpenCV, the ArUco detector, libm and Qt are not part of the repository:
    their operations are fields of the record [OpenCV] and every definition
    and theorem is parametric in it. *)

From Stdlib Require Import ZArith List Bool Floats Lia.
From Stdlib Require String Ascii DecimalString.
Import ListNotations.

Set Warnings "-inexact-float".

(** ** C++ numbers *)

Module Cxx.

  Open Scope float_scope.

  (** [std::min(a, b)] is [(b < a) ? b : a]; [std::max(a, b)] is
      [(a < b) ? b : a]. *)
Definition std_min (a b : float) : float := if b <? a then b else a.
Definition std_max (a b : float) : float := if a <? b then b else a.

  (** Conversion of an [int] to [double]: exact, every 32-bit integer is a
      binary64 number. *)
Definition double_of_int (z : Z) : float :=
  SF2Prim (binary_normalize FloatOps.prec FloatOps.emax z 0 false).

  Close Scope float_scope.

  (** Integer division of C++ truncates towards zero. *)
Definition int_div (a b : Z) : Z := Z.quot a b.

Definition INT_MIN : Z := - 2 ^ 31.
Definition INT_MAX : Z := 2 ^ 31 - 1.

End Cxx.

(** Single precision ([float], [cv::Point2f], [cv::Point3f]). *)
Module F32.

Definition prec : Z := 24.
Definition emax : Z := 128.

Definition t : Type := spec_float.

Definition add : t -> t -> t := SFadd prec emax.
Definition sub : t -> t -> t := SFsub prec emax.
Definition opp : t -> t := SFopp.

  (** [float(i)] for an [int] [i]. *)
Definition of_int (z : Z) : t := binary_normalize prec emax z 0 false.

  (** [float(d)] for a [double] [d]: rounding to nearest even. *)
Definition of_double (d : float) : t :=
  match Prim2SF d with
  | S754_finite s m e => binary_normalize prec emax (cond_Zopp s (Zpos m)) e s
  | f => f
  end.

  (** [double(f)]: exact. *)
Definition to_double (f : t) : float := SF2Prim f.

  (** [int(f)]: truncation towards zero.  Outside the range of [int], and
      for infinities and NaN, the conversion is undefined in C++; the value
      chosen here is the one the x86 conversion instruction produces. *)
Definition to_int (f : t) : Z :=
  match f with
  | S754_zero _ => 0
  | S754_finite s m e =>
      let a := if (0 <=? e)%Z then (Zpos m * 2 ^ e)%Z
               else (Zpos m / 2 ^ (- e))%Z in
      let v := cond_Zopp s a in
      if (Cxx.INT_MIN <=? v)%Z && (v <=? Cxx.INT_MAX)%Z then v else Cxx.INT_MIN
  | _ => Cxx.INT_MIN
  end.

End F32.

(** ** Geometry *)

(** [cv::Rect]: origin, width and height, all [int]. *)
Record Rect : Type := mkRect {
  rect_x : Z;
  rect_y : Z;
  rect_width : Z;
  rect_height : Z
}.

(** The rectangle the code stores when it has no prediction:
    [cv::Rect(65535, 65535, 0, 0)]. *)
Definition sentinel_roi : Rect := mkRect 65535 65535 0 0.

Record Point2f : Type := mkPoint2f { p2_x : F32.t; p2_y : F32.t }.
Record Point3f : Type := mkPoint3f { p3_x : F32.t; p3_y : F32.t; p3_z : F32.t }.

(** [cv::Vec3d] and [cv::Matx33d] (three rows). *)
Record Vec3d : Type := mkVec3d { v_0 : float; v_1 : float; v_2 : float }.
Definition Matx33d : Type := (Vec3d * Vec3d * Vec3d)%type.

Definition Matx33d_eye : Matx33d :=
  (mkVec3d 1 0 0, mkVec3d 0 1 0, mkVec3d 0 0 1).

(** A detected marker is the vector of its corners. *)
Definition Marker : Type := list Point2f.

(** ** The pose array *)

(** Modelled from the spec: the enumeration [Axis] that names the indices
    of the six-element pose is declared in the plugin API header, which is
    not among the sources.  The spec's Pose has six distinct components,
    yaw, pitch, roll and the X, Y, Z translation; [set_rmat] writes the
    translation at indices 0, 1, 2, so the rotations take 3, 4, 5. *)
Inductive Axis : Type := TX | TY | TZ | Yaw | Pitch | Roll.

Definition axis_index (a : Axis) : nat :=
  match a with
  | TX => 0 | TY => 1 | TZ => 2 | Yaw => 3 | Pitch => 4 | Roll => 5
  end.

(** [a[i] = v] on an array held as a list; the code never indexes outside
    the six elements. *)
Fixpoint array_set {A : Type} (i : nat) (v : A) (a : list A) : list A :=
  match a, i with
  | [], _ => []
  | _ :: tl, O => v :: tl
  | h :: tl, S j => h :: array_set j v tl
  end.

Definition array_get (i : nat) (a : list float) : float := nth i a 0%float.

(** ** What the code takes from outside the repository *)

(** OpenCV images and the calls the tracker makes on OpenCV, the ArUco
    detector and libm.  [detect lo hi img] is [detector.detect] on [img]
    after [detector.setMinMaxSize(lo, hi)]; [solvePnP] gets the rotation
    and translation vectors it overwrites and returns its success flag with
    their new values. *)
Record OpenCV : Type := mkOpenCV {
  Mat : Type;
  cols : Mat -> Z;
  rows : Mat -> Z;
  cvtColor : Mat -> Mat;
  crop : Mat -> Rect -> Mat;
  detect : float -> float -> Mat -> list Marker;
  solvePnP : list Point3f -> Marker -> Matx33d -> Vec3d -> Vec3d ->
             bool * (Vec3d * Vec3d);
  projectPoints : list Point3f -> Vec3d -> Vec3d -> Matx33d -> list Point2f;
  Rodrigues : Vec3d -> Matx33d;
  RQDecomp3x3 : Matx33d -> Vec3d;
  atan : float -> float;
  tan : float -> float
}.

(** The constants of the class declaration [ftnoir_tracker_aruco.h], which
    is not among the sources: they are parameters of the development. *)
Record Header : Type := mkHeader {
  RC : float;
  size_min : float;
  size_max : float;
  c_search_window : float
}.

(** The settings the tracker and the dialog share ([settings s]). *)
Record settings : Type := mkSettings {
  resolution : Z;
  force_fps : Z;
  fov : Z;
  headpos_x : float;
  headpos_y : float;
  headpos_z : float
}.

(** Calls that leave the tracker, recorded in the order they are made
    (most recent first). *)
Inductive event : Type :=
| EvCameraOpen (device_opened : bool)
| EvCameraSetWidth (w : Z)
| EvCameraSetHeight (h : Z)
| EvCameraSetFps (f : Z)
| EvCameraRead (ok : bool)
| EvSetMinMaxSize (lo hi : float)
| EvDetect (region : option Rect)
| EvSolvePnP (ok : bool)
| EvDrawAr (ok : bool)
| EvUpdateImage.

(** ** The tracker object *)

Section Tracker.

Variable cv : OpenCV.
Variable K : Header.

(** The members of [aruco_tracker] that one function writes and another
    reads.  [rmat], [euler], [m_r], [m_q] and [roi_points] are written
    before they are read inside the one function that uses them and are
    bound by [let] there; [frame] only carries the overlay.  [pose], [r]
    and [t] are the members guarded by [mtx]. *)
Record tracker : Type := mkTracker {
  pose : list float;
  r : Matx33d;
  t : Vec3d;
  fps : float;
  last_roi : Rect;
  markers : list Marker;
  rvec : Vec3d;
  tvec : Vec3d;
  obj_points : list Point3f;
  roi_projection : list Point2f;
  intrinsics : Matx33d;
  color : Mat cv;
  grayscale : Mat cv;
  log : list event
}.

Definition set_pose v (a : tracker) := mkTracker v (r a) (t a) (fps a) (last_roi a) (markers a) (rvec a) (tvec a) (obj_points a) (roi_projection a) (intrinsics a) (color a) (grayscale a) (log a).
Definition set_r v (a : tracker) := mkTracker (pose a) v (t a) (fps a) (last_roi a) (markers a) (rvec a) (tvec a) (obj_points a) (roi_projection a) (intrinsics a) (color a) (grayscale a) (log a).
Definition set_t v (a : tracker) := mkTracker (pose a) (r a) v (fps a) (last_roi a) (markers a) (rvec a) (tvec a) (obj_points a) (roi_projection a) (intrinsics a) (color a) (grayscale a) (log a).
Definition set_fps v (a : tracker) := mkTracker (pose a) (r a) (t a) v (last_roi a) (markers a) (rvec a) (tvec a) (obj_points a) (roi_projection a) (intrinsics a) (color a) (grayscale a) (log a).
Definition set_last_roi_field v (a : tracker) := mkTracker (pose a) (r a) (t a) (fps a) v (markers a) (rvec a) (tvec a) (obj_points a) (roi_projection a) (intrinsics a) (color a) (grayscale a) (log a).
Definition set_markers v (a : tracker) := mkTracker (pose a) (r a) (t a) (fps a) (last_roi a) v (rvec a) (tvec a) (obj_points a) (roi_projection a) (intrinsics a) (color a) (grayscale a) (log a).
Definition set_rvec v (a : tracker) := mkTracker (pose a) (r a) (t a) (fps a) (last_roi a) (markers a) v (tvec a) (obj_points a) (roi_projection a) (intrinsics a) (color a) (grayscale a) (log a).
Definition set_tvec v (a : tracker) := mkTracker (pose a) (r a) (t a) (fps a) (last_roi a) (markers a) (rvec a) v (obj_points a) (roi_projection a) (intrinsics a) (color a) (grayscale a) (log a).
Definition set_obj_points v (a : tracker) := mkTracker (pose a) (r a) (t a) (fps a) (last_roi a) (markers a) (rvec a) (tvec a) v (roi_projection a) (intrinsics a) (color a) (grayscale a) (log a).
Definition set_roi_projection v (a : tracker) := mkTracker (pose a) (r a) (t a) (fps a) (last_roi a) (markers a) (rvec a) (tvec a) (obj_points a) v (intrinsics a) (color a) (grayscale a) (log a).
Definition set_intrinsics_field v (a : tracker) := mkTracker (pose a) (r a) (t a) (fps a) (last_roi a) (markers a) (rvec a) (tvec a) (obj_points a) (roi_projection a) v (color a) (grayscale a) (log a).
Definition set_color v (a : tracker) := mkTracker (pose a) (r a) (t a) (fps a) (last_roi a) (markers a) (rvec a) (tvec a) (obj_points a) (roi_projection a) (intrinsics a) v (grayscale a) (log a).
Definition set_grayscale v (a : tracker) := mkTracker (pose a) (r a) (t a) (fps a) (last_roi a) (markers a) (rvec a) (tvec a) (obj_points a) (roi_projection a) (intrinsics a) (color a) v (log a).
Definition emit (e : event) (a : tracker) := mkTracker (pose a) (r a) (t a) (fps a) (last_roi a) (markers a) (rvec a) (tvec a) (obj_points a) (roi_projection a) (intrinsics a) (color a) (grayscale a) (e :: log a).

(** The constructor's member initialisers ([fps(0)], [obj_points(4)],
    [intrinsics(eye)], [roi_points(4)], [last_roi(65535, 65535, 0, 0)]),
    the default construction of the members it does not list ([r], [t],
    [rvec], [tvec]: all zero) and the zeroing of [pose] in
    [start_tracker].  The two images are whatever empty [cv::Mat] the
    library constructs. *)
Definition zero3 : Vec3d := mkVec3d 0 0 0.
Definition zero_point3f : Point3f :=
  mkPoint3f (F32.of_int 0) (F32.of_int 0) (F32.of_int 0).

Definition aruco_tracker_init (empty : Mat cv) : tracker :=
  mkTracker (repeat 0%float 6) (zero3, zero3, zero3) zero3 0%float sentinel_roi []
            zero3 zero3 (repeat zero_point3f 4) [] Matx33d_eye
            empty empty [].

(** [getRT]: the rotation matrix and translation vector kept for the
    calibration dialog. *)
Definition getRT (a : tracker) : Matx33d * Vec3d := (r a, t a).

(** [data]: the six components handed to the consumer, as the array the
    caller passed in after the six assignments. *)
Definition data (a : tracker) (out : list float) : list float :=
  let out := array_set (axis_index Yaw) (array_get (axis_index Yaw) (pose a)) out in
  let out := array_set (axis_index Pitch) (array_get (axis_index Pitch) (pose a)) out in
  let out := array_set (axis_index Roll) (array_get (axis_index Roll) (pose a)) out in
  let out := array_set (axis_index TX) (array_get (axis_index TX) (pose a)) out in
  let out := array_set (axis_index TY) (array_get (axis_index TY) (pose a)) out in
  array_set (axis_index TZ) (array_get (axis_index TZ) (pose a)) out.


(** ** Detection *)

(** [markers.size() == 1 && markers[0].size() == 4]. *)
Definition one_marker_four_corners (ms : list Marker) : bool :=
  match ms with
  | [m] => Nat.eqb (length m) 4
  | _ => false
  end.

(** [p.x += last_roi.x; p.y += last_roi.y]: the [int] is converted to
    [float] and the sum is a [float]. *)
Definition offset_corner (roi : Rect) (p : Point2f) : Point2f :=
  mkPoint2f (F32.add (p2_x p) (F32.of_int (rect_x roi)))
            (F32.add (p2_y p) (F32.of_int (rect_y roi))).

Definition corner_default : Point2f := mkPoint2f (F32.of_int 0) (F32.of_int 0).

(** The loop [for (unsigned i = 0; i < 4; i++)] over the corners of
    [markers[0]]. *)
Definition offset_corners (roi : Rect) (m : Marker) : Marker :=
  fold_left
    (fun m i => array_set i (offset_corner roi (nth i m corner_default)) m)
    (seq 0 4) m.

(** The two arguments [detect_with_roi] passes to
    [detector.setMinMaxSize]. *)
Definition roi_size_bounds (gray_cols roi_width : Z) : float * float :=
  let c := Cxx.double_of_int gray_cols in
  let w := Cxx.double_of_int roi_width in
  (Cxx.std_min 1 (Cxx.std_max 0.01 (size_min K * c / w)),
   Cxx.std_max 0.01 (Cxx.std_min 1 (size_max K * c / w)))%float.

Definition detect_with_roi (a : tracker) : bool * tracker :=
  let roi := last_roi a in
  if (1 <? rect_width roi)%Z && (1 <? rect_height roi)%Z then
    let b := roi_size_bounds (cols cv (grayscale a)) (rect_width roi) in
    let a := emit (EvSetMinMaxSize (fst b) (snd b)) a in
    let ms := detect cv (fst b) (snd b) (crop cv (grayscale a) roi) in
    let a := emit (EvDetect (Some roi)) (set_markers ms a) in
    if one_marker_four_corners ms
    then (true, set_markers [offset_corners roi (nth 0 ms [])] a)
    else (false, set_last_roi_field sentinel_roi a)
  else (false, set_last_roi_field sentinel_roi a).

Definition detect_without_roi (a : tracker) : bool * tracker :=
  let a := emit (EvSetMinMaxSize (size_min K) (size_max K)) a in
  let ms := detect cv (size_min K) (size_max K) (grayscale a) in
  let a := emit (EvDetect None) (set_markers ms a) in
  (one_marker_four_corners ms, a).

(** [detect_with_roi() || detect_without_roi()]: the second call is made
    only when the first returns false. *)
Definition detect_either (a : tracker) : bool * tracker :=
  let res := detect_with_roi a in
  if fst res then res else detect_without_roi (snd res).

(** ** Camera *)

Definition resolution_choices : list (Z * Z) := [(640, 480); (320, 240); (0, 0)]%Z.

Definition forced_fps (k : Z) : Z :=
  match k with
  | 1 => 30 | 2 => 60 | 3 => 75 | 4 => 125 | 5 => 200 | _ => 0
  end%Z.

(** [open_camera]; [device_opened] is what [camera.isOpened()] answers
    once the capture has been constructed and configured. *)
Definition open_camera (s : settings) (device_opened : bool) (a : tracker)
  : bool * tracker :=
  let rint := resolution s in
  let rint := if (rint <? 0)%Z || (3 <=? rint)%Z then 0%Z else rint in
  let res := nth (Z.to_nat rint) resolution_choices (0, 0)%Z in
  let f := forced_fps (force_fps s) in
  let a := emit (EvCameraOpen device_opened) a in
  let a := if (fst res =? 0)%Z then a
           else emit (EvCameraSetHeight (snd res)) (emit (EvCameraSetWidth (fst res)) a) in
  let a := if (f =? 0)%Z then a else emit (EvCameraSetFps f) a in
  if negb device_opened then (false, a) else (true, a).

(** ** Intrinsics and frame rate *)

(** [static constexpr double pi = 3.1415926f]: the single-precision
    literal, widened. *)
Definition pi : float := F32.to_double (F32.of_double 3.1415926%float).

Definition set_intrinsics (s : settings) (a : tracker) : tracker :=
  let w := cols cv (grayscale a) in
  let h := rows cv (grayscale a) in
  let wd := Cxx.double_of_int w in
  let hd := Cxx.double_of_int h in
  let diag_fov := (Cxx.double_of_int (fov s) * pi / 180)%float in
  let fov_w := (2 * atan cv (tan cv (diag_fov / 2) / sqrt (1 + hd / wd * hd / wd)))%float in
  let fov_h := (2 * atan cv (tan cv (diag_fov / 2) / sqrt (1 + wd / hd * wd / hd)))%float in
  let focal_length_w := (0.5 * wd / tan cv (0.5 * fov_w))%float in
  let focal_length_h := (0.5 * hd / tan cv (0.5 * fov_h))%float in
  let '(r0, r1, r2) := intrinsics a in
  set_intrinsics_field
    (mkVec3d focal_length_w (v_1 r0) (Cxx.double_of_int (Cxx.int_div w 2)),
     mkVec3d (v_0 r1) focal_length_h (Cxx.double_of_int (Cxx.int_div h 2)),
     r2) a.

(** [update_fps]; [dt] is what [fps_timer.elapsed_seconds()] returns. *)
Definition update_fps (dt : float) (a : tracker) : tracker :=
  let alpha := (dt / (dt + RC K))%float in
  if (0.001 <? dt)%float then
    let f := (fps a * (1 - alpha))%float in
    set_fps (f + alpha * (1 / dt + 0.8))%float a
  else a.

(** ** Region of interest *)

Definition clamp_last_roi (a : tracker) : tracker :=
  let c := cols cv (color a) in
  let rws := rows cv (color a) in
  let roi := last_roi a in
  let x := rect_x roi in
  let y := rect_y roi in
  let width := rect_width roi in
  let height := rect_height roi in
  let x := if (x <? 0)%Z then 0%Z else x in
  let y := if (y <? 0)%Z then 0%Z else y in
  let width := if (width <? 1)%Z then 1%Z else width in
  let height := if (height <? 1)%Z then 1%Z else height in
  let x := if (c - 1 <=? x)%Z then (c - 1)%Z else x in
  let width := if (c - 1 <=? width)%Z then (c - 1)%Z else width in
  let y := if (rws - 1 <=? y)%Z then (rws - 1)%Z else y in
  let height := if (rws - 1 <=? height)%Z then (rws - 1)%Z else height in
  set_last_roi_field (mkRect x y (width - x) (height - y)) a.

(** One turn of the loop of [set_roi_from_projection]: while the loop
    runs, [width] and [height] of [last_roi] hold the largest x and y. *)
Definition roi_accumulate (roi : Rect) (proj : Point2f) : Rect :=
  let min_x := Z.min (F32.to_int (p2_x proj)) (rect_x roi) in
  let min_y := Z.min (F32.to_int (p2_y proj)) (rect_y roi) in
  let max_x := Z.max (F32.to_int (p2_x proj)) (rect_width roi) in
  let max_y := Z.max (F32.to_int (p2_y proj)) (rect_height roi) in
  mkRect min_x min_y max_x max_y.

Definition set_roi_from_projection (a : tracker) : tracker :=
  let init := mkRect (cols cv (color a) - 1) (rows cv (color a) - 1) 0 0 in
  let roi :=
    fold_left
      (fun roi i => roi_accumulate roi (nth i (roi_projection a) corner_default))
      (seq 0 4) init in
  clamp_last_roi (set_last_roi_field roi a).

(** ** Model points and pose *)

Definition marker_half_size : F32.t := F32.of_int 40.

Definition set_points (s : settings) (a : tracker) : tracker :=
  let hx := F32.of_double (headpos_x s) in
  let hy := F32.of_double (headpos_y s) in
  let hz := F32.of_double (headpos_z s) in
  let size := marker_half_size in
  let z := F32.add (F32.of_int 0) hz in
  let p1 := mkPoint3f (F32.add (F32.opp size) hx) (F32.add (F32.opp size) hy) z in
  let p2 := mkPoint3f (F32.add size hx) (F32.add (F32.opp size) hy) z in
  let p3 := mkPoint3f (F32.add size hx) (F32.add size hy) z in
  let p4 := mkPoint3f (F32.add (F32.opp size) hx) (F32.add size hy) z in
  let pts := obj_points a in
  let pts := array_set 1 p1 pts in
  let pts := array_set 2 p2 pts in
  let pts := array_set 3 p3 pts in
  let pts := array_set 0 p4 pts in
  set_obj_points pts a.

(** [Point3f * double]: the product is taken in double precision and
    rounded to single. *)
Definition scale_coord (x : F32.t) (k : float) : F32.t :=
  F32.of_double (F32.to_double x * k)%float.

Definition set_last_roi (s : settings) (a : tracker) : tracker :=
  let hx := F32.of_double (headpos_x s) in
  let hy := F32.of_double (headpos_y s) in
  let hz := F32.of_double (headpos_z s) in
  let roi_points :=
    map (fun i =>
           let o := nth i (obj_points a) zero_point3f in
           mkPoint3f (scale_coord (F32.sub (p3_x o) hx) (c_search_window K))
                     (scale_coord (F32.sub (p3_y o) hy) (c_search_window K))
                     (scale_coord (F32.sub (p3_z o) hz) (c_search_window K)))
        (seq 0 4) in
  let a := set_roi_projection
             (projectPoints cv roi_points (rvec a) (tvec a) (intrinsics a)) a in
  set_roi_from_projection a.

Definition set_rmat (a : tracker) : tracker :=
  let rmat := Rodrigues cv (rvec a) in
  let euler := RQDecomp3x3 cv rmat in
  (* QMutexLocker lck(&mtx) *)
  let p := pose a in
  let p := array_set 0 (v_0 (tvec a) * 0.1)%float p in
  let p := array_set 1 (v_1 (tvec a) * 0.1)%float p in
  let p := array_set 2 (v_2 (tvec a) * 0.1)%float p in
  let p := array_set (axis_index Yaw) (v_1 euler) p in
  let p := array_set (axis_index Pitch) (- v_0 euler)%float p in
  let p := array_set (axis_index Roll) (v_2 euler) p in
  let a := set_pose p a in
  let a := set_r rmat a in
  set_t (mkVec3d (v_0 (tvec a)) (- v_1 (tvec a))%float (v_2 (tvec a))) a.

(** ** The capture loop *)

(** What one turn of the loop takes from outside: the frame
    [camera.read] delivers (or its failure), the time the frame-rate
    timer measured, and the settings as they stand during the turn. *)
Record frame_input : Type := mkFrameInput {
  cam_read : option (Mat cv);
  elapsed : float;
  cfg : settings
}.

(** The head of the loop body after a successful read: the frame is
    stored, converted, the intrinsics and the frame rate are refreshed and
    [markers] is cleared. *)
Definition grab (img : Mat cv) (inp : frame_input) (a : tracker) : tracker :=
  let a := set_color img (emit (EvCameraRead true) a) in
  let a := set_grayscale (cvtColor cv (color a)) a in
  let a := set_intrinsics (cfg inp) a in
  let a := update_fps (elapsed inp) a in
  set_markers [] a.

(** [set_points] and the call of [cv::solvePnP] on [markers[0]]. *)
Definition solve (inp : frame_input) (a : tracker) : bool * tracker :=
  let a := set_points (cfg inp) a in
  let sol := solvePnP cv (obj_points a) (nth 0 (markers a) [])
                      (intrinsics a) (rvec a) (tvec a) in
  (fst sol,
   set_tvec (snd (snd sol)) (set_rvec (fst (snd sol))
     (emit (EvSolvePnP (fst sol)) a))).

(** The body of [while (!stop)].  A failed read is the [continue]; a
    failed solve is the [goto fail], which joins the branch taken when no
    marker was found.  [draw_centroid] and the drawing of [draw_ar] only
    paint on [frame]. *)
Definition iteration (inp : frame_input) (a : tracker) : tracker :=
  match cam_read inp with
  | None => emit (EvCameraRead false) a
  | Some img =>
      let a := grab img inp a in
      let res := detect_either a in
      let ok := fst res in
      let a := snd res in
      let a :=
        if ok then
          let sol := solve inp a in
          if negb (fst sol) then set_last_roi_field sentinel_roi (snd sol)
          else set_rmat (set_last_roi (cfg inp) (snd sol))
        else set_last_roi_field sentinel_roi a in
      let a := emit (EvDrawAr ok) a in
      if (0 <? rows cv (color a))%Z then emit EvUpdateImage a else a
  end.

(** The events only a turn of the capture loop emits. *)
Definition capture_event (e : event) : bool :=
  match e with
  | EvCameraRead _ | EvSetMinMaxSize _ _ | EvDetect _ | EvSolvePnP _
  | EvDrawAr _ | EvUpdateImage => true
  | EvCameraOpen _ | EvCameraSetWidth _ | EvCameraSetHeight _
  | EvCameraSetFps _ => false
  end.

(** [run]: the turns of the loop are those made before [stop] is seen,
    one per element of [inputs]. *)
Definition run (s : settings) (device_opened : bool)
    (inputs : list frame_input) (a : tracker) : tracker :=
  let res := open_camera s device_opened a in
  if negb (fst res) then snd res
  else fold_left (fun a inp => iteration inp a) inputs (snd res).

End Tracker.

Arguments pose {cv} _.
Arguments r {cv} _.
Arguments t {cv} _.
Arguments fps {cv} _.
Arguments last_roi {cv} _.
Arguments markers {cv} _.
Arguments rvec {cv} _.
Arguments tvec {cv} _.
Arguments obj_points {cv} _.
Arguments roi_projection {cv} _.
Arguments intrinsics {cv} _.
Arguments color {cv} _.
Arguments grayscale {cv} _.
Arguments log {cv} _.
Arguments getRT {cv}.
Arguments data {cv}.
Arguments set_pose {cv}.
Arguments set_r {cv}.
Arguments set_t {cv}.
Arguments set_fps {cv}.
Arguments set_last_roi_field {cv}.
Arguments set_markers {cv}.
Arguments set_rvec {cv}.
Arguments set_tvec {cv}.
Arguments set_obj_points {cv}.
Arguments set_roi_projection {cv}.
Arguments set_intrinsics_field {cv}.
Arguments set_color {cv}.
Arguments set_grayscale {cv}.
Arguments emit {cv}.
Arguments detect_with_roi {cv}.
Arguments detect_without_roi {cv}.
Arguments detect_either {cv}.
Arguments open_camera {cv}.
Arguments set_intrinsics {cv}.
Arguments update_fps {cv}.
Arguments clamp_last_roi {cv}.
Arguments set_roi_from_projection {cv}.
Arguments set_points {cv}.
Arguments set_last_roi {cv}.
Arguments set_rmat {cv}.
Arguments grab {cv}.
Arguments solve {cv}.
Arguments iteration {cv}.
Arguments run {cv}.
Arguments cam_read {cv}.
Arguments elapsed {cv}.
Arguments cfg {cv}.

(** ** The calibration dialog *)

(** The accumulator ([TranslationCalibrator calibrator]) is a class
    declared outside the sources; the dialog uses these three calls. *)
Record Calibrator : Type := mkCalibrator {
  calib : Type;
  calib_reset : calib -> calib;
  calib_update : Matx33d -> Vec3d -> calib -> calib;
  calib_get_estimate : calib -> Vec3d
}.

Section Dialog.

Variable cv : OpenCV.
Variable C : Calibrator.

(** The members of [aruco_dialog] the calibration slots touch:
    [calib_timer.isActive()], the settings [s], the accumulator and the
    [tracker] pointer (null when no tracker runs). *)
Record dialog : Type := mkDialog {
  calib_timer_active : bool;
  s : settings;
  calibrator : calib C;
  tracker_ptr : option (tracker cv)
}.

Definition set_headpos (x y z : float) (st : settings) : settings :=
  mkSettings (resolution st) (force_fps st) (fov st) x y z.

Definition cleanupCalib (d : dialog) : dialog :=
  if calib_timer_active d
  then mkDialog false (s d) (calibrator d) (tracker_ptr d)
  else d.

Definition toggleCalibrate (d : dialog) : dialog :=
  if negb (calib_timer_active d) then
    let st := set_headpos 0 (headpos_y (s d)) (headpos_z (s d)) (s d) in
    let st := set_headpos (headpos_x st) 0 (headpos_z st) st in
    let st := set_headpos (headpos_x st) (headpos_y st) 0 st in
    let c := calib_reset C (calibrator d) in
    (* calib_timer.start() *)
    mkDialog true st c (tracker_ptr d)
  else
    let d := cleanupCalib d in
    let pos := calib_get_estimate C (calibrator d) in
    let st := set_headpos (v_0 pos) (headpos_y (s d)) (headpos_z (s d)) (s d) in
    let st := set_headpos (headpos_x st) (v_1 pos) (headpos_z st) st in
    let st := set_headpos (headpos_x st) (headpos_y st) (v_2 pos) st in
    mkDialog (calib_timer_active d) st (calibrator d) (tracker_ptr d).

(** The slot the timer's [timeout] signal is connected to: one sampling
    tick. *)
Definition update_tracker_calibration (d : dialog) : dialog :=
  match calib_timer_active d, tracker_ptr d with
  | true, Some tr =>
      let rt := getRT tr in
      mkDialog (calib_timer_active d) (s d)
               (calib_update C (fst rt) (snd rt) (calibrator d)) (tracker_ptr d)
  | _, _ => d
  end.

(** What reaches the dialog: a click on the calibrate button, or a
    timeout of the calibration timer.  A stopped timer sends no timeout,
    and the slot checks [isActive] again. *)
Inductive dialog_event : Type := Click | Timeout.

Definition dialog_step (d : dialog) (e : dialog_event) : dialog :=
  match e with
  | Click => toggleCalibrate d
  | Timeout => update_tracker_calibration d
  end.

End Dialog.

Arguments calib_timer_active {cv C}.
Arguments s {cv C}.
Arguments calibrator {cv C}.
Arguments tracker_ptr {cv C}.
Arguments cleanupCalib {cv C}.
Arguments toggleCalibrate {cv C}.
Arguments update_tracker_calibration {cv C}.
Arguments dialog_step {cv C}.

(** ** The pose under the mutex: capture loop against consumer *)

(** [set_rmat] and [data] each take [mtx] for their whole body.  The
    interleavings of the two threads are the runs of a transition system
    whose atomic steps are: taking the mutex, one assignment to or from
    one element of [pose], and releasing the mutex.  The capture loop is
    the writer, the consumer calling [data] the reader. *)
Module PoseLock.

(** The assignments of [set_rmat], in program order, for a solved
    translation [tv] and Euler triple [eu]. *)
Definition writes_of (tv eu : Vec3d) : list (nat * float) :=
  [ (0%nat, (v_0 tv * 0.1)%float);
    (1%nat, (v_1 tv * 0.1)%float);
    (2%nat, (v_2 tv * 0.1)%float);
    (axis_index Yaw, v_1 eu);
    (axis_index Pitch, (- v_0 eu)%float);
    (axis_index Roll, v_2 eu) ].

(** The elements [data] copies, in program order. *)
Definition reads_of : list nat :=
  [ axis_index Yaw; axis_index Pitch; axis_index Roll;
    axis_index TX; axis_index TY; axis_index TZ ].

Definition apply_writes (ws : list (nat * float)) (p : list float) : list float :=
  fold_left (fun p w => array_set (fst w) (snd w) p) ws p.

Inductive owner : Type := Free | HeldByWriter | HeldByReader.

(** Where each thread stands: outside its critical section, or inside
    with the assignments still to make (and, for the reader, the
    caller's array filled so far). *)
Inductive writer_pc : Type :=
| WOut
| WIn (todo : list (nat * float)).

Inductive reader_pc : Type :=
| ROut
| RIn (todo : list nat) (out : list float).

(** [written] and [observed] are histories kept for the statement only:
    the poses complete calls of [set_rmat] have produced (with the
    initial pose), and the arrays complete calls of [data] have
    returned. *)
Record state : Type := mkState {
  mtx : owner;
  shared_pose : list float;
  wpc : writer_pc;
  rpc : reader_pc;
  written : list (list float);
  observed : list (list float)
}.

Definition initial (p0 : list float) : state :=
  mkState Free p0 WOut ROut [p0] [].

Inductive step : state -> state -> Prop :=
| writer_lock : forall p wr ob rp tv eu,
    step (mkState Free p WOut rp wr ob)
         (mkState HeldByWriter p (WIn (writes_of tv eu)) rp wr ob)
| writer_assign : forall o p wr ob rp i v todo,
    step (mkState o p (WIn ((i, v) :: todo)) rp wr ob)
         (mkState o (array_set i v p) (WIn todo) rp wr ob)
| writer_unlock : forall o p wr ob rp,
    step (mkState o p (WIn []) rp wr ob)
         (mkState Free p WOut rp (p :: wr) ob)
| reader_lock : forall p wr ob wp out,
    length out = 6%nat ->
    step (mkState Free p wp ROut wr ob)
         (mkState HeldByReader p wp (RIn reads_of out) wr ob)
| reader_assign : forall o p wr ob wp i todo out,
    step (mkState o p wp (RIn (i :: todo) out) wr ob)
         (mkState o p wp (RIn todo (array_set i (array_get i p) out)) wr ob)
| reader_unlock : forall o p wr ob wp out,
    step (mkState o p wp (RIn [] out) wr ob)
         (mkState Free p wp ROut wr (out :: ob)).

Inductive reachable (p0 : list float) : state -> Prop :=
| reach_init : reachable p0 (initial p0)
| reach_step : forall s1 s2, reachable p0 s1 -> step s1 s2 -> reachable p0 s2.

(** The same steps as a function, for running a schedule: the step a
    thread asks for is made when the state allows it. *)
Inductive action : Type :=
| WLock (tv eu : Vec3d)
| WAssign
| WUnlock
| RLock (out : list float)
| RAssign
| RUnlock.

Definition exec (s : state) (a : action) : option state :=
  match a with
  | WLock tv eu =>
      match mtx s, wpc s with
      | Free, WOut =>
          Some (mkState HeldByWriter (shared_pose s) (WIn (writes_of tv eu))
                        (rpc s) (written s) (observed s))
      | _, _ => None
      end
  | WAssign =>
      match wpc s with
      | WIn ((i, v) :: todo) =>
          Some (mkState (mtx s) (array_set i v (shared_pose s)) (WIn todo)
                        (rpc s) (written s) (observed s))
      | _ => None
      end
  | WUnlock =>
      match wpc s with
      | WIn [] =>
          Some (mkState Free (shared_pose s) WOut (rpc s)
                        (shared_pose s :: written s) (observed s))
      | _ => None
      end
  | RLock out =>
      match mtx s, rpc s with
      | Free, ROut =>
          if Nat.eqb (length out) 6
          then Some (mkState HeldByReader (shared_pose s) (wpc s)
                             (RIn reads_of out) (written s) (observed s))
          else None
      | _, _ => None
      end
  | RAssign =>
      match rpc s with
      | RIn (i :: todo) out =>
          Some (mkState (mtx s) (shared_pose s) (wpc s)
                        (RIn todo (array_set i (array_get i (shared_pose s)) out))
                        (written s) (observed s))
      | _ => None
      end
  | RUnlock =>
      match rpc s with
      | RIn [] out =>
          Some (mkState Free (shared_pose s) (wpc s) ROut
                        (written s) (out :: observed s))
      | _ => None
      end
  end.

Fixpoint exec_all (s : state) (sched : list action) : option state :=
  match sched with
  | [] => Some s
  | a :: sched =>
      match exec s a with
      | Some s' => exec_all s' sched
      | None => None
      end
  end.

End PoseLock.

(** ** A bench world for running the definitions *)

(** A stand-in for OpenCV on which the definitions compute: an image is
    its size together with what the detector finds on the whole of it and
    inside any crop of it; the solver answers [solved] with translation
    [tv], projection returns [proj], the Euler decomposition [eu]. *)
Module Bench.

Record image : Type := mkImage {
  img_cols : Z;
  img_rows : Z;
  on_frame : list Marker;
  in_crop : list Marker
}.

Definition crop_image (i : image) (roi : Rect) : image :=
  mkImage (rect_width roi) (rect_height roi) (in_crop i) [].

Definition world (solved : bool) (tv eu : Vec3d) (proj : list Point2f) : OpenCV :=
  mkOpenCV image img_cols img_rows (fun i => i) crop_image
           (fun _ _ i => on_frame i)
           (fun _ _ _ rv _ => (solved, (rv, tv)))
           (fun _ _ _ _ => proj)
           (fun _ => Matx33d_eye)
           (fun _ => eu)
           (fun x => x) (fun x => x).

(** The header's constants as upstream ships them. *)
Definition header : Header := mkHeader 0.25 0.05 0.3 1.3.

Definition pt (x y : Z) : Point2f := mkPoint2f (F32.of_int x) (F32.of_int y).

Definition square (x y side : Z) : Marker :=
  [pt x y; pt (x + side) y; pt (x + side) (y + side); pt x (y + side)].

Definition conf : settings := mkSettings 0 0 56 0 0 0.

Definition vga (found inside : list Marker) : image :=
  mkImage 640 480 found inside.

(** A solver that succeeds with translation (10, 20, 30) and Euler
    angles (1, 2, 3), projecting the search window onto the square at
    (90, 90) of side 70; and one that fails. *)
Definition solving : OpenCV :=
  world true (mkVec3d 10 20 30) (mkVec3d 1 2 3) (square 90 90 70).

Definition failing : OpenCV :=
  world false (mkVec3d 10 20 30) (mkVec3d 1 2 3) (square 90 90 70).

(** The tracker as constructed, before the first frame. *)
Definition fresh : tracker solving := aruco_tracker_init solving (vga [] []).

(** A tracker whose solver has just returned translation (10, 20, 30). *)
Definition solved : tracker solving := set_tvec (mkVec3d 10 20 30) fresh.

(** A tracker holding a VGA frame whose four projected points all fall
    beyond the right and bottom edges. *)
Definition off_frame : tracker solving :=
  set_roi_projection (square 700 500 20) (set_color (cv := solving) (vga [] []) fresh).

(** A tracker holding a VGA frame with the projected points inside it. *)
Definition on_frame_roi : tracker solving :=
  set_roi_projection (square 90 90 70) (set_color (cv := solving) (vga [] []) fresh).

(** A frame showing one square marker, and an empty one. *)
Definition marker_frame : frame_input solving :=
  mkFrameInput solving (Some (vga [square 150 150 50] [])) 0.016 conf.

Definition empty_frame : frame_input solving :=
  mkFrameInput solving (Some (vga [] [])) 0.016 conf.

Definition marker_frame_failing : frame_input failing :=
  mkFrameInput failing (Some (vga [square 150 150 50] [])) 0.016 conf.

(** The tracker after one turn on the frame with the marker. *)
Definition after_marker : tracker solving := iteration header marker_frame fresh.

(** A tracker of the failing solver that has a pose from earlier. *)
Definition earlier_pose : tracker failing :=
  set_pose [1; 2; 3; 4; 5; 6]%float (aruco_tracker_init failing (vga [] [])).

(** A tracker holding a region of interest and a grayscale frame in
    which the detector finds a marker inside the crop; and one in which
    it finds none there. *)
Definition tracking : tracker solving :=
  set_last_roi_field (mkRect 100 100 200 150)
    (set_grayscale (cv := solving) (vga [square 150 150 50] [square 40 40 50]) fresh).

Definition lost : tracker solving :=
  set_last_roi_field (mkRect 100 100 200 150)
    (set_grayscale (cv := solving) (vga [square 150 150 50] []) fresh).

(** A schedule of the two threads: the capture loop publishes one pose;
    the consumer, whose first lock attempt fell inside that critical
    section, reads after the release. *)
Definition one_write_one_read : list PoseLock.action :=
  [ PoseLock.WLock (mkVec3d 10 20 30) (mkVec3d 1 2 3);
    PoseLock.WAssign; PoseLock.WAssign; PoseLock.WAssign;
    PoseLock.WAssign; PoseLock.WAssign; PoseLock.WAssign;
    PoseLock.WUnlock;
    PoseLock.RLock (repeat 0%float 6);
    PoseLock.RAssign; PoseLock.RAssign; PoseLock.RAssign;
    PoseLock.RAssign; PoseLock.RAssign; PoseLock.RAssign;
    PoseLock.RUnlock ].

Definition after_schedule : PoseLock.state :=
  match PoseLock.exec_all (PoseLock.initial (repeat 0%float 6)) one_write_one_read with
  | Some s => s
  | None => PoseLock.initial (repeat 0%float 6)
  end.

(** An accumulator that remembers the last sample's translation and
    counts the samples since its reset. *)
Definition averaging : Calibrator :=
  mkCalibrator (Vec3d * nat)%type
               (fun _ => (zero3, 0%nat))
               (fun _ tr c => (tr, S (snd c)))
               fst.

Definition idle_dialog : dialog solving averaging :=
  mkDialog solving averaging false
           (mkSettings 0 0 56 1 2 3) (mkVec3d 5 10 (-3), 50%nat) (Some solved).

Definition calibrating_dialog : dialog solving averaging :=
  mkDialog solving averaging true
           (mkSettings 0 0 56 0 0 0) (mkVec3d 5 10 (-3), 50%nat) (Some solved).

End Bench.

(** ** Vocabulary of the specification *)

(** The definitions below say what the specification's words mean; the
    theorems compare them with what the code computes. *)
Module Spec.

Open Scope float_scope.

(** [v] clamped into the interval from [lo] to [hi]. *)
Definition clamp (v lo hi : float) : float :=
  if v <? lo then lo else if hi <? v then hi else v.

(** A configured size bound [k] rescaled from the frame's width to the
    width of the region searched. *)
Definition rescaled (k : float) (frame_cols roi_width : Z) : float :=
  k * Cxx.double_of_int frame_cols / Cxx.double_of_int roi_width.

(** The frame-rate average after a sample of [dt] seconds, with time
    constant [rc] and additive bias [bias]. *)
Definition ema (rc bias fps dt : float) : float :=
  let alpha := dt / (dt + rc) in
  fps * (1 - alpha) + alpha * (1 / dt + bias).

Close Scope float_scope.

(** The region lies in a frame of [c] columns and [rws] rows and is at
    least one pixel wide and high. *)
Definition roi_inside (c rws : Z) (roi : Rect) : Prop :=
  (0 <= rect_x roi <= c - 1 /\ 0 <= rect_y roi <= rws - 1 /\
   rect_x roi + rect_width roi <= c /\
   rect_y roi + rect_height roi <= rws /\
   1 <= rect_width roi /\ 1 <= rect_height roi)%Z.

(** The smallest and the largest of the four projected points'
    coordinates, as the integers the code truncates them to. *)
Definition proj_x {cv : OpenCV} (a : tracker cv) (i : nat) : Z :=
  F32.to_int (p2_x (nth i (roi_projection a) corner_default)).
Definition proj_y {cv : OpenCV} (a : tracker cv) (i : nat) : Z :=
  F32.to_int (p2_y (nth i (roi_projection a) corner_default)).

Definition min4 (f : nat -> Z) : Z :=
  Z.min (f 0%nat) (Z.min (f 1%nat) (Z.min (f 2%nat) (f 3%nat))).
Definition max4 (f : nat -> Z) : Z :=
  Z.max (f 0%nat) (Z.max (f 1%nat) (Z.max (f 2%nat) (f 3%nat))).

(** The pose a complete [set_rmat] publishes for translation [tv] and
    Euler triple [eu]. *)
Definition published (tv eu : Vec3d) : list float :=
  [ v_0 tv * 0.1; v_1 tv * 0.1; v_2 tv * 0.1;
    v_1 eu; - v_0 eu; v_2 eu ]%float.

End Spec.

(** ** The frame-rate text of the overlay (draw_ar) *)

Module Overlay.

Import Stdlib.Strings.String.
Local Open Scope string_scope.

(** [printf]'s [%d]. *)
Definition decimal (v : Z) : string :=
  DecimalString.NilZero.string_of_int (Z.to_int v).

(** [snprintf(buf, n, "Hz: %d", v)] followed by [buf[8] = 0], read back
    as the C string in [buf]: [snprintf] stores at most [n - 1]
    characters and a terminator.  [draw_ar] passes [sizeof(buf) - 1],
    which is 8 for its [char buf[9]]. *)
Definition snprintf_hz (n : nat) (v : Z) : string :=
  substring 0 (n - 1) ("Hz: " ++ decimal v).

(** The text [draw_ar] hands to [cv::putText] when the clamped frame
    rate is [v], the value of [clamp(int(fps), 0, 9999)]. *)
Definition hz_text (v : Z) : string := snprintf_hz 8 v.

End Overlay.

(** ** The vJoy protocol (ftnoir_protocol_vjoy.cpp) *)

Module VJoy.

(** [int(d)] for a [double] [d]: truncation towards zero, with the same
    convention as [F32.to_int] where C++ leaves the result undefined. *)
Definition int_of_double (d : float) : Z := F32.to_int (Prim2SF d).

(** [std::min<int>(a, b)] and [std::max<int>(a, b)]. *)
Definition min_int (a b : Z) : Z := if (b <? a)%Z then b else a.
Definition max_int (a b : Z) : Z := if (a <? b)%Z then b else a.

(** The axis fields of [JOYSTICK_STATE] that [sendHeadposeToGame] sets
    in [state[0]], as the [int] each right-hand side evaluates to; every
    other field of the two states is zero. *)
Record joystick_state : Type := mkJoystick {
  XAxis : Z;
  YAxis : Z;
  ZAxis : Z;
  XRotation : Z;
  YRotation : Z;
  ZRotation : Z;
  POV : Z
}.

Section Protocol.

(** The macros of the vJoy header, which is not among the sources. *)
Variables VJOY_AXIS_MIN VJOY_AXIS_MAX : Z.

(** [std::min<int>(VJOY_AXIS_MAX,
      std::max<int>(VJOY_AXIS_MIN, v * VJOY_AXIS_MAX / range))]. *)
Definition axis_value (v range : float) : Z :=
  min_int VJOY_AXIS_MAX
    (max_int VJOY_AXIS_MIN
       (int_of_double (v * Cxx.double_of_int VJOY_AXIS_MAX / range)%float)).

Definition sendHeadposeToGame (headpose : list float) : joystick_state :=
  mkJoystick
    (axis_value (array_get (axis_index Yaw) headpose) 180)
    (axis_value (array_get (axis_index Pitch) headpose) 180)
    (axis_value (array_get (axis_index Roll) headpose) 180)
    (axis_value (array_get (axis_index TX) headpose) 100)
    (axis_value (array_get (axis_index TY) headpose) 100)
    (axis_value (array_get (axis_index TZ) headpose) 100)
    (Z.lor (Z.lor (Z.lor (Z.shiftl 4 12) (Z.shiftl 4 8)) (Z.shiftl 4 4)) 4).

End Protocol.

End VJoy.

(** ** Vocabulary for the properties of the loop and of the dialog *)

Module Props.

(** Kinds of events, and how many of a kind a list holds. *)
Definition is_read (e : event) : bool :=
  match e with EvCameraRead _ => true | _ => false end.
Definition is_good_read (e : event) : bool :=
  match e with EvCameraRead true => true | _ => false end.
Definition is_detect (e : event) : bool :=
  match e with EvDetect _ => true | _ => false end.
Definition is_region_detect (e : event) : bool :=
  match e with EvDetect (Some _) => true | _ => false end.
Definition is_solve (e : event) : bool :=
  match e with EvSolvePnP _ => true | _ => false end.
Definition is_draw (e : event) : bool :=
  match e with EvDrawAr _ => true | _ => false end.

Definition count (p : event -> bool) (l : list event) : nat :=
  length (filter p l).

(** The rectangle lies in a frame of [c] columns and [rws] rows, leaving
    the last column and row free, as [clamp_last_roi] makes it. *)
Definition inside (c rws : Z) (roi : Rect) : Prop :=
  (0 <= rect_x roi /\ 0 <= rect_y roi /\
   0 <= rect_width roi /\ 0 <= rect_height roi /\
   rect_x roi + rect_width roi <= c - 1 /\
   rect_y roi + rect_height roi <= rws - 1)%Z.

Definition roi_ok (c rws : Z) (roi : Rect) : Prop :=
  roi = sentinel_roi \/ inside c rws roi.

(** A run of the detector inside a region is on a region of the frame
    more than one pixel wide and high. *)
Definition region_event_ok (c rws : Z) (e : event) : Prop :=
  match e with
  | EvDetect (Some roi) =>
      inside c rws roi /\ (1 < rect_width roi)%Z /\ (1 < rect_height roi)%Z
  | _ => True
  end.

(** The intrinsic matrix has no skew and the bottom row (0, 0, 1). *)
Definition pinhole (m : Matx33d) : Prop :=
  v_1 (fst (fst m)) = 0%float /\ v_0 (snd (fst m)) = 0%float /\
  snd m = mkVec3d 0 0 1.

(** The frames a list of loop inputs delivers all have [c] columns and
    [rws] rows. *)
Definition frames_sized (cv : OpenCV) (c rws : Z)
    (inputs : list (frame_input cv)) : Prop :=
  forall inp img, In inp inputs -> cam_read inp = Some img ->
    cols cv img = c /\ rows cv img = rws.

(** The capture loop proper: the turns of [run] after the camera has
    opened. *)
Definition capture_loop {cv : OpenCV} (K : Header)
    (inputs : list (frame_input cv)) (a : tracker cv) : tracker cv :=
  fold_left (fun a inp => iteration K inp a) inputs a.

(** A timer tick at a moment when the tracker the dialog points to is
    in state [tr]. *)
Definition tick {cv : OpenCV} {C : Calibrator} (d : dialog cv C)
    (tr : tracker cv) : dialog cv C :=
  update_tracker_calibration
    (mkDialog cv C (calib_timer_active d) (s d) (calibrator d)
              (option_map (fun _ => tr) (tracker_ptr d))).

(** The accumulator after the samples of the trackers [trs], oldest
    first. *)
Definition sampled {cv : OpenCV} (C : Calibrator) (trs : list (tracker cv))
    (c : calib C) : calib C :=
  fold_left (fun c tr => calib_update C (r tr) (t tr) c) trs c.

Definition clicks (evs : list dialog_event) : nat :=
  length (filter (fun e => match e with Click => true | Timeout => false end) evs).

(** The frame-rate estimate after one more elapsed time [dt]. *)
Definition fps_after (K : Header) (f dt : float) : float :=
  if (0.001 <? dt)%float then Spec.ema (RC K) 0.8 f dt else f.

(** The frame-rate estimate after the turns of [inputs], from their
    reads and elapsed times alone. *)
Definition fps_of_reads {cv : OpenCV} (K : Header)
    (inputs : list (frame_input cv)) (f : float) : float :=
  fold_left
    (fun f inp => match cam_read inp with
                  | Some _ => fps_after K f (elapsed inp)
                  | None => f
                  end)
    inputs f.

(** Who holds the mutex, read off where the two threads stand. *)
Definition lock_ok (st : PoseLock.state) : Prop :=
  match PoseLock.wpc st, PoseLock.rpc st with
  | PoseLock.WOut, PoseLock.ROut => PoseLock.mtx st = PoseLock.Free
  | PoseLock.WIn _, PoseLock.ROut => PoseLock.mtx st = PoseLock.HeldByWriter
  | PoseLock.WOut, PoseLock.RIn _ _ => PoseLock.mtx st = PoseLock.HeldByReader
  | PoseLock.WIn _, PoseLock.RIn _ _ => False
  end.

End Props.

(** ** More of the bench *)

Module BenchMore.

(** Settings whose two selectors are outside their tables. *)
Definition wild_conf : settings := mkSettings 7 9 56 0 0 0.

(** A turn in which the camera delivers nothing. *)
Definition no_frame : frame_input Bench.solving :=
  mkFrameInput Bench.solving None 0.016 Bench.conf.

(** Marker seen, marker gone, no frame, marker seen again. *)
Definition session : list (frame_input Bench.solving) :=
  [Bench.marker_frame; Bench.empty_frame; no_frame; Bench.marker_frame].

(** The vJoy header's range, and a pose to send. *)
Definition axis_min : Z := -32768.
Definition axis_max : Z := 32767.
Definition headpose : list float := [10; -250; 3; 45; -90; 180]%float.

End BenchMore.

(** ** The tracker object between two threads *)

(** The members [pose], [r] and [t] of the tracker are written by the
    capture loop in [set_rmat] and read by the consumer in [data]; both
    take [mtx] for the rest of their body.  Here the interleavings of the
    two threads are the runs of a transition system over the tracker
    object itself.  Its atomic steps are: any work of the capture loop
    that leaves [pose], [r] and [t] alone; taking the mutex; one
    assignment of [set_rmat] or of [data], in program order; releasing
    the mutex.  ([PoseLock] above follows the pose array alone, with the
    solver's answer chosen freely at each call.) *)
Module Threads.

Inductive holder : Type := Nobody | CaptureLoop | Consumer.

Section System.

Variable cv : OpenCV.

(** The members the mutex guards. *)
Definition guarded (a : tracker cv) : list float * Matx33d * Vec3d :=
  (pose a, r a, t a).

(** [pose[i] = v]. *)
Definition assign_pose (i : nat) (v : float) (a : tracker cv) : tracker cv :=
  set_pose (array_set i v (pose a)) a.

(** The assignments [set_rmat] makes once it holds the mutex, in program
    order, when called on the tracker [b]: the rotation matrix and the
    Euler triple were computed from [rvec] before the lock was taken. *)
Definition set_rmat_assignments (b : tracker cv) : list (tracker cv -> tracker cv) :=
  let rmat := Rodrigues cv (rvec b) in
  let euler := RQDecomp3x3 cv rmat in
  [ assign_pose 0 (v_0 (tvec b) * 0.1)%float;
    assign_pose 1 (v_1 (tvec b) * 0.1)%float;
    assign_pose 2 (v_2 (tvec b) * 0.1)%float;
    assign_pose (axis_index Yaw) (v_1 euler);
    assign_pose (axis_index Pitch) (- v_0 euler)%float;
    assign_pose (axis_index Roll) (v_2 euler);
    set_r rmat;
    set_t (mkVec3d (v_0 (tvec b)) (- v_1 (tvec b))%float (v_2 (tvec b))) ].

(** [data[i] = pose[i]]. *)
Definition copy_pose (i : nat) (a : tracker cv) (out : list float) : list float :=
  array_set i (array_get i (pose a)) out.

(** The assignments [data] makes once it holds the mutex, in program
    order. *)
Definition data_assignments : list (tracker cv -> list float -> list float) :=
  [ copy_pose (axis_index Yaw); copy_pose (axis_index Pitch);
    copy_pose (axis_index Roll); copy_pose (axis_index TX);
    copy_pose (axis_index TY); copy_pose (axis_index TZ) ].

Definition assigned (fs : list (tracker cv -> tracker cv)) (a : tracker cv) : tracker cv :=
  fold_left (fun a f => f a) fs a.

Definition copied (fs : list (tracker cv -> list float -> list float))
    (a : tracker cv) (out : list float) : list float :=
  fold_left (fun out f => f a out) fs out.

(** Where each thread stands.  The capture loop is at work outside
    [set_rmat]'s critical section, or inside it with the assignments
    still to make.  The consumer is away, or inside [data] with the
    assignments still to make, the array as the caller passed it and the
    array as filled so far. *)
Inductive capture_pc : Type :=
| Working
| Publishing (todo : list (tracker cv -> tracker cv)).

Inductive consumer_pc : Type :=
| Away
| Reading (todo : list (tracker cv -> list float -> list float))
          (buf out : list float).

(** [calls] and [returned] are histories kept for the statements only:
    the trackers on which [set_rmat] has taken the mutex, most recent
    first, and for each complete call of [data] the caller's array
    before and after. *)
Record state : Type := mkState {
  mtx : holder;
  object : tracker cv;
  capture : capture_pc;
  consumer : consumer_pc;
  calls : list (tracker cv);
  returned : list (list float * list float)
}.

Definition initial (a0 : tracker cv) : state :=
  mkState Nobody a0 Working Away [] [].

Inductive step : state -> state -> Prop :=
| capture_work : forall m a a' rp cl ob,
    guarded a' = guarded a ->
    step (mkState m a Working rp cl ob)
         (mkState m a' Working rp cl ob)
| capture_lock : forall a rp cl ob,
    step (mkState Nobody a Working rp cl ob)
         (mkState CaptureLoop a (Publishing (set_rmat_assignments a)) rp (a :: cl) ob)
| capture_assign : forall m a f todo rp cl ob,
    step (mkState m a (Publishing (f :: todo)) rp cl ob)
         (mkState m (f a) (Publishing todo) rp cl ob)
| capture_unlock : forall m a rp cl ob,
    step (mkState m a (Publishing []) rp cl ob)
         (mkState Nobody a Working rp cl ob)
| consumer_lock : forall a wp cl ob buf,
    step (mkState Nobody a wp Away cl ob)
         (mkState Consumer a wp (Reading data_assignments buf buf) cl ob)
| consumer_assign : forall m a wp f todo buf out cl ob,
    step (mkState m a wp (Reading (f :: todo) buf out) cl ob)
         (mkState m a wp (Reading todo buf (f a out)) cl ob)
| consumer_unlock : forall m a wp buf out cl ob,
    step (mkState m a wp (Reading [] buf out) cl ob)
         (mkState Nobody a wp Away cl ((buf, out) :: ob)).

Inductive reachable (a0 : tracker cv) : state -> Prop :=
| reach_initial : reachable a0 (initial a0)
| reach_next : forall s1 s2, reachable a0 s1 -> step s1 s2 -> reachable a0 s2.

(** The tracker as the most recent call of [set_rmat] leaves it: the
    tracker as constructed while there has been no call. *)
Definition latest (a0 : tracker cv) (s : state) : tracker cv :=
  match calls s with
  | [] => a0
  | b :: _ => set_rmat b
  end.

(** The capture loop's private members of [a'] around the guarded
    members of [a]. *)
Definition keep_guarded (a a' : tracker cv) : tracker cv :=
  set_t (t a) (set_r (r a) (set_pose (pose a) a')).

(** The same steps as a function, for running a schedule: the step a
    thread asks for is made when the state allows it. *)
Inductive request : Type :=
| Work (a' : tracker cv)
| Lock
| Assign
| Unlock
| DataLock (buf : list float)
| DataAssign
| DataUnlock.

Definition serve (s : state) (q : request) : option state :=
  match q with
  | Work a' =>
      match capture s with
      | Working =>
          Some (mkState (mtx s) (keep_guarded (object s) a') Working
                        (consumer s) (calls s) (returned s))
      | Publishing _ => None
      end
  | Lock =>
      match mtx s, capture s with
      | Nobody, Working =>
          Some (mkState CaptureLoop (object s)
                        (Publishing (set_rmat_assignments (object s)))
                        (consumer s) (object s :: calls s) (returned s))
      | _, _ => None
      end
  | Assign =>
      match capture s with
      | Publishing (f :: todo) =>
          Some (mkState (mtx s) (f (object s)) (Publishing todo)
                        (consumer s) (calls s) (returned s))
      | _ => None
      end
  | Unlock =>
      match capture s with
      | Publishing [] =>
          Some (mkState Nobody (object s) Working
                        (consumer s) (calls s) (returned s))
      | _ => None
      end
  | DataLock buf =>
      match mtx s, consumer s with
      | Nobody, Away =>
          Some (mkState Consumer (object s) (capture s)
                        (Reading data_assignments buf buf)
                        (calls s) (returned s))
      | _, _ => None
      end
  | DataAssign =>
      match consumer s with
      | Reading (f :: todo) buf out =>
          Some (mkState (mtx s) (object s) (capture s)
                        (Reading todo buf (f (object s) out))
                        (calls s) (returned s))
      | _ => None
      end
  | DataUnlock =>
      match consumer s with
      | Reading [] buf out =>
          Some (mkState Nobody (object s) (capture s) Away
                        (calls s) ((buf, out) :: returned s))
      | _ => None
      end
  end.

Fixpoint serve_all (s : state) (sched : list request) : option state :=
  match sched with
  | [] => Some s
  | q :: sched =>
      match serve s q with
      | Some s' => serve_all s' sched
      | None => None
      end
  end.

(** Who holds the mutex, read off where the two threads stand. *)
Definition excluded (s : state) : Prop :=
  match capture s, consumer s with
  | Working, Away => mtx s = Nobody
  | Publishing _, Away => mtx s = CaptureLoop
  | Working, Reading _ _ _ => mtx s = Consumer
  | Publishing _, Reading _ _ _ => False
  end.

(** What holds of the capture loop in every reachable state: outside its
    critical section the guarded members are as the most recent call
    left them; inside, the object is the tracker the call started on
    with a prefix of the call's assignments made. *)
Definition capture_ok (a0 : tracker cv) (s : state) : Prop :=
  match capture s with
  | Working => guarded (object s) = guarded (latest a0 s)
  | Publishing todo =>
      exists b rest done,
        calls s = b :: rest /\
        set_rmat_assignments b = done ++ todo /\
        object s = assigned done b
  end.

(** What holds of the consumer: inside [data] its array is the caller's
    with a prefix of the assignments made from the pose the most recent
    call left. *)
Definition consumer_ok (a0 : tracker cv) (s : state) : Prop :=
  match consumer s with
  | Away => True
  | Reading todo buf out =>
      exists done,
        data_assignments = done ++ todo /\
        out = copied done (latest a0 s) buf
  end.

(** What [data] has returned: for each complete call, [data] applied to
    the tracker as constructed or to the tracker one call of [set_rmat]
    has left. *)
Definition returned_ok (a0 : tracker cv) (s : state) : Prop :=
  forall buf out, In (buf, out) (returned s) ->
    out = data a0 buf \/
    exists b, In b (calls s) /\ out = data (set_rmat b) buf.

Definition invariant (a0 : tracker cv) (s : state) : Prop :=
  excluded s /\
  length (pose (object s)) = length (pose a0) /\
  (forall b, In b (calls s) -> length (pose b) = length (pose a0)) /\
  capture_ok a0 s /\ consumer_ok a0 s /\ returned_ok a0 s.

End System.

Arguments guarded {cv}.
Arguments assign_pose {cv}.
Arguments set_rmat_assignments {cv}.
Arguments copy_pose {cv}.
Arguments data_assignments {cv}.
Arguments assigned {cv}.
Arguments copied {cv}.
Arguments Working {cv}.
Arguments Publishing {cv}.
Arguments Away {cv}.
Arguments Reading {cv}.
Arguments mkState {cv}.
Arguments mtx {cv}.
Arguments object {cv}.
Arguments capture {cv}.
Arguments consumer {cv}.
Arguments calls {cv}.
Arguments returned {cv}.
Arguments initial {cv}.
Arguments step {cv}.
Arguments reachable {cv}.
Arguments latest {cv}.
Arguments keep_guarded {cv}.
Arguments Work {cv}.
Arguments Lock {cv}.
Arguments Assign {cv}.
Arguments Unlock {cv}.
Arguments DataLock {cv}.
Arguments DataAssign {cv}.
Arguments DataUnlock {cv}.
Arguments serve {cv}.
Arguments serve_all {cv}.
Arguments excluded {cv}.
Arguments capture_ok {cv}.
Arguments consumer_ok {cv}.
Arguments returned_ok {cv}.
Arguments invariant {cv}.

(** A schedule on the bench.  The solver returns translation
    (10, 20, 30); the capture loop publishes it; the consumer reads, and
    between two of its assignments the capture loop solves again, for
    (40, 50, 60), and waits for the mutex; the consumer's second call,
    after the second publication, reads the second pose. *)
Definition nines : list float := [9; 9; 9; 9; 9; 9]%float.

Definition solved_again : tracker Bench.solving :=
  set_tvec (mkVec3d 40 50 60) Bench.solved.

Definition two_writes_two_reads : list (request Bench.solving) :=
  [ Work Bench.solved;
    Lock; Assign; Assign; Assign; Assign; Assign; Assign; Assign; Assign;
    Unlock;
    DataLock nines; DataAssign; DataAssign; DataAssign;
    Work solved_again;
    DataAssign; DataAssign; DataAssign; DataUnlock;
    Lock; Assign; Assign; Assign; Assign; Assign; Assign; Assign; Assign;
    Unlock;
    DataLock nines; DataAssign; DataAssign; DataAssign;
    DataAssign; DataAssign; DataAssign; DataUnlock ].

(** An array with the first call's TX and TZ around the second call's
    TY: what a read torn between the two calls would look like. *)
Definition torn : list float := [1; 5; 3; 2; -1; 3]%float.

Definition after_two : state Bench.solving :=
  match serve_all (initial Bench.fresh) two_writes_two_reads with
  | Some s => s
  | None => initial Bench.fresh
  end.

End Threads.

(** * Proofs *)

(** ** Order on binary64 numbers *)

(** The comparisons of primitive floats are those of [SFcompare] on their
    specification; the facts below are the ones the clamping and the
    frame-rate threshold need. *)
Module FloatOrder.

Ltac cases_compare :=
  repeat match goal with
  | |- context [Pos.compare_cont Eq ?a ?b] =>
      change (Pos.compare_cont Eq a b) with (Pos.compare a b)
  | H : context [Pos.compare_cont Eq ?a ?b] |- _ =>
      change (Pos.compare_cont Eq a b) with (Pos.compare a b) in H
  end;
  repeat match goal with
  | H : context [Z.compare ?a ?b] |- _ =>
      destruct (Z.compare_spec a b); simpl in H
  | |- context [Z.compare ?a ?b] =>
      destruct (Z.compare_spec a b); simpl
  | H : context [Pos.compare ?a ?b] |- _ =>
      destruct (Pos.compare_spec a b); simpl in H
  | |- context [Pos.compare ?a ?b] =>
      destruct (Pos.compare_spec a b); simpl
  end.

Lemma SFcompare_antisym (a b : spec_float) :
  SFcompare b a = option_map CompOpp (SFcompare a b).
Proof.
  destruct a as [sa|sa| |sa ma ea], b as [sb|sb| |sb mb eb];
    try destruct sa; try destruct sb; simpl; try reflexivity;
    cases_compare; subst; try reflexivity; try lia.
Qed.

Lemma SFltb_asym (a b : spec_float) :
  SFltb a b = true -> SFltb b a = false.
Proof.
  unfold SFltb. rewrite (SFcompare_antisym a b).
  destruct (SFcompare a b) as [[ | | ]|]; simpl; congruence.
Qed.

Lemma SFleb_not_ltb (a b : spec_float) :
  SFleb a b = true -> SFltb b a = false.
Proof.
  unfold SFltb, SFleb. rewrite (SFcompare_antisym a b).
  destruct (SFcompare a b) as [[ | | ]|]; simpl; congruence.
Qed.

Lemma SFltb_leb (a b : spec_float) :
  SFltb a b = true -> SFleb a b = true.
Proof.
  unfold SFltb, SFleb. destruct (SFcompare a b) as [[ | | ]|]; congruence.
Qed.

Lemma SFltb_trans (a b c : spec_float) :
  SFltb a b = true -> SFltb b c = true -> SFltb a c = true.
Proof.
  unfold SFltb.
  destruct a as [sa|sa| |sa ma ea], b as [sb|sb| |sb mb eb],
           c as [sc|sc| |sc mc ec];
    try destruct sa; try destruct sb; try destruct sc; simpl;
    try congruence; intros Hab Hbc;
    cases_compare; subst; try congruence; try lia.
Qed.

(** A number that is neither below nor above a finite non-zero one, and
    is a number at all, is that one. *)
Lemma SFcompare_finite_eq (a : spec_float) (s : bool) (m : positive) (e : Z) :
  a <> S754_nan ->
  SFltb a (S754_finite s m e) = false ->
  SFltb (S754_finite s m e) a = false ->
  a = S754_finite s m e.
Proof.
  unfold SFltb.
  destruct a as [sa|sa| |sa ma ea]; try destruct sa; destruct s; simpl;
    try congruence; intros _ H1 H2;
    cases_compare; subst; try congruence; try lia.
Qed.

Open Scope float_scope.

Lemma ltb_asym (a b : float) : (a <? b) = true -> (b <? a) = false.
Proof. rewrite !ltb_spec. apply SFltb_asym. Qed.

Lemma leb_not_ltb (a b : float) : (a <=? b) = true -> (b <? a) = false.
Proof. rewrite ltb_spec, leb_spec. apply SFleb_not_ltb. Qed.

Lemma ltb_leb (a b : float) : (a <? b) = true -> (a <=? b) = true.
Proof. rewrite ltb_spec, leb_spec. apply SFltb_leb. Qed.

Lemma ltb_trans (a b c : float) :
  (a <? b) = true -> (b <? c) = true -> (a <? c) = true.
Proof. rewrite !ltb_spec. apply SFltb_trans. Qed.

Lemma is_nan_spec (a : float) : is_nan a = false -> Prim2SF a <> S754_nan.
Proof.
  unfold is_nan. rewrite eqb_spec. intros H E. rewrite E in H. discriminate.
Qed.

(** For a number [a] and a finite non-zero constant [c]: if neither is
    below the other they are the same float. *)
Lemma not_ltb_eq (a c : float) {s : bool} {m : positive} {e : Z} :
  Prim2SF c = S754_finite s m e ->
  is_nan a = false ->
  (a <? c) = false -> (c <? a) = false -> a = c.
Proof.
  intros Hc Hn. rewrite !ltb_spec, Hc. intros H1 H2.
  rewrite <- (SF2Prim_Prim2SF a), <- (SF2Prim_Prim2SF c), Hc.
  f_equal. apply SFcompare_finite_eq; auto using is_nan_spec.
Qed.

Lemma leb_not_ltb_eq (a c : float) {s : bool} {m : positive} {e : Z} :
  Prim2SF c = S754_finite s m e ->
  (c <=? a) = true -> (c <? a) = false -> a = c.
Proof.
  intros Hc Hle Hlt.
  assert (Hn : is_nan a = false).
  { unfold is_nan. rewrite eqb_spec. rewrite leb_spec, Hc in Hle.
    destruct (Prim2SF a) as [sa|sa| |sa ma ea]; try destruct sa; simpl in *;
      try reflexivity; try discriminate.
    all: unfold SFeqb; simpl; rewrite Z.compare_refl;
      change (Pos.compare_cont Eq ma ma) with (Pos.compare ma ma);
      rewrite Pos.compare_refl; reflexivity. }
  apply (not_ltb_eq a c Hc Hn); auto using leb_not_ltb.
Qed.

Close Scope float_scope.

End FloatOrder.

(** ** Frame rate (update_fps) *)

Section FrameRate.

Context {cv : OpenCV} (K : Header).

Open Scope float_scope.

(** C6: a sample [dt] above the threshold of one millisecond replaces the
    estimate by [fps*(1-alpha) + alpha*(1/dt + 0.8)] with
    [alpha = dt/(dt+RC)] and touches nothing else; a sample at or below
    the threshold leaves the tracker as it was. *)
Theorem update_fps_ema (dt : float) (a : tracker cv) :
  ((0.001 <? dt) = true ->
     update_fps K dt a = set_fps (Spec.ema (RC K) 0.8 (fps a) dt) a) /\
  ((dt <=? 0.001) = true -> update_fps K dt a = a).
Proof.
  unfold update_fps, Spec.ema. split; intros H.
  - rewrite H. reflexivity.
  - rewrite (FloatOrder.leb_not_ltb _ _ H). reflexivity.
Qed.

Close Scope float_scope.

End FrameRate.

(** Sixty frames a second against a degenerate interval. *)
Lemma update_fps_ema_witness :
  fps (update_fps Bench.header 0.016%float (set_fps 60%float Bench.fresh))
    = 60.198496240601507%float /\
  update_fps Bench.header 0.0005%float (set_fps 60%float Bench.fresh)
    = set_fps 60%float Bench.fresh.
Proof.
  destruct (update_fps_ema Bench.header 0.016%float
              (set_fps 60%float Bench.fresh)) as [Hup _].
  destruct (update_fps_ema Bench.header 0.0005%float
              (set_fps 60%float Bench.fresh)) as [_ Hkeep].
  split.
  - rewrite Hup by reflexivity. vm_compute. reflexivity.
  - apply Hkeep. reflexivity.
Defined.

(** ** Size bounds inside the region of interest *)

Section SizeBounds.

Open Scope float_scope.

Lemma one_spec : Prim2SF 1 = S754_finite false 4503599627370496 (-52).
Proof. reflexivity. Qed.

Lemma centi_spec : Prim2SF 0.01 = S754_finite false 5764607523034235 (-59).
Proof. reflexivity. Qed.

Lemma std_min_max_clamp (v : float) :
  is_nan v = false ->
  Cxx.std_min 1 (Cxx.std_max 0.01 v) = Spec.clamp v 0.01 1.
Proof.
  intros Hn. unfold Cxx.std_min, Cxx.std_max, Spec.clamp.
  destruct (0.01 <? v) eqn:A.
  - rewrite (FloatOrder.ltb_asym _ _ A).
    destruct (v <? 1) eqn:B.
    + now rewrite (FloatOrder.ltb_asym _ _ B).
    + destruct (1 <? v) eqn:D; [reflexivity|].
      symmetry. exact (FloatOrder.not_ltb_eq v 1 one_spec Hn B D).
  - change (0.01 <? 1) with true. cbv iota.
    destruct (v <? 0.01) eqn:B; [reflexivity|].
    rewrite (FloatOrder.not_ltb_eq v 0.01 centi_spec Hn B A). reflexivity.
Qed.

Lemma std_max_min_clamp (v : float) :
  is_nan v = false ->
  Cxx.std_max 0.01 (Cxx.std_min 1 v) = Spec.clamp v 0.01 1.
Proof.
  intros Hn. unfold Cxx.std_min, Cxx.std_max, Spec.clamp.
  destruct (v <? 1) eqn:B.
  - rewrite (FloatOrder.ltb_asym _ _ B).
    destruct (0.01 <? v) eqn:A.
    + now rewrite (FloatOrder.ltb_asym _ _ A).
    + destruct (v <? 0.01) eqn:D; [reflexivity|].
      rewrite (FloatOrder.not_ltb_eq v 0.01 centi_spec Hn D A). reflexivity.
  - change (0.01 <? 1) with true. cbv iota.
    destruct (v <? 0.01) eqn:A.
    + assert (C : (v <? 1) = true)
        by (apply (FloatOrder.ltb_trans _ _ _ A); reflexivity).
      congruence.
    + destruct (1 <? v) eqn:D; [reflexivity|].
      symmetry. exact (FloatOrder.not_ltb_eq v 1 one_spec Hn B D).
Qed.

(** Whatever the rescaled value, the two bounds lie in the interval. *)
Lemma std_min_max_range (v : float) :
  (0.01 <=? Cxx.std_min 1 (Cxx.std_max 0.01 v)) = true /\
  (Cxx.std_min 1 (Cxx.std_max 0.01 v) <=? 1) = true.
Proof.
  unfold Cxx.std_min, Cxx.std_max.
  destruct (0.01 <? v) eqn:A.
  - destruct (v <? 1) eqn:B; [|split; reflexivity].
    split; now apply FloatOrder.ltb_leb.
  - change (0.01 <? 1) with true. split; reflexivity.
Qed.

Lemma std_max_min_range (v : float) :
  (0.01 <=? Cxx.std_max 0.01 (Cxx.std_min 1 v)) = true /\
  (Cxx.std_max 0.01 (Cxx.std_min 1 v) <=? 1) = true.
Proof.
  unfold Cxx.std_min, Cxx.std_max.
  destruct (v <? 1) eqn:B.
  - destruct (0.01 <? v) eqn:A; [|split; reflexivity].
    split; now apply FloatOrder.ltb_leb.
  - change (0.01 <? 1) with true. split; reflexivity.
Qed.

Close Scope float_scope.

End SizeBounds.

(** ** The two-phase detection *)

(** Splitting on the tests a function makes, outermost first, until the
    state it returns is an explicit stack of member updates. *)
Ltac split_tests :=
  repeat match goal with
  | |- context [match intrinsics ?a with _ => _ end] =>
      destruct (intrinsics a) as [[? ?] ?]
  | |- context [if ?c then _ else _] => destruct c eqn:?
  end.

Section Detection.

Context {cv : OpenCV} (K : Header).

Lemma offset_corners_map (roi : Rect) (m : Marker) :
  length m = 4%nat -> offset_corners roi m = map (offset_corner roi) m.
Proof.
  destruct m as [|c0 [|c1 [|c2 [|c3 [|c4 m]]]]]; simpl; try discriminate.
  reflexivity.
Qed.

Lemma one_marker_four_corners_inv (ms : list Marker) :
  one_marker_four_corners ms = true ->
  exists m, ms = [m] /\ length m = 4%nat.
Proof.
  destruct ms as [|m [|m' ms]]; simpl; try discriminate.
  intros H. exists m. split; [reflexivity|]. now apply Nat.eqb_eq.
Qed.

(** The members the detection leaves alone. *)
Lemma detect_with_roi_frame (a : tracker cv) :
  let a' := snd (detect_with_roi K a) in
  pose a' = pose a /\ r a' = r a /\ t a' = t a /\ fps a' = fps a /\
  color a' = color a /\ grayscale a' = grayscale a.
Proof. unfold detect_with_roi. split_tests; simpl; auto 10. Qed.

Lemma detect_without_roi_frame (a : tracker cv) :
  let a' := snd (detect_without_roi K a) in
  pose a' = pose a /\ r a' = r a /\ t a' = t a /\ fps a' = fps a /\
  color a' = color a /\ grayscale a' = grayscale a /\
  last_roi a' = last_roi a.
Proof. unfold detect_without_roi. simpl. auto 10. Qed.

Lemma detect_either_frame (a : tracker cv) :
  let a' := snd (detect_either K a) in
  pose a' = pose a /\ r a' = r a /\ t a' = t a /\ fps a' = fps a /\
  color a' = color a /\ grayscale a' = grayscale a.
Proof.
  unfold detect_either.
  destruct (detect_with_roi_frame a) as (H1 & H2 & H3 & H4 & H5 & H6).
  destruct (fst (detect_with_roi K a)); [auto 10|].
  destruct (detect_without_roi_frame (snd (detect_with_roi K a)))
    as (G1 & G2 & G3 & G4 & G5 & G6 & _).
  cbv zeta. repeat split; congruence.
Qed.

(** The log of the attempt inside the region: nothing when the guard
    fails, the two detector calls when it holds. *)
Lemma detect_with_roi_log_guarded (a : tracker cv) :
  (1 <? rect_width (last_roi a))%Z && (1 <? rect_height (last_roi a))%Z = true ->
  log (snd (detect_with_roi K a)) =
    EvDetect (Some (last_roi a))
    :: EvSetMinMaxSize
         (fst (roi_size_bounds K (cols cv (grayscale a)) (rect_width (last_roi a))))
         (snd (roi_size_bounds K (cols cv (grayscale a)) (rect_width (last_roi a))))
    :: log a.
Proof.
  intros G. unfold detect_with_roi. rewrite G.
  split_tests; reflexivity.
Qed.

Lemma detect_with_roi_log_unguarded (a : tracker cv) :
  (1 <? rect_width (last_roi a))%Z && (1 <? rect_height (last_roi a))%Z = false ->
  detect_with_roi K a = (false, set_last_roi_field sentinel_roi a).
Proof. intros G. unfold detect_with_roi. now rewrite G. Qed.

(** C7: the two bounds [detect_with_roi] computes are, for every frame
    width and every region width for which the rescaled values are
    numbers, the configured bounds rescaled by frame width over region
    width and clamped into [0.01, 1]; they always lie in that interval;
    and whenever the detector runs inside the region (width and height
    above 1) these are the bounds it is given. *)
Theorem roi_bounds_rescaled_clamped (a : tracker cv) :
  (forall c w : Z,
      is_nan (Spec.rescaled (size_min K) c w) = false ->
      is_nan (Spec.rescaled (size_max K) c w) = false ->
      roi_size_bounds K c w =
        (Spec.clamp (Spec.rescaled (size_min K) c w) 0.01 1,
         Spec.clamp (Spec.rescaled (size_max K) c w) 0.01 1)) /\
  (forall c w : Z,
      let b := roi_size_bounds K c w in
      (0.01 <=? fst b)%float = true /\ (fst b <=? 1)%float = true /\
      (0.01 <=? snd b)%float = true /\ (snd b <=? 1)%float = true) /\
  ((1 < rect_width (last_roi a))%Z -> (1 < rect_height (last_roi a))%Z ->
   let b := roi_size_bounds K (cols cv (grayscale a)) (rect_width (last_roi a)) in
   log (snd (detect_with_roi K a)) =
     EvDetect (Some (last_roi a)) :: EvSetMinMaxSize (fst b) (snd b) :: log a /\
   (fst (detect_with_roi K a) = true ->
    markers (snd (detect_with_roi K a)) =
      [offset_corners (last_roi a)
         (nth 0 (detect cv (fst b) (snd b) (crop cv (grayscale a) (last_roi a))) [])])).
Proof.
  split; [|split].
  - intros c w Hlo Hhi. unfold roi_size_bounds.
    rewrite std_min_max_clamp by exact Hlo.
    rewrite std_max_min_clamp by exact Hhi. reflexivity.
  - intros c w. unfold roi_size_bounds. cbv zeta. simpl fst; simpl snd.
    destruct (std_min_max_range (size_min K * Cxx.double_of_int c / Cxx.double_of_int w)).
    destruct (std_max_min_range (size_max K * Cxx.double_of_int c / Cxx.double_of_int w)).
    auto.
  - intros Hw Hh b. subst b.
    assert (G : (1 <? rect_width (last_roi a))%Z && (1 <? rect_height (last_roi a))%Z = true).
    { apply andb_true_intro; split; now apply Z.ltb_lt. }
    split; [now apply detect_with_roi_log_guarded|].
    unfold detect_with_roi. rewrite G. cbv zeta.
    split_tests; simpl; [reflexivity|discriminate].
Qed.

(** C9: the attempt inside the region calls the detector only when the
    stored region is more than one pixel wide and high; when it returns
    false the stored region is the sentinel, and it is in that state that
    the full-frame detection runs; when it returns true the detector found
    one marker of four corners inside the crop and [markers] holds that
    marker with each corner moved by the region's origin. *)
Theorem detect_with_roi_contract (a : tracker cv) :
  (log (snd (detect_with_roi K a)) <> log a ->
     (1 < rect_width (last_roi a))%Z /\ (1 < rect_height (last_roi a))%Z) /\
  (fst (detect_with_roi K a) = false ->
     last_roi (snd (detect_with_roi K a)) = sentinel_roi /\
     detect_either K a = detect_without_roi K (snd (detect_with_roi K a))) /\
  (fst (detect_with_roi K a) = true ->
     (1 < rect_width (last_roi a))%Z /\ (1 < rect_height (last_roi a))%Z /\
     exists m : Marker,
       detect cv (fst (roi_size_bounds K (cols cv (grayscale a)) (rect_width (last_roi a))))
                 (snd (roi_size_bounds K (cols cv (grayscale a)) (rect_width (last_roi a))))
                 (crop cv (grayscale a) (last_roi a)) = [m] /\
       length m = 4%nat /\
       markers (snd (detect_with_roi K a)) = [map (offset_corner (last_roi a)) m] /\
       last_roi (snd (detect_with_roi K a)) = last_roi a).
Proof.
  split; [|split].
  - unfold detect_with_roi.
    destruct ((1 <? rect_width (last_roi a))%Z && (1 <? rect_height (last_roi a))%Z) eqn:G.
    + intros _. apply andb_prop in G. destruct G as [G1 G2].
      split; now apply Z.ltb_lt.
    + simpl. intros H. now elim H.
  - intros F. split.
    + revert F. unfold detect_with_roi. split_tests; simpl; congruence.
    + unfold detect_either. now rewrite F.
  - unfold detect_with_roi.
    destruct ((1 <? rect_width (last_roi a))%Z && (1 <? rect_height (last_roi a))%Z) eqn:G;
      [|simpl; discriminate].
    cbv zeta.
    destruct (one_marker_four_corners _) eqn:D; [|simpl; discriminate].
    intros _. apply andb_prop in G. destruct G as [G1 G2].
    split; [now apply Z.ltb_lt|]. split; [now apply Z.ltb_lt|].
    destruct (one_marker_four_corners_inv _ D) as (m & Hm & Hlen).
    exists m. simpl in Hm. simpl. rewrite Hm. simpl.
    rewrite (offset_corners_map _ _ Hlen). auto.
Qed.

End Detection.

(** ** The capture loop *)

Section CaptureLoop.

Context {cv : OpenCV} (K : Header).

Lemma log_emit (e : event) (a : tracker cv) : log (emit e a) = e :: log a.
Proof. reflexivity. Qed.

Lemma log_set_last_roi_field (v : Rect) (a : tracker cv) :
  log (set_last_roi_field v a) = log a.
Proof. reflexivity. Qed.

Lemma set_intrinsics_frame (s : settings) (a : tracker cv) :
  let a' := set_intrinsics s a in
  pose a' = pose a /\ r a' = r a /\ t a' = t a /\ last_roi a' = last_roi a /\
  color a' = color a /\ grayscale a' = grayscale a /\ log a' = log a /\
  fps a' = fps a.
Proof.
  unfold set_intrinsics. destruct (intrinsics a) as [[r0 r1] r2].
  simpl. auto 10.
Qed.

Lemma update_fps_frame (dt : float) (a : tracker cv) :
  let a' := update_fps K dt a in
  pose a' = pose a /\ r a' = r a /\ t a' = t a /\ last_roi a' = last_roi a /\
  color a' = color a /\ grayscale a' = grayscale a /\ log a' = log a.
Proof. unfold update_fps. split_tests; simpl; auto 10. Qed.

Lemma grab_frame (img : Mat cv) (inp : frame_input cv) (a : tracker cv) :
  let a' := grab K img inp a in
  pose a' = pose a /\ r a' = r a /\ t a' = t a /\ last_roi a' = last_roi a /\
  color a' = img /\ grayscale a' = cvtColor cv img /\
  log a' = EvCameraRead true :: log a.
Proof.
  unfold grab. cbv zeta.
  set (a1 := set_grayscale _ _).
  set (a2 := set_intrinsics _ a1).
  destruct (set_intrinsics_frame (cfg inp) a1) as (I1 & I2 & I3 & I4 & I5 & I6 & I7 & _).
  destruct (update_fps_frame (elapsed inp) a2) as (U1 & U2 & U3 & U4 & U5 & U6 & U7).
  fold a2 in I1, I2, I3, I4, I5, I6, I7.
  simpl. rewrite U1, U2, U3, U4, U5, U6, U7, I1, I2, I3, I4, I5, I6, I7.
  subst a1. simpl. auto 10.
Qed.

Lemma solve_frame (inp : frame_input cv) (a : tracker cv) :
  let a' := snd (solve inp a) in
  pose a' = pose a /\ r a' = r a /\ t a' = t a /\ last_roi a' = last_roi a /\
  color a' = color a /\
  log a' = EvSolvePnP (fst (solve inp a)) :: log a.
Proof. unfold solve, set_points. simpl. auto 10. Qed.

Lemma clamp_last_roi_frame (a : tracker cv) :
  let a' := clamp_last_roi a in
  pose a' = pose a /\ r a' = r a /\ t a' = t a /\ tvec a' = tvec a /\
  rvec a' = rvec a /\ color a' = color a /\ log a' = log a.
Proof. unfold clamp_last_roi. simpl. auto 10. Qed.

Lemma set_last_roi_frame (s : settings) (a : tracker cv) :
  let a' := set_last_roi K s a in
  pose a' = pose a /\ r a' = r a /\ t a' = t a /\ tvec a' = tvec a /\
  rvec a' = rvec a /\ color a' = color a /\ log a' = log a.
Proof.
  unfold set_last_roi, set_roi_from_projection. cbv zeta.
  match goal with |- context [clamp_last_roi ?x] =>
    destruct (clamp_last_roi_frame x) as (C1 & C2 & C3 & C4 & C5 & C6 & C7)
  end.
  rewrite C1, C2, C3, C4, C5, C6, C7. simpl. auto 10.
Qed.

Lemma set_rmat_frame (a : tracker cv) :
  let a' := set_rmat a in
  last_roi a' = last_roi a /\ color a' = color a /\ log a' = log a /\
  fps a' = fps a.
Proof. unfold set_rmat. simpl. auto. Qed.

(** C2: a turn of the loop in which no marker is found, or in which a
    marker is found and the solver fails, leaves the pose as it was and
    sets the region of interest to the sentinel (65535, 65535, 0, 0). *)
Theorem failed_turn_keeps_pose (inp : frame_input cv) (a : tracker cv)
    (img : Mat cv) :
  cam_read inp = Some img ->
  fst (detect_either K (grab K img inp a)) = false \/
  (fst (detect_either K (grab K img inp a)) = true /\
   fst (solve inp (snd (detect_either K (grab K img inp a)))) = false) ->
  pose (iteration K inp a) = pose a /\
  (forall out, data (iteration K inp a) out = data a out) /\
  last_roi (iteration K inp a) = sentinel_roi /\
  last_roi (iteration K inp a) = mkRect 65535 65535 0 0.
Proof.
  intros Hread Hfail.
  assert (Hpose : pose (iteration K inp a) = pose a /\
                  last_roi (iteration K inp a) = sentinel_roi).
  { unfold iteration. rewrite Hread. cbv zeta.
    destruct (grab_frame img inp a) as (G1 & _).
    destruct (detect_either_frame K (grab K img inp a)) as (D1 & _).
    destruct Hfail as [Hdet | [Hdet Hsol]]; rewrite Hdet.
    - split_tests; simpl; split; congruence.
    - rewrite Hsol. cbn [negb].
      destruct (solve_frame inp (snd (detect_either K (grab K img inp a))))
        as (S1 & _).
      split_tests; simpl; split; congruence. }
  destruct Hpose as [Hp Hr]. repeat split; auto.
  intros out. unfold data. now rewrite Hp.
Qed.

(** The events of a turn in which a marker was found, after those of the
    detection. *)
Lemma iteration_log_found (inp : frame_input cv) (a : tracker cv)
    (img : Mat cv) :
  cam_read inp = Some img ->
  fst (detect_either K (grab K img inp a)) = true ->
  exists after : list event,
    log (iteration K inp a) =
      after ++ EvDrawAr true
        :: EvSolvePnP (fst (solve inp (snd (detect_either K (grab K img inp a)))))
        :: log (snd (detect_either K (grab K img inp a))).
Proof.
  intros Hread Hok.
  unfold iteration. rewrite Hread. cbv zeta. rewrite Hok.
  set (a1 := snd (detect_either K (grab K img inp a))).
  destruct (solve_frame inp a1) as (_ & _ & _ & _ & _ & Hlog2).
  destruct (negb (fst (solve inp a1))) eqn:Hs.
  - match goal with |- context [if ?c then _ else _] => destruct c end;
      [exists [EvUpdateImage] | exists []];
      rewrite ?log_emit, log_set_last_roi_field, Hlog2; reflexivity.
  - destruct (set_last_roi_frame (cfg inp) (snd (solve inp a1)))
      as (_ & _ & _ & _ & _ & _ & Hlog3).
    destruct (set_rmat_frame (set_last_roi K (cfg inp) (snd (solve inp a1))))
      as (_ & _ & Hlog4 & _).
    match goal with |- context [if ?c then _ else _] => destruct c end;
      [exists [EvUpdateImage] | exists []];
      rewrite ?log_emit, Hlog4, Hlog3, Hlog2; reflexivity.
Qed.

(** C4: when the attempt inside the region returns no marker and the
    detector, run on the whole grayscale frame with the configured bounds
    unscaled, returns exactly one marker of exactly four corners, the
    detection of the turn succeeds and the turn reports the marker found:
    among the events it adds are the full-frame detection with those
    bounds and [draw_ar(true)]. *)
Theorem fallback_reports_marker (inp : frame_input cv) (a : tracker cv)
    (img : Mat cv) :
  cam_read inp = Some img ->
  fst (detect_with_roi K (grab K img inp a)) = false ->
  one_marker_four_corners
    (detect cv (size_min K) (size_max K) (cvtColor cv img)) = true ->
  fst (detect_either K (grab K img inp a)) = true /\
  markers (snd (detect_either K (grab K img inp a))) =
    detect cv (size_min K) (size_max K) (cvtColor cv img) /\
  exists before after : list event,
    log (iteration K inp a) =
      after ++ EvDrawAr true :: before
            ++ EvDetect None :: EvSetMinMaxSize (size_min K) (size_max K)
            :: log (snd (detect_with_roi K (grab K img inp a))).
Proof.
  intros Hread Hroi Hfull.
  destruct (grab_frame img inp a) as (_ & _ & _ & _ & _ & Hgray & _).
  destruct (detect_with_roi_frame K (grab K img inp a))
    as (_ & _ & _ & _ & _ & Hgray').
  assert (Hdet : detect_either K (grab K img inp a) =
                 detect_without_roi K (snd (detect_with_roi K (grab K img inp a)))).
  { unfold detect_either. now rewrite Hroi. }
  assert (Hok : fst (detect_either K (grab K img inp a)) = true).
  { rewrite Hdet. unfold detect_without_roi. simpl.
    rewrite Hgray', Hgray. exact Hfull. }
  split; [exact Hok|]. split.
  { rewrite Hdet. unfold detect_without_roi. simpl. now rewrite Hgray', Hgray. }
  destruct (iteration_log_found inp a img Hread Hok) as (after & Hlog).
  exists [EvSolvePnP (fst (solve inp (snd (detect_either K (grab K img inp a)))))],
         after.
  rewrite Hlog, Hdet. reflexivity.
Qed.

(** C8: when [open_camera] fails, [run] returns at once: the tracker is
    what the failed opening left, no turn of the loop has run (no event
    of reading, detecting, solving or drawing has been added) and the
    pose is the one from before, all zero for a tracker just started. *)
Theorem open_failure_runs_nothing (s : settings) (device_opened : bool)
    (inputs : list (frame_input cv)) (a : tracker cv) :
  fst (open_camera s device_opened a) = false ->
  run K s device_opened inputs a = snd (open_camera s device_opened a) /\
  pose (run K s device_opened inputs a) = pose a /\
  (pose a = repeat 0%float 6 ->
   forall out, length out = 6%nat ->
     data (run K s device_opened inputs a) out = repeat 0%float 6) /\
  exists evs : list event,
    log (run K s device_opened inputs a) = evs ++ log a /\
    forallb (fun e => negb (capture_event e)) evs = true.
Proof.
  intros Hfail.
  assert (Hrun : run K s device_opened inputs a = snd (open_camera s device_opened a)).
  { unfold run. now rewrite Hfail. }
  assert (Hpose : pose (snd (open_camera s device_opened a)) = pose a).
  { unfold open_camera. split_tests; reflexivity. }
  rewrite Hrun. repeat split; auto.
  - intros Hz out Hout. unfold data. rewrite Hpose, Hz.
    destruct out as [|o0 [|o1 [|o2 [|o3 [|o4 [|o5 [|o6 out]]]]]]];
      try discriminate. reflexivity.
  - unfold open_camera. cbv zeta.
    destruct ((fst (nth _ resolution_choices (0, 0)%Z) =? 0)%Z);
      destruct ((forced_fps (force_fps s) =? 0)%Z);
      destruct (negb device_opened); simpl;
      eexists; (split; [
        match goal with
        | |- ?l = ?evs ++ log a =>
            let rec build l :=
              lazymatch l with
              | log a => constr:(@nil event)
              | ?e :: ?tl => let r := build tl in constr:(e :: r)
              end in
            let pre := build l in unify evs pre; reflexivity
        end | reflexivity]).
Qed.

End CaptureLoop.

(** ** The pose and the calibration pair (set_rmat) *)

Section Pose.

Context {cv : OpenCV}.

Lemma data_copies_pose (a : tracker cv) (out : list float) :
  length (pose a) = 6%nat -> length out = 6%nat -> data a out = pose a.
Proof.
  intros Hp Ho. unfold data.
  destruct (pose a) as [|p0 [|p1 [|p2 [|p3 [|p4 [|p5 [|p6 p]]]]]]];
    try discriminate.
  destruct out as [|o0 [|o1 [|o2 [|o3 [|o4 [|o5 [|o6 out]]]]]]];
    try discriminate.
  reflexivity.
Qed.

Lemma set_rmat_pose (a : tracker cv) :
  length (pose a) = 6%nat ->
  pose (set_rmat a) =
    Spec.published (tvec a) (RQDecomp3x3 cv (Rodrigues cv (rvec a))).
Proof.
  intros Hp. unfold set_rmat, Spec.published. simpl.
  destruct (pose a) as [|p0 [|p1 [|p2 [|p3 [|p4 [|p5 [|p6 p]]]]]]];
    try discriminate.
  reflexivity.
Qed.

(** C1, as the code has it: after [set_rmat] the consumer reads the
    solver's translation scaled by 0.1 with no sign changed, then yaw,
    minus pitch and roll from the Euler decomposition; [getRT] returns
    the rotation matrix of the solver's rotation vector and the solver's
    translation with its Y component negated. *)
Theorem set_rmat_publishes (a : tracker cv) (out : list float) :
  length (pose a) = 6%nat -> length out = 6%nat ->
  data (set_rmat a) out =
    [ v_0 (tvec a) * 0.1; v_1 (tvec a) * 0.1; v_2 (tvec a) * 0.1;
      v_1 (RQDecomp3x3 cv (Rodrigues cv (rvec a)));
      - v_0 (RQDecomp3x3 cv (Rodrigues cv (rvec a)));
      v_2 (RQDecomp3x3 cv (Rodrigues cv (rvec a))) ]%float /\
  getRT (set_rmat a) =
    (Rodrigues cv (rvec a),
     mkVec3d (v_0 (tvec a)) (- v_1 (tvec a))%float (v_2 (tvec a))).
Proof.
  intros Hp Ho. split.
  - rewrite data_copies_pose; auto.
    + now rewrite set_rmat_pose.
    + rewrite set_rmat_pose by exact Hp. reflexivity.
  - reflexivity.
Qed.

End Pose.

Lemma float_neq_by_sign (x y : float) :
  (x <? 0)%float <> (y <? 0)%float -> x <> y.
Proof. intros H E. apply H. now rewrite E. Qed.

(** C1 as stated fails: with a solved translation of (10, 20, 30) the
    published Y is 2, not -2, and the translation kept for the
    calibration has Y = -20, not the solver's 20. *)
Lemma set_rmat_sign_counterexample :
  array_get (axis_index TY) (data (set_rmat Bench.solved) (repeat 0%float 6))
    <> (- (v_1 (tvec Bench.solved) * 0.1))%float /\
  snd (getRT (set_rmat Bench.solved)) <> tvec Bench.solved.
Proof.
  split.
  - apply float_neq_by_sign. vm_compute. discriminate.
  - intros E. apply (f_equal v_1) in E. revert E.
    apply float_neq_by_sign. vm_compute. discriminate.
Qed.

Lemma set_rmat_publishes_witness :
  data (set_rmat Bench.solved) (repeat 0%float 6) =
    [1; 2; 3; 2; -1; 3]%float /\
  getRT (set_rmat Bench.solved) = (Matx33d_eye, mkVec3d 10 (-20) 30).
Proof.
  destruct (set_rmat_publishes Bench.solved (repeat 0%float 6)) as [Hd Hrt];
    [reflexivity | reflexivity |].
  split.
  - rewrite Hd. vm_compute. reflexivity.
  - rewrite Hrt. reflexivity.
Defined.

(** ** The region of interest from the projection *)

Section Roi.

Context {cv : OpenCV}.

Lemma if_ltb_max (x k : Z) : (if (x <? k)%Z then k else x) = Z.max x k.
Proof. destruct (Z.ltb_spec x k); lia. Qed.

Lemma if_leb_min (x k : Z) : (if (k <=? x)%Z then k else x) = Z.min x k.
Proof. destruct (Z.leb_spec k x); lia. Qed.

Lemma roi_accumulated (a : tracker cv) (x0 y0 : Z) :
  fold_left
    (fun roi i => roi_accumulate roi (nth i (roi_projection a) corner_default))
    (seq 0 4) (mkRect x0 y0 0 0) =
  mkRect (Z.min (Spec.min4 (Spec.proj_x a)) x0)
         (Z.min (Spec.min4 (Spec.proj_y a)) y0)
         (Z.max (Spec.max4 (Spec.proj_x a)) 0)
         (Z.max (Spec.max4 (Spec.proj_y a)) 0).
Proof.
  unfold roi_accumulate, Spec.min4, Spec.max4, Spec.proj_x, Spec.proj_y.
  cbn [fold_left seq rect_x rect_y rect_width rect_height].
  repeat match goal with
  | |- context [F32.to_int ?p] =>
      let z := fresh "z" in generalize (F32.to_int p); intro z
  end.
  f_equal; lia.
Qed.

Lemma set_roi_from_projection_rect (a : tracker cv) :
  last_roi (set_roi_from_projection a) =
    let c := cols cv (color a) in
    let rws := rows cv (color a) in
    let lx := Z.min (Spec.min4 (Spec.proj_x a)) (c - 1) in
    let ly := Z.min (Spec.min4 (Spec.proj_y a)) (rws - 1) in
    let hx := Z.max (Spec.max4 (Spec.proj_x a)) 0 in
    let hy := Z.max (Spec.max4 (Spec.proj_y a)) 0 in
    let x := Z.min (Z.max lx 0) (c - 1) in
    let y := Z.min (Z.max ly 0) (rws - 1) in
    mkRect x y (Z.min (Z.max hx 1) (c - 1) - x) (Z.min (Z.max hy 1) (rws - 1) - y).
Proof.
  unfold set_roi_from_projection. cbv zeta. rewrite roi_accumulated.
  unfold clamp_last_roi.
  cbn [last_roi set_last_roi_field color rect_x rect_y rect_width rect_height].
  cbv zeta. rewrite !if_ltb_max, !if_leb_min. reflexivity.
Qed.

(** The [int] arithmetic of the two functions stays inside 32 bits: the
    truncated coordinates are [int]s, minima and maxima of [int]s are
    [int]s, and on a frame of at least one pixel the two subtractions at
    the end of [clamp_last_roi] are between coordinates of the frame. *)
Lemma to_int_range (f : F32.t) :
  (Cxx.INT_MIN <= F32.to_int f <= Cxx.INT_MAX)%Z.
Proof.
  assert (Hmin : (Cxx.INT_MIN <= Cxx.INT_MIN <= Cxx.INT_MAX)%Z)
    by (vm_compute; split; discriminate).
  assert (Hzero : (Cxx.INT_MIN <= 0 <= Cxx.INT_MAX)%Z)
    by (vm_compute; split; discriminate).
  unfold F32.to_int. destruct f as [s|s| |s m e]; auto.
  cbv zeta.
  match goal with |- context [if ?c then _ else _] => destruct c eqn:E end;
    [|exact Hmin].
  apply andb_prop in E. destruct E as [E1 E2].
  apply Z.leb_le in E1. apply Z.leb_le in E2. split; assumption.
Qed.

Lemma roi_arithmetic_in_range (a : tracker cv) :
  (1 <= cols cv (color a) <= Cxx.INT_MAX)%Z ->
  (1 <= rows cv (color a) <= Cxx.INT_MAX)%Z ->
  let roi := last_roi (set_roi_from_projection a) in
  (Cxx.INT_MIN <= rect_x roi <= Cxx.INT_MAX /\
   Cxx.INT_MIN <= rect_y roi <= Cxx.INT_MAX /\
   Cxx.INT_MIN <= rect_width roi <= Cxx.INT_MAX /\
   Cxx.INT_MIN <= rect_height roi <= Cxx.INT_MAX)%Z.
Proof.
  intros Hc Hr. cbv zeta. rewrite set_roi_from_projection_rect. cbv zeta.
  cbn [rect_x rect_y rect_width rect_height].
  generalize (Spec.min4 (Spec.proj_x a)) (Spec.max4 (Spec.proj_x a))
             (Spec.min4 (Spec.proj_y a)) (Spec.max4 (Spec.proj_y a)).
  intros lx hx ly hy.
  change Cxx.INT_MIN with (-2147483648)%Z in *.
  change Cxx.INT_MAX with 2147483647%Z in *.
  repeat split; lia.
Qed.

(** C3, as the code has it: on a frame of at least one column and one
    row, the region computed from the four projected points has its
    origin in [0, cols-1] x [0, rows-1], ends at or before column
    [cols-1] and row [rows-1], and has width and height at least 0,
    wherever the points project.  The width is at least 1 exactly when
    the frame has two columns or more, the leftmost point is left of
    the last column and it is either at or left of column 0 or not in
    the column of the rightmost point; likewise for the height. *)
Theorem roi_from_projection_bounds (a : tracker cv) :
  (1 <= cols cv (color a))%Z -> (1 <= rows cv (color a))%Z ->
  let roi := last_roi (set_roi_from_projection a) in
  let c := cols cv (color a) in
  let rws := rows cv (color a) in
  (0 <= rect_x roi <= c - 1 /\ 0 <= rect_y roi <= rws - 1 /\
   rect_x roi + rect_width roi <= c - 1 /\
   rect_y roi + rect_height roi <= rws - 1 /\
   0 <= rect_width roi /\ 0 <= rect_height roi /\
   (1 <= rect_width roi <->
      2 <= c /\ Spec.min4 (Spec.proj_x a) < c - 1 /\
      (Spec.min4 (Spec.proj_x a) <= 0 \/
       Spec.min4 (Spec.proj_x a) < Spec.max4 (Spec.proj_x a))) /\
   (1 <= rect_height roi <->
      2 <= rws /\ Spec.min4 (Spec.proj_y a) < rws - 1 /\
      (Spec.min4 (Spec.proj_y a) <= 0 \/
       Spec.min4 (Spec.proj_y a) < Spec.max4 (Spec.proj_y a))))%Z.
Proof.
  intros Hc Hr. cbv zeta. rewrite set_roi_from_projection_rect. cbv zeta.
  cbn [rect_x rect_y rect_width rect_height].
  assert (Hx : (Spec.min4 (Spec.proj_x a) <= Spec.max4 (Spec.proj_x a))%Z)
    by (unfold Spec.min4, Spec.max4; lia).
  assert (Hy : (Spec.min4 (Spec.proj_y a) <= Spec.max4 (Spec.proj_y a))%Z)
    by (unfold Spec.min4, Spec.max4; lia).
  revert Hx Hy.
  generalize (Spec.min4 (Spec.proj_x a)) (Spec.max4 (Spec.proj_x a))
             (Spec.min4 (Spec.proj_y a)) (Spec.max4 (Spec.proj_y a)).
  intros lx hx ly hy Hx Hy.
  repeat split; lia.
Qed.

End Roi.

(** C3 as stated fails: four points projected beyond the right and
    bottom edges of a 640 x 480 frame give the region (639, 479, 0, 0),
    whose width and height are 0. *)
Lemma roi_from_projection_counterexample :
  last_roi (set_roi_from_projection Bench.off_frame) = mkRect 639 479 0 0 /\
  ~ Spec.roi_inside 640 480 (last_roi (set_roi_from_projection Bench.off_frame)).
Proof.
  assert (E : last_roi (set_roi_from_projection Bench.off_frame)
              = mkRect 639 479 0 0) by (vm_compute; reflexivity).
  split; [exact E|]. rewrite E. unfold Spec.roi_inside. simpl. lia.
Qed.

Lemma roi_from_projection_bounds_witness :
  (0 <= rect_x (last_roi (set_roi_from_projection Bench.on_frame_roi)) <= 639 /\
   1 <= rect_width (last_roi (set_roi_from_projection Bench.on_frame_roi)))%Z.
Proof.
  generalize (roi_from_projection_bounds Bench.on_frame_roi).
  intros H. cbv zeta in H.
  assert (Hc : (1 <= cols Bench.solving (color Bench.on_frame_roi))%Z)
    by (vm_compute; discriminate).
  assert (Hr : (1 <= rows Bench.solving (color Bench.on_frame_roi))%Z)
    by (vm_compute; discriminate).
  destruct (H Hc Hr) as (Hx & _ & _ & _ & _ & _ & Hw & _).
  split.
  - exact Hx.
  - apply Hw. vm_compute. repeat split; try discriminate. right. reflexivity.
Defined.

(** ** The calibration dialog *)

Section Calibration.

Context {cv : OpenCV} {C : Calibrator}.

(** C5: a click while the timer is stopped zeroes the three head-centre
    settings, resets the accumulator and starts the timer, so the
    accumulator is the freshly reset one when the first tick can sample
    (a tick while the timer is stopped does nothing); a click while
    the timer runs stops it and writes the three components of the
    accumulator's estimate into the head-centre settings. *)
Theorem toggleCalibrate_transitions (d : dialog cv C) :
  (calib_timer_active d = false ->
     calib_timer_active (toggleCalibrate d) = true /\
     headpos_x (s (toggleCalibrate d)) = 0%float /\
     headpos_y (s (toggleCalibrate d)) = 0%float /\
     headpos_z (s (toggleCalibrate d)) = 0%float /\
     calibrator (toggleCalibrate d) = calib_reset C (calibrator d) /\
     update_tracker_calibration d = d) /\
  (calib_timer_active d = true ->
     calib_timer_active (toggleCalibrate d) = false /\
     calib_timer_active (cleanupCalib d) = false /\
     headpos_x (s (toggleCalibrate d)) = v_0 (calib_get_estimate C (calibrator d)) /\
     headpos_y (s (toggleCalibrate d)) = v_1 (calib_get_estimate C (calibrator d)) /\
     headpos_z (s (toggleCalibrate d)) = v_2 (calib_get_estimate C (calibrator d)) /\
     calibrator (toggleCalibrate d) = calibrator d).
Proof.
  split; intros H.
  - unfold toggleCalibrate, update_tracker_calibration. rewrite H. simpl.
    repeat split; reflexivity.
  - unfold toggleCalibrate, cleanupCalib. rewrite H. simpl.
    repeat split; reflexivity.
Qed.

(** The settings other than the head centre, and the tracker pointer,
    are not touched by a click. *)
Lemma toggleCalibrate_keeps (d : dialog cv C) :
  resolution (s (toggleCalibrate d)) = resolution (s d) /\
  force_fps (s (toggleCalibrate d)) = force_fps (s d) /\
  fov (s (toggleCalibrate d)) = fov (s d) /\
  tracker_ptr (toggleCalibrate d) = tracker_ptr d.
Proof.
  unfold toggleCalibrate, cleanupCalib.
  destruct (calib_timer_active d) eqn:H; simpl; try rewrite H; simpl; auto.
Qed.

(** While the timer is stopped no sequence of timeouts changes the
    dialog. *)
Lemma idle_ignores_timeouts (d : dialog cv C) (n : nat) :
  calib_timer_active d = false ->
  fold_left dialog_step (repeat Timeout n) d = d.
Proof.
  intros H. induction n as [|n IH]; simpl; [reflexivity|].
  unfold update_tracker_calibration at 1. rewrite H. exact IH.
Qed.

End Calibration.

Lemma toggleCalibrate_transitions_witness :
  (calib_timer_active (toggleCalibrate Bench.idle_dialog) = true /\
   headpos_x (s (toggleCalibrate Bench.idle_dialog)) = 0%float /\
   calibrator (toggleCalibrate Bench.idle_dialog) = (zero3, 0%nat)) /\
  (calib_timer_active (toggleCalibrate Bench.calibrating_dialog) = false /\
   headpos_x (s (toggleCalibrate Bench.calibrating_dialog)) = 5%float /\
   headpos_y (s (toggleCalibrate Bench.calibrating_dialog)) = 10%float /\
   headpos_z (s (toggleCalibrate Bench.calibrating_dialog)) = (-3)%float).
Proof.
  destruct (toggleCalibrate_transitions Bench.idle_dialog) as [Hstart _].
  destruct (toggleCalibrate_transitions Bench.calibrating_dialog) as [_ Hstop].
  destruct (Hstart eq_refl) as (H1 & H2 & _ & _ & H5 & _).
  destruct (Hstop eq_refl) as (G1 & _ & G3 & G4 & G5 & _).
  repeat split; assumption.
Defined.

(** ** The pose lock: schedules are runs *)

Module PoseLockFacts.

Import PoseLock.

(** The transition system's assignments are those of the code. *)
Lemma set_rmat_is_writes {cv : OpenCV} (a : tracker cv) :
  pose (set_rmat a) =
    apply_writes (writes_of (tvec a) (RQDecomp3x3 cv (Rodrigues cv (rvec a))))
                 (pose a).
Proof. reflexivity. Qed.

Lemma data_is_reads {cv : OpenCV} (a : tracker cv) (out : list float) :
  data a out =
    fold_left (fun out i => array_set i (array_get i (pose a)) out) reads_of out.
Proof. reflexivity. Qed.

Lemma array_set_length {A : Type} (i : nat) (v : A) (a : list A) :
  length (array_set i v a) = length a.
Proof.
  revert i; induction a as [|h tl IH]; intros [|j]; simpl; auto.
Qed.

Ltac state_fields :=
  cbn [wpc rpc mtx shared_pose written observed] in *.

Lemma exec_sound (s s' : state) (a : action) :
  exec s a = Some s' -> step s s'.
Proof.
  destruct s as [m p wp rp wr ob].
  destruct a as [tv eu| | |out| | ]; unfold exec; state_fields.
  - destruct m, wp; try discriminate. intros E; injection E as <-.
    constructor.
  - destruct wp as [|[|[i v] todo]]; try discriminate.
    intros E; injection E as <-. constructor.
  - destruct wp as [|[|w todo]]; try discriminate.
    intros E; injection E as <-. constructor.
  - destruct m, rp; try discriminate.
    destruct (Nat.eqb (length out) 6) eqn:L; try discriminate.
    intros E; injection E as <-. constructor. now apply Nat.eqb_eq.
  - destruct rp as [|[|i todo] out]; try discriminate.
    intros E; injection E as <-. constructor.
  - destruct rp as [|[|i todo] out]; try discriminate.
    intros E; injection E as <-. constructor.
Qed.

Lemma exec_all_reachable (p0 : list float) (sched : list action) :
  forall s s', reachable p0 s -> exec_all s sched = Some s' -> reachable p0 s'.
Proof.
  induction sched as [|a sched IH]; simpl; intros s s' Hr E.
  - injection E as <-. exact Hr.
  - destruct (exec s a) as [s1|] eqn:E1; [|discriminate].
    apply (IH s1 s'); [|exact E].
    apply (reach_step p0 s s1 Hr). now apply exec_sound with a.
Qed.

(** The mutex does its work: a consumer asking for the lock while the
    capture loop is between two assignments is not served. *)
Lemma reader_waits_for_writer :
  exec_all (initial (repeat 0%float 6))
           [WLock (mkVec3d 10 20 30) (mkVec3d 1 2 3); WAssign; WAssign;
            RLock (repeat 0%float 6)] = None.
Proof. reflexivity. Qed.

End PoseLockFacts.

(** ** No torn pose *)

Module ThreadsFacts.

Import Threads.

Ltac fields := cbn [mtx object capture consumer calls returned] in *.

Ltac split_invariant := split; [|split; [|split; [|split; [|split]]]].

Section Runs.

Context {cv : OpenCV}.

(** The transition system's assignments are those of the code: made one
    after the other on the tracker [set_rmat] is called on they give
    what [set_rmat] returns, and made from one tracker into the caller's
    array they give what [data] returns. *)
Lemma set_rmat_is_assignments (b : tracker cv) :
  set_rmat b = assigned (set_rmat_assignments b) b.
Proof. reflexivity. Qed.

Lemma data_is_assignments (a : tracker cv) (buf : list float) :
  data a buf = copied data_assignments a buf.
Proof. reflexivity. Qed.

Lemma assigned_app (fs gs : list (tracker cv -> tracker cv)) (a : tracker cv) :
  assigned (fs ++ gs) a = assigned gs (assigned fs a).
Proof. unfold assigned. apply fold_left_app. Qed.

Lemma copied_app (fs gs : list (tracker cv -> list float -> list float))
    (a : tracker cv) (out : list float) :
  copied (fs ++ gs) a out = copied gs a (copied fs a out).
Proof. unfold copied. apply fold_left_app. Qed.

(** An assignment of [data] reads the pose and nothing else. *)
Lemma copy_same_pose (f : tracker cv -> list float -> list float)
    (a a' : tracker cv) (out : list float) :
  In f data_assignments -> pose a = pose a' -> f a out = f a' out.
Proof.
  intros Hf Hp. unfold data_assignments in Hf. simpl in Hf.
  destruct Hf as [<-|[<-|[<-|[<-|[<-|[<-|[]]]]]]];
    unfold copy_pose; rewrite Hp; reflexivity.
Qed.

(** An assignment of [set_rmat] keeps the pose six elements long. *)
Lemma assignment_length (f : tracker cv -> tracker cv) (b a : tracker cv) :
  In f (set_rmat_assignments b) -> length (pose (f a)) = length (pose a).
Proof.
  intros Hf. unfold set_rmat_assignments in Hf. simpl in Hf.
  destruct Hf as [<-|[<-|[<-|[<-|[<-|[<-|[<-|[<-|[]]]]]]]]];
    try reflexivity;
    unfold assign_pose; cbn [pose set_pose];
    apply PoseLockFacts.array_set_length.
Qed.

Lemma guarded_pose (a a' : tracker cv) :
  guarded a = guarded a' -> pose a = pose a'.
Proof. unfold guarded. intros E. now injection E. Qed.

Lemma invariant_initial (a0 : tracker cv) : invariant a0 (initial a0).
Proof.
  unfold invariant, initial, excluded, capture_ok, consumer_ok, returned_ok,
    latest.
  fields. split_invariant; auto.
  - intros b [].
  - intros buf out [].
Qed.

Lemma invariant_next (a0 : tracker cv) (s1 s2 : state cv) :
  invariant a0 s1 -> step s1 s2 -> invariant a0 s2.
Proof.
  intros (Hex & Hlen & Hcl & Hw & Hr & Hret) Hstep.
  unfold invariant, excluded, capture_ok, consumer_ok, returned_ok, latest in *.
  destruct Hstep; fields.
  - (* the capture loop works outside the critical section *)
    split_invariant; auto.
    + rewrite (guarded_pose a' a) by assumption. exact Hlen.
    + rewrite H. exact Hw.
  - (* the capture loop takes the mutex *)
    assert (rp = Away) as ->.
    { destruct rp; [reflexivity|discriminate]. }
    split_invariant; auto.
    + intros b [<-|Hb]; auto.
    + exists a, cl, []. auto.
    + intros buf out Hin. destruct (Hret buf out Hin) as [E|(b & Hb & E)].
      * now left.
      * right. exists b. split; [now right|exact E].
  - (* the capture loop makes one assignment *)
    destruct Hw as (b & rest & done & Hcalls & Hsplit & Hobj).
    assert (rp = Away) as ->.
    { destruct rp; [reflexivity|contradiction]. }
    split_invariant; auto.
    + rewrite (assignment_length f b a); [exact Hlen|].
      rewrite Hsplit. apply in_or_app. right. now left.
    + exists b, rest, (done ++ [f]). split; [exact Hcalls|]. split.
      * now rewrite <- app_assoc.
      * rewrite assigned_app, <- Hobj. reflexivity.
  - (* the capture loop releases the mutex *)
    destruct Hw as (b & rest & done & Hcalls & Hsplit & Hobj).
    assert (rp = Away) as ->.
    { destruct rp; [reflexivity|contradiction]. }
    split_invariant; auto.
    rewrite Hcalls. rewrite app_nil_r in Hsplit. subst done.
    rewrite Hobj, <- set_rmat_is_assignments. reflexivity.
  - (* the consumer takes the mutex *)
    assert (wp = Working) as ->.
    { destruct wp; [reflexivity|discriminate]. }
    split_invariant; auto.
    exists []. auto.
  - (* the consumer copies one element *)
    destruct Hr as (done & Hsplit & Hout).
    assert (wp = Working) as ->.
    { destruct wp; [reflexivity|contradiction]. }
    split_invariant; auto.
    exists (done ++ [f]). split; [now rewrite <- app_assoc|].
    rewrite copied_app, <- Hout.
    apply copy_same_pose; [|now apply guarded_pose].
    rewrite Hsplit. apply in_or_app. right. now left.
  - (* the consumer releases the mutex *)
    destruct Hr as (done & Hsplit & Hout).
    assert (wp = Working) as ->.
    { destruct wp; [reflexivity|contradiction]. }
    rewrite app_nil_r in Hsplit. subst done.
    rewrite <- data_is_assignments in Hout.
    split_invariant; auto.
    intros buf' out' [E|Hin]; [|auto].
    injection E as <- <-.
    destruct cl as [|b rest]; [now left|].
    right. exists b. split; [now left|exact Hout].
Qed.

Lemma invariant_reachable (a0 : tracker cv) (s : state cv) :
  reachable a0 s -> invariant a0 s.
Proof.
  intros Hreach. induction Hreach as [|s1 s2 _ IH Hstep].
  - apply invariant_initial.
  - exact (invariant_next a0 s1 s2 IH Hstep).
Qed.

Lemma serve_sound (s s' : state cv) (q : request cv) :
  serve s q = Some s' -> step s s'.
Proof.
  destruct s as [m a wp rp cl ob].
  destruct q as [a'| | | |buf| | ]; unfold serve; fields.
  - destruct wp; try discriminate. intros E; injection E as <-.
    constructor. reflexivity.
  - destruct m, wp; try discriminate. intros E; injection E as <-.
    constructor.
  - destruct wp as [|[|f todo]]; try discriminate.
    intros E; injection E as <-. constructor.
  - destruct wp as [|[|f todo]]; try discriminate.
    intros E; injection E as <-. constructor.
  - destruct m, rp; try discriminate.
    intros E; injection E as <-. constructor.
  - destruct rp as [|[|f todo] buf out]; try discriminate.
    intros E; injection E as <-. constructor.
  - destruct rp as [|[|f todo] buf out]; try discriminate.
    intros E; injection E as <-. constructor.
Qed.

Lemma serve_all_reachable (a0 : tracker cv) (sched : list (request cv)) :
  forall s s', reachable a0 s -> serve_all s sched = Some s' -> reachable a0 s'.
Proof.
  induction sched as [|q sched IH]; simpl; intros s s' Hr E.
  - injection E as <-. exact Hr.
  - destruct (serve s q) as [s1|] eqn:E1; [|discriminate].
    apply (IH s1 s'); [|exact E].
    apply (reach_next cv a0 s s1 Hr). now apply serve_sound with q.
Qed.

(** C10: in every interleaving of the capture loop's calls of [set_rmat]
    with the consumer's calls of [data], what a call of [data] has
    returned is what [data] returns on the tracker as constructed or on
    the tracker one of the calls of [set_rmat] made so far has left: the
    caller's array after the call is [data] of that one tracker applied
    to the array before the call.  For a pose and an array of six
    elements that is the constructor's pose, or the six values one call
    published: the translation that call's solver returned scaled by
    0.1, then yaw, minus pitch and roll of that call's rotation. *)
Theorem data_returns_one_set_rmat (a0 : tracker cv) (s : state cv) :
  reachable a0 s ->
  forall buf out, In (buf, out) (returned s) ->
    (out = data a0 buf \/
     exists b, In b (calls s) /\ out = data (set_rmat b) buf) /\
    (length (pose a0) = 6%nat -> length buf = 6%nat ->
     out = pose a0 \/
     exists b, In b (calls s) /\
       out = Spec.published (tvec b) (RQDecomp3x3 cv (Rodrigues cv (rvec b)))).
Proof.
  intros Hreach buf out Hin.
  destruct (invariant_reachable a0 s Hreach) as (_ & _ & Hcl & _ & _ & Hret).
  split; [exact (Hret buf out Hin)|].
  intros H0 Hbuf.
  destruct (Hret buf out Hin) as [E|(b & Hb & E)].
  - left. rewrite E. now apply data_copies_pose.
  - right. exists b. split; [exact Hb|].
    assert (Hlen : length (pose b) = 6%nat) by (rewrite (Hcl b Hb); exact H0).
    rewrite E, data_copies_pose.
    + now apply set_rmat_pose.
    + rewrite set_rmat_pose by exact Hlen. reflexivity.
    + exact Hbuf.
Qed.

(** X15: in every reachable state at most one of the two threads is
    inside its critical section, and whenever the capture loop is
    outside its own the pose and the pair [getRT] returns are exactly
    those the most recent call of [set_rmat] left, or the constructor's
    while there has been no call. *)
Theorem set_rmat_whole_when_unlocked (a0 : tracker cv) (s : state cv) :
  reachable a0 s ->
  (forall wt rt buf out,
     ~ (capture s = Publishing wt /\ consumer s = Reading rt buf out)) /\
  (capture s = Working ->
     pose (object s) = pose (latest a0 s) /\
     getRT (object s) = getRT (latest a0 s)).
Proof.
  intros Hreach.
  destruct (invariant_reachable a0 s Hreach) as (Hex & _ & _ & Hw & _ & _).
  split.
  - intros wt rt buf out [Hc Hd]. unfold excluded in Hex.
    rewrite Hc, Hd in Hex. exact Hex.
  - intros Hc. unfold capture_ok in Hw. rewrite Hc in Hw.
    unfold guarded in Hw. injection Hw as Hp Hr Ht.
    unfold getRT. rewrite Hp, Hr, Ht. split; reflexivity.
Qed.

End Runs.

(** The mutex does its work: a consumer asking for the lock while the
    capture loop is between two assignments is not served. *)
Lemma data_waits_for_set_rmat :
  serve_all (initial Bench.fresh)
            [Work Bench.solved; Lock; Assign; Assign; DataLock nines] = None.
Proof. reflexivity. Qed.

Lemma after_two_published :
  map (fun b => data (set_rmat b) nines) (calls after_two) =
    [[4; 5; 6; 2; -1; 3]; [1; 2; 3; 2; -1; 3]]%float.
Proof. vm_compute. reflexivity. Qed.

(** On the bench schedule an array mixed from the two calls is neither
    [data] of the tracker as constructed nor [data] of the tracker one
    of the calls left. *)
Lemma torn_array_excluded :
  ~ (torn = data Bench.fresh nines \/
     exists b, In b (calls after_two) /\ torn = data (set_rmat b) nines).
Proof.
  assert (K : forall l, torn = l ->
            match l with
            | x :: y :: _ => ((x =? 1) && (y =? 5))%float
            | _ => false
            end = true) by (intros l <-; reflexivity).
  intros [E|(b & Hb & E)].
  - apply K in E. vm_compute in E. discriminate.
  - apply (in_map (fun b => data (set_rmat b) nines)) in Hb.
    rewrite after_two_published, <- E in Hb.
    destruct Hb as [Hb|[Hb|[]]]; symmetry in Hb; apply K in Hb;
      vm_compute in Hb; discriminate.
Qed.

Lemma after_two_reachable : reachable Bench.fresh after_two.
Proof.
  apply (serve_all_reachable Bench.fresh two_writes_two_reads
           (initial Bench.fresh)); [apply reach_initial|].
  vm_compute. reflexivity.
Qed.

Lemma data_returns_one_set_rmat_witness :
  reachable Bench.fresh after_two /\
  In (nines, [1; 2; 3; 2; -1; 3]%float) (returned after_two) /\
  In (nines, [4; 5; 6; 2; -1; 3]%float) (returned after_two) /\
  (([1; 2; 3; 2; -1; 3]%float = data Bench.fresh nines \/
    exists b, In b (calls after_two) /\
      [1; 2; 3; 2; -1; 3]%float = data (set_rmat b) nines) /\
   ([1; 2; 3; 2; -1; 3]%float = pose Bench.fresh \/
    exists b, In b (calls after_two) /\
      [1; 2; 3; 2; -1; 3]%float =
        Spec.published (tvec b)
          (RQDecomp3x3 Bench.solving (Rodrigues Bench.solving (rvec b))))).
Proof.
  assert (H1 : In (nines, [1; 2; 3; 2; -1; 3]%float) (returned after_two)).
  { vm_compute. right. left. reflexivity. }
  assert (H2 : In (nines, [4; 5; 6; 2; -1; 3]%float) (returned after_two)).
  { vm_compute. left. reflexivity. }
  split; [exact after_two_reachable|]. split; [exact H1|]. split; [exact H2|].
  destruct (data_returns_one_set_rmat Bench.fresh after_two
              after_two_reachable nines [1; 2; 3; 2; -1; 3]%float H1)
    as [Hd Hp].
  split; [exact Hd|]. apply Hp; reflexivity.
Defined.

Lemma set_rmat_whole_when_unlocked_witness :
  reachable Bench.fresh after_two /\
  capture after_two = Working /\
  pose (object after_two) = [4; 5; 6; 2; -1; 3]%float /\
  pose (object after_two) = pose (latest Bench.fresh after_two) /\
  getRT (object after_two) = getRT (latest Bench.fresh after_two).
Proof.
  assert (Hc : capture after_two = Working) by (vm_compute; reflexivity).
  split; [exact after_two_reachable|]. split; [exact Hc|].
  split; [vm_compute; reflexivity|].
  exact (proj2 (set_rmat_whole_when_unlocked Bench.fresh after_two
                  after_two_reachable) Hc).
Defined.

End ThreadsFacts.

(** ** The theorems at work on the bench *)

(** A turn on an empty frame after a turn that published a pose, and a
    turn whose solver fails. *)
Lemma failed_turn_keeps_pose_witness :
  (fst (detect_either Bench.header
          (grab (cv := Bench.solving) Bench.header (Bench.vga [] [])
                Bench.empty_frame Bench.after_marker)) = false /\
   pose (iteration Bench.header Bench.empty_frame Bench.after_marker)
     = [1; 2; 3; 2; -1; 3]%float /\
   last_roi (iteration Bench.header Bench.empty_frame Bench.after_marker)
     = mkRect 65535 65535 0 0) /\
  (fst (solve Bench.marker_frame_failing
          (snd (detect_either Bench.header
                  (grab (cv := Bench.failing) Bench.header
                        (Bench.vga [Bench.square 150 150 50] [])
                        Bench.marker_frame_failing Bench.earlier_pose))))
     = false /\
   pose (iteration Bench.header Bench.marker_frame_failing Bench.earlier_pose)
     = [1; 2; 3; 4; 5; 6]%float /\
   last_roi (iteration Bench.header Bench.marker_frame_failing Bench.earlier_pose)
     = mkRect 65535 65535 0 0).
Proof.
  assert (H1 : fst (detect_either Bench.header
                      (grab (cv := Bench.solving) Bench.header (Bench.vga [] [])
                            Bench.empty_frame Bench.after_marker)) = false)
    by (vm_compute; reflexivity).
  assert (H2 : fst (detect_either Bench.header
                      (grab (cv := Bench.failing) Bench.header
                            (Bench.vga [Bench.square 150 150 50] [])
                            Bench.marker_frame_failing Bench.earlier_pose)) = true
               /\
               fst (solve Bench.marker_frame_failing
                      (snd (detect_either Bench.header
                              (grab (cv := Bench.failing) Bench.header
                                    (Bench.vga [Bench.square 150 150 50] [])
                                    Bench.marker_frame_failing Bench.earlier_pose))))
               = false)
    by (split; vm_compute; reflexivity).
  destruct (failed_turn_keeps_pose Bench.header Bench.empty_frame
              Bench.after_marker (Bench.vga [] []) eq_refl (or_introl H1))
    as (P1 & _ & _ & R1).
  destruct (failed_turn_keeps_pose Bench.header Bench.marker_frame_failing
              Bench.earlier_pose (Bench.vga [Bench.square 150 150 50] [])
              eq_refl (or_intror H2))
    as (P2 & _ & _ & R2).
  split.
  - split; [exact H1|]. split; [|exact R1].
    rewrite P1. vm_compute. reflexivity.
  - split; [exact (proj2 H2)|]. split; [|exact R2].
    rewrite P2. reflexivity.
Defined.

(** The region predicted by the first turn holds no marker in the second
    frame's crop; the whole frame does. *)
Lemma fallback_reports_marker_witness :
  fst (detect_with_roi Bench.header
         (grab (cv := Bench.solving) Bench.header
               (Bench.vga [Bench.square 150 150 50] [])
               Bench.marker_frame Bench.after_marker)) = false /\
  fst (detect_either Bench.header
         (grab (cv := Bench.solving) Bench.header
               (Bench.vga [Bench.square 150 150 50] [])
               Bench.marker_frame Bench.after_marker)) = true.
Proof.
  assert (H1 : fst (detect_with_roi Bench.header
                      (grab (cv := Bench.solving) Bench.header
                            (Bench.vga [Bench.square 150 150 50] [])
                            Bench.marker_frame Bench.after_marker)) = false)
    by (vm_compute; reflexivity).
  split; [exact H1|].
  exact (proj1 (fallback_reports_marker Bench.header Bench.marker_frame
                  Bench.after_marker (Bench.vga [Bench.square 150 150 50] [])
                  eq_refl H1 eq_refl)).
Defined.

Lemma open_failure_runs_nothing_witness :
  fst (open_camera Bench.conf false Bench.fresh) = false /\
  pose (run Bench.header Bench.conf false
            [Bench.marker_frame; Bench.marker_frame] Bench.fresh)
    = repeat 0%float 6 /\
  data (run Bench.header Bench.conf false
            [Bench.marker_frame; Bench.marker_frame] Bench.fresh)
       [9; 9; 9; 9; 9; 9]%float
    = repeat 0%float 6.
Proof.
  destruct (open_failure_runs_nothing Bench.header Bench.conf false
              [Bench.marker_frame; Bench.marker_frame] Bench.fresh eq_refl)
    as (_ & Hp & Hd & _).
  split; [reflexivity|]. split.
  - rewrite Hp. reflexivity.
  - apply Hd; reflexivity.
Defined.

(** A region 200 wide in a frame 640 wide: the bounds 0.05 and 0.3 become
    0.16 and 0.96. *)
Lemma roi_bounds_rescaled_clamped_witness :
  (1 < rect_width (last_roi Bench.tracking))%Z /\
  (1 < rect_height (last_roi Bench.tracking))%Z /\
  roi_size_bounds Bench.header 640 200 =
    (Spec.clamp (Spec.rescaled 0.05 640 200) 0.01 1,
     Spec.clamp (Spec.rescaled 0.3 640 200) 0.01 1) /\
  log (snd (detect_with_roi Bench.header Bench.tracking)) =
    [EvDetect (Some (mkRect 100 100 200 150));
     EvSetMinMaxSize (Spec.clamp (Spec.rescaled 0.05 640 200) 0.01 1)
                     (Spec.clamp (Spec.rescaled 0.3 640 200) 0.01 1)].
Proof.
  destruct (roi_bounds_rescaled_clamped Bench.header Bench.tracking)
    as (Hclamp & _ & Hrun).
  assert (Hw : (1 < rect_width (last_roi Bench.tracking))%Z) by reflexivity.
  assert (Hh : (1 < rect_height (last_roi Bench.tracking))%Z) by reflexivity.
  destruct (Hrun Hw Hh) as [Hlog _].
  split; [exact Hw|]. split; [exact Hh|]. split.
  - apply Hclamp; reflexivity.
  - rewrite Hlog. vm_compute. reflexivity.
Defined.

(** The attempt inside the region, once finding the marker of the crop
    and once finding nothing. *)
Lemma detect_with_roi_contract_witness :
  (fst (detect_with_roi Bench.header Bench.tracking) = true /\
   markers (snd (detect_with_roi Bench.header Bench.tracking))
     = [Bench.square 140 140 50]) /\
  (fst (detect_with_roi Bench.header Bench.lost) = false /\
   last_roi (snd (detect_with_roi Bench.header Bench.lost))
     = mkRect 65535 65535 0 0).
Proof.
  destruct (detect_with_roi_contract Bench.header Bench.tracking)
    as (_ & _ & Hfound).
  destruct (detect_with_roi_contract Bench.header Bench.lost)
    as (_ & Hlost & _).
  assert (H1 : fst (detect_with_roi Bench.header Bench.tracking) = true)
    by (vm_compute; reflexivity).
  assert (H2 : fst (detect_with_roi Bench.header Bench.lost) = false)
    by (vm_compute; reflexivity).
  destruct (Hfound H1) as (_ & _ & m & Hm & _ & Hmk & _).
  destruct (Hlost H2) as (Hs & _).
  split; split; try assumption.
  vm_compute in Hm. injection Hm as <-. rewrite Hmk. vm_compute. reflexivity.
Defined.

(** * Further properties of the capture loop *)

Section LoopShape.

Context {cv : OpenCV} (K : Header).

(** What each step of a turn does to the members the earlier lemmas do
    not mention. *)
Lemma detect_with_roi_more (a : tracker cv) :
  let a' := snd (detect_with_roi K a) in
  intrinsics a' = intrinsics a /\ rvec a' = rvec a /\ tvec a' = tvec a /\
  obj_points a' = obj_points a /\
  (last_roi a' = last_roi a \/ last_roi a' = sentinel_roi).
Proof. unfold detect_with_roi. split_tests; simpl; auto 10. Qed.

Lemma detect_without_roi_more (a : tracker cv) :
  let a' := snd (detect_without_roi K a) in
  intrinsics a' = intrinsics a /\ rvec a' = rvec a /\ tvec a' = tvec a /\
  obj_points a' = obj_points a /\
  log a' = EvDetect None :: EvSetMinMaxSize (size_min K) (size_max K) :: log a.
Proof. unfold detect_without_roi. simpl. auto 10. Qed.

Lemma detect_either_more (a : tracker cv) :
  let a' := snd (detect_either K a) in
  intrinsics a' = intrinsics a /\
  (last_roi a' = last_roi a \/ last_roi a' = sentinel_roi).
Proof.
  unfold detect_either. cbv zeta.
  destruct (detect_with_roi_more a) as (I1 & _ & _ & _ & L1).
  destruct (fst (detect_with_roi K a)); [auto|].
  destruct (detect_without_roi_more (snd (detect_with_roi K a))) as (I2 & _).
  destruct (detect_without_roi_frame K (snd (detect_with_roi K a)))
    as (_ & _ & _ & _ & _ & _ & L2).
  split; [congruence|]. rewrite L2. exact L1.
Qed.

Lemma solve_more (inp : frame_input cv) (a : tracker cv) :
  let a' := snd (solve inp a) in
  intrinsics a' = intrinsics a /\ fps a' = fps a.
Proof. unfold solve, set_points. simpl. auto. Qed.

Lemma set_last_roi_more (s : settings) (a : tracker cv) :
  let a' := set_last_roi K s a in
  intrinsics a' = intrinsics a /\ fps a' = fps a /\
  last_roi a' =
    last_roi (set_roi_from_projection
                (set_roi_projection (roi_projection a') a)).
Proof.
  unfold set_last_roi, set_roi_from_projection, clamp_last_roi.
  simpl. auto.
Qed.

Lemma set_rmat_more (a : tracker cv) :
  intrinsics (set_rmat a) = intrinsics a.
Proof. reflexivity. Qed.

Lemma color_emit (e : event) (a : tracker cv) : color (emit e a) = color a.
Proof. reflexivity. Qed.

Lemma fields_set_last_roi_field (v : Rect) (a : tracker cv) :
  let a' := set_last_roi_field v a in
  color a' = color a /\ pose a' = pose a /\ r a' = r a /\ t a' = t a /\
  intrinsics a' = intrinsics a /\ last_roi a' = v.
Proof. simpl. auto 10. Qed.

Lemma fields_emit (e : event) (a : tracker cv) :
  let a' := emit e a in
  pose a' = pose a /\ r a' = r a /\ t a' = t a /\
  intrinsics a' = intrinsics a /\ last_roi a' = last_roi a.
Proof. simpl. auto 10. Qed.

Lemma grab_more (img : Mat cv) (inp : frame_input cv) (a : tracker cv) :
  intrinsics (grab K img inp a) =
    intrinsics (set_intrinsics (cfg inp)
                  (set_grayscale (cvtColor cv img)
                     (set_color img (emit (EvCameraRead true) a)))).
Proof.
  unfold grab. cbv zeta.
  match goal with |- intrinsics (set_markers _ (update_fps K ?dt ?b)) = _ =>
    change (intrinsics (set_markers [] (update_fps K dt b)))
      with (intrinsics (update_fps K dt b));
    unfold update_fps; destruct (0.001 <? dt)%float; reflexivity
  end.
Qed.

(** The state a turn with a successful read ends in, member by member,
    in terms of the detection and of the solve. *)
Lemma iteration_shape (inp : frame_input cv) (a : tracker cv) (img : Mat cv) :
  cam_read inp = Some img ->
  let d := detect_either K (grab K img inp a) in
  let sol := solve inp (snd d) in
  let won := set_rmat (set_last_roi K (cfg inp) (snd sol)) in
  log (iteration K inp a) =
    (if (0 <? rows cv img)%Z then [EvUpdateImage] else [])
    ++ EvDrawAr (fst d)
    :: (if fst d then [EvSolvePnP (fst sol)] else [])
    ++ log (snd d) /\
  last_roi (iteration K inp a) =
    (if fst d && fst sol then last_roi (set_last_roi K (cfg inp) (snd sol))
     else sentinel_roi) /\
  pose (iteration K inp a) = (if fst d && fst sol then pose won else pose a) /\
  r (iteration K inp a) = (if fst d && fst sol then r won else r a) /\
  t (iteration K inp a) = (if fst d && fst sol then t won else t a) /\
  intrinsics (iteration K inp a) = intrinsics (grab K img inp a).
Proof.
  intros Hread d sol won. unfold iteration. rewrite Hread. cbv zeta.
  fold d. fold sol.
  destruct (grab_frame K img inp a) as (G1 & G2 & G3 & _ & G5 & _).
  destruct (detect_either_frame K (grab K img inp a))
    as (D1 & D2 & D3 & _ & D5 & _).
  destruct (detect_either_more (grab K img inp a)) as (D7 & _).
  fold d in D1, D2, D3, D5, D7.
  destruct (solve_frame inp (snd d)) as (S1 & S2 & S3 & _ & S5 & S6).
  destruct (solve_more inp (snd d)) as (S7 & _).
  fold sol in S1, S2, S3, S5, S6, S7.
  destruct (set_last_roi_frame K (cfg inp) (snd sol))
    as (_ & _ & _ & _ & _ & R6 & R7).
  destruct (set_last_roi_more (cfg inp) (snd sol)) as (R8 & _).
  destruct (set_rmat_frame (set_last_roi K (cfg inp) (snd sol)))
    as (M1 & M2 & M3 & _).
  fold won in M1, M2, M3.
  pose proof (set_rmat_more (set_last_roi K (cfg inp) (snd sol))) as M4.
  fold won in M4.
  assert (Hfin : forall (ok : bool) (b : tracker cv),
             color b = img ->
             let e := emit (EvDrawAr ok) b in
             let z := if (0 <? rows cv (color e))%Z then emit EvUpdateImage e else e in
             log z = (if (0 <? rows cv img)%Z then [EvUpdateImage] else [])
                     ++ EvDrawAr ok :: log b /\
             last_roi z = last_roi b /\ pose z = pose b /\ r z = r b /\
             t z = t b /\ intrinsics z = intrinsics b).
  { intros ok b Hb e z. subst z e. rewrite color_emit, Hb.
    destruct (0 <? rows cv img)%Z.
    - destruct (fields_emit EvUpdateImage (emit (EvDrawAr ok) b))
        as (F1 & F2 & F3 & F4 & F5).
      destruct (fields_emit (EvDrawAr ok) b) as (E1 & E2 & E3 & E4 & E5).
      rewrite !log_emit, F1, F2, F3, F4, F5, E1, E2, E3, E4, E5.
      cbn [app]. repeat split; reflexivity.
    - destruct (fields_emit (EvDrawAr ok) b) as (E1 & E2 & E3 & E4 & E5).
      rewrite log_emit, E1, E2, E3, E4, E5. cbn [app].
      repeat split; reflexivity. }
  destruct (fst d) eqn:Hd; [destruct (fst sol) eqn:Hs|]; cbn [negb andb].
  - (* found and solved *)
    fold won.
    destruct (Hfin true won) as (F1 & F2 & F3 & F4 & F5 & F6); [congruence|].
    cbv zeta in F1, F2, F3, F4, F5, F6.
    rewrite F1, F2, F3, F4, F5, F6, M1, M3, R7, S6, M4, R8, S7, D7.
    cbn [app]. repeat split; reflexivity.
  - (* found, not solved *)
    destruct (fields_set_last_roi_field sentinel_roi (snd sol))
      as (B1 & B2 & B3 & B4 & B5 & B6).
    destruct (Hfin true (set_last_roi_field sentinel_roi (snd sol)))
      as (F1 & F2 & F3 & F4 & F5 & F6); [congruence|].
    cbv zeta in F1, F2, F3, F4, F5, F6.
    rewrite F1, F2, F3, F4, F5, F6, log_set_last_roi_field, S6,
      B2, B3, B4, B5, B6, S1, S2, S3, S7, D1, D2, D3, D7, G1, G2, G3.
    cbn [app]. repeat split; reflexivity.
  - (* not found *)
    destruct (fields_set_last_roi_field sentinel_roi (snd d))
      as (B1 & B2 & B3 & B4 & B5 & B6).
    destruct (Hfin false (set_last_roi_field sentinel_roi (snd d)))
      as (F1 & F2 & F3 & F4 & F5 & F6); [congruence|].
    cbv zeta in F1, F2, F3, F4, F5, F6.
    rewrite F1, F2, F3, F4, F5, F6, log_set_last_roi_field,
      B2, B3, B4, B5, B6, D1, D2, D3, D7, G1, G2, G3.
    cbn [app]. repeat split; reflexivity.
Qed.

End LoopShape.

Section LoopFacts.

Context {cv : OpenCV} (K : Header).

Lemma capture_loop_cons (inp : frame_input cv) (inputs : list (frame_input cv))
    (a : tracker cv) :
  Props.capture_loop K (inp :: inputs) a =
  Props.capture_loop K inputs (iteration K inp a).
Proof. reflexivity. Qed.

Lemma run_opened (s : settings) (inputs : list (frame_input cv)) (a : tracker cv) :
  run K s true inputs a =
  Props.capture_loop K inputs (snd (open_camera s true a)).
Proof. reflexivity. Qed.

Lemma forced_fps_out_of_range (k : Z) :
  (k < 0 \/ 5 < k)%Z -> forced_fps k = 0%Z.
Proof.
  intros H. destruct k as [|p|p]; try reflexivity.
  destruct p as [[[p|p|]|[p|p|]|]|[[p|p|]|[p|p|]|]|]; try reflexivity; lia.
Qed.

(** X1: [open_camera] returns what the device answered.  A resolution
    index outside 0..2 is treated as index 0 (640 x 480) and a frame-rate
    selector outside 0..5 as selector 0 (no frame rate requested). *)
Theorem open_camera_out_of_range (s : settings) (opened : bool) (a : tracker cv) :
  fst (open_camera s opened a) = opened /\
  ((resolution s < 0 \/ 3 <= resolution s)%Z ->
     open_camera s opened a =
     open_camera (mkSettings 0 (force_fps s) (fov s) (headpos_x s)
                             (headpos_y s) (headpos_z s)) opened a) /\
  ((force_fps s < 0 \/ 5 < force_fps s)%Z ->
     open_camera s opened a =
     open_camera (mkSettings (resolution s) 0 (fov s) (headpos_x s)
                             (headpos_y s) (headpos_z s)) opened a).
Proof.
  split; [|split].
  - unfold open_camera. cbv zeta. destruct opened; reflexivity.
  - intros H. unfold open_camera. cbn [resolution force_fps].
    assert (E : ((resolution s <? 0)%Z || (3 <=? resolution s)%Z) = true).
    { apply orb_true_iff. destruct H; [left; now apply Z.ltb_lt|right; now apply Z.leb_le]. }
    rewrite E. reflexivity.
  - intros H. unfold open_camera. cbn [resolution force_fps].
    rewrite (forced_fps_out_of_range _ H). reflexivity.
Qed.

(** X2: while every read fails the loop only keeps reading: after any
    number of such turns the pose, the calibration pair, the region of
    interest, the frame rate and the intrinsics are what they were, and
    the turns have added one failed read each and nothing else. *)
Theorem failed_reads_change_nothing (inputs : list (frame_input cv))
    (a : tracker cv) :
  (forall inp, In inp inputs -> cam_read inp = None) ->
  pose (Props.capture_loop K inputs a) = pose a /\
  getRT (Props.capture_loop K inputs a) = getRT a /\
  last_roi (Props.capture_loop K inputs a) = last_roi a /\
  fps (Props.capture_loop K inputs a) = fps a /\
  intrinsics (Props.capture_loop K inputs a) = intrinsics a /\
  log (Props.capture_loop K inputs a) =
    repeat (EvCameraRead false) (length inputs) ++ log a.
Proof.
  revert a. induction inputs as [|inp inputs IH]; intros a Hfail.
  - simpl. auto 10.
  - rewrite capture_loop_cons.
    assert (E : iteration K inp a = emit (EvCameraRead false) a).
    { unfold iteration. rewrite (Hfail inp) by (now left). reflexivity. }
    rewrite E.
    destruct (IH (emit (EvCameraRead false) a)) as (H1 & H2 & H3 & H4 & H5 & H6).
    { intros i Hi. apply Hfail. now right. }
    rewrite H1, H2, H3, H4, H5, H6. repeat split; try reflexivity.
    rewrite log_emit. cbn [length].
    change (EvCameraRead false :: log a) with ([EvCameraRead false] ++ log a).
    rewrite app_assoc. f_equal.
    rewrite <- repeat_cons. reflexivity.
Qed.

(** What [markers] holds after a successful detection, by the path that
    found the marker. *)
Lemma detect_either_markers (a : tracker cv) :
  fst (detect_either K a) = true ->
  exists m : Marker,
    length m = 4%nat /\
    markers (snd (detect_either K a)) =
      [if fst (detect_with_roi K a) then map (offset_corner (last_roi a)) m
       else m].
Proof.
  unfold detect_either.
  destruct (fst (detect_with_roi K a)) eqn:E.
  - intros _. revert E. unfold detect_with_roi.
    destruct (_ && _); [|simpl; discriminate]. cbv zeta.
    destruct (one_marker_four_corners _) eqn:D; [|simpl; discriminate].
    intros _. destruct (one_marker_four_corners_inv _ D) as (m & Hm & Hlen).
    exists m. cbn [snd markers set_markers].
    rewrite Hm. cbn [nth]. split; [exact Hlen|].
    now rewrite (offset_corners_map _ _ Hlen).
  - unfold detect_without_roi. cbn [fst snd markers set_markers emit].
    intros D. destruct (one_marker_four_corners_inv _ D) as (m & Hm & Hlen).
    exists m. split; [exact Hlen|exact Hm].
Qed.

(** X3: whenever the detection of a turn succeeds, by either path,
    [markers] holds exactly one marker and that marker has exactly four
    corners: the accesses [markers[0]] and [m[i]], [i < 4], that follow
    are inside their vectors. *)
Theorem detect_either_one_quad (a : tracker cv) :
  fst (detect_either K a) = true ->
  exists m : Marker,
    markers (snd (detect_either K a)) = [m] /\ length m = 4%nat.
Proof.
  intros H. destruct (detect_either_markers a H) as (m & Hlen & Hm).
  rewrite Hm. destruct (fst (detect_with_roi K a)).
  - exists (map (offset_corner (last_roi a)) m).
    split; [reflexivity|]. now rewrite length_map.
  - exists m. split; [reflexivity|exact Hlen].
Qed.

End LoopFacts.

Section LoopInvariants.

Context {cv : OpenCV} (K : Header).

Lemma count_app (p : event -> bool) (l1 l2 : list event) :
  Props.count p (l1 ++ l2) = (Props.count p l1 + Props.count p l2)%nat.
Proof. unfold Props.count. now rewrite filter_app, length_app. Qed.

Lemma if_both {A : Type} (b1 b2 : bool) (x y : A) :
  b1 = true -> b2 = true -> (if b1 && b2 then x else y) = x.
Proof. intros -> ->. reflexivity. Qed.

Lemma roi_inside_frame (a : tracker cv) :
  (1 <= cols cv (color a))%Z -> (1 <= rows cv (color a))%Z ->
  Props.inside (cols cv (color a)) (rows cv (color a))
               (last_roi (set_roi_from_projection a)).
Proof.
  intros Hc Hr. rewrite set_roi_from_projection_rect. cbv zeta.
  unfold Props.inside. cbn [rect_x rect_y rect_width rect_height].
  assert (Hx : (Spec.min4 (Spec.proj_x a) <= Spec.max4 (Spec.proj_x a))%Z)
    by (unfold Spec.min4, Spec.max4; lia).
  assert (Hy : (Spec.min4 (Spec.proj_y a) <= Spec.max4 (Spec.proj_y a))%Z)
    by (unfold Spec.min4, Spec.max4; lia).
  revert Hx Hy.
  generalize (Spec.min4 (Spec.proj_x a)) (Spec.max4 (Spec.proj_x a))
             (Spec.min4 (Spec.proj_y a)) (Spec.max4 (Spec.proj_y a)).
  intros lx hx ly hy Hx Hy. repeat split; lia.
Qed.

Lemma set_last_roi_inside (s : settings) (a : tracker cv) :
  (1 <= cols cv (color a))%Z -> (1 <= rows cv (color a))%Z ->
  Props.inside (cols cv (color a)) (rows cv (color a))
               (last_roi (set_last_roi K s a)).
Proof.
  intros Hc Hr. destruct (set_last_roi_more K s a) as (_ & _ & E).
  rewrite E.
  exact (roi_inside_frame
           (set_roi_projection (roi_projection (set_last_roi K s a)) a) Hc Hr).
Qed.

Lemma set_rmat_rt (a : tracker cv) :
  r (set_rmat a) = Rodrigues cv (rvec a) /\
  t (set_rmat a) = mkVec3d (v_0 (tvec a)) (- v_1 (tvec a))%float (v_2 (tvec a)).
Proof. split; reflexivity. Qed.

(** X4: a turn in which a marker is found and the solver succeeds
    publishes the solver's answer: the pose is the translation scaled by
    0.1 followed by yaw, minus pitch and roll of the decomposed rotation,
    [getRT] returns that rotation and the translation with Y negated, and
    the region predicted for the next frame lies inside the frame just
    read. *)
Theorem solved_turn_publishes (inp : frame_input cv) (a : tracker cv)
    (img : Mat cv) :
  cam_read inp = Some img ->
  length (pose a) = 6%nat ->
  (1 <= cols cv img)%Z -> (1 <= rows cv img)%Z ->
  fst (detect_either K (grab K img inp a)) = true ->
  fst (solve inp (snd (detect_either K (grab K img inp a)))) = true ->
  let sol := snd (solve inp (snd (detect_either K (grab K img inp a)))) in
  pose (iteration K inp a) =
    Spec.published (tvec sol) (RQDecomp3x3 cv (Rodrigues cv (rvec sol))) /\
  getRT (iteration K inp a) =
    (Rodrigues cv (rvec sol),
     mkVec3d (v_0 (tvec sol)) (- v_1 (tvec sol))%float (v_2 (tvec sol))) /\
  Props.inside (cols cv img) (rows cv img) (last_roi (iteration K inp a)).
Proof.
  intros Hread Hlen Hc Hr Hd Hs sol.
  destruct (iteration_shape K inp a img Hread) as (_ & L & P & R & T & _).
  cbv zeta in L, P, R, T.
  rewrite (if_both _ _ _ _ Hd Hs) in L. rewrite (if_both _ _ _ _ Hd Hs) in P.
  rewrite (if_both _ _ _ _ Hd Hs) in R. rewrite (if_both _ _ _ _ Hd Hs) in T.
  fold sol in L, P, R, T.
  destruct (grab_frame K img inp a) as (G1 & _ & _ & _ & G5 & _).
  destruct (detect_either_frame K (grab K img inp a)) as (D1 & _ & _ & _ & D5 & _).
  destruct (solve_frame inp (snd (detect_either K (grab K img inp a))))
    as (S1 & _ & _ & _ & S5 & _).
  fold sol in S1, S5.
  destruct (set_last_roi_frame K (cfg inp) sol) as (R1 & _ & _ & R4 & R5 & _).
  destruct (set_rmat_rt (set_last_roi K (cfg inp) sol)) as (M1 & M2).
  assert (Hcol : color sol = img) by congruence.
  split; [|split].
  - assert (HlenX : length (pose (set_last_roi K (cfg inp) sol)) = 6%nat).
    { rewrite R1, S1, D1, G1. exact Hlen. }
    rewrite P, (set_rmat_pose _ HlenX), R4, R5. reflexivity.
  - unfold getRT. rewrite R, T, M1, M2, R4, R5. reflexivity.
  - pose proof (set_last_roi_inside (cfg inp) sol) as HI.
    rewrite Hcol in HI. rewrite L. exact (HI Hc Hr).
Qed.

(** The events of the detection: the region is tried when it is more
    than one pixel wide and high, the whole frame when the region was not
    tried or held no marker. *)
Lemma detect_either_log (a : tracker cv) :
  let b := roi_size_bounds K (cols cv (grayscale a)) (rect_width (last_roi a)) in
  let region := [EvDetect (Some (last_roi a)); EvSetMinMaxSize (fst b) (snd b)] in
  let full := [EvDetect None; EvSetMinMaxSize (size_min K) (size_max K)] in
  log (snd (detect_either K a)) =
    (if (1 <? rect_width (last_roi a))%Z && (1 <? rect_height (last_roi a))%Z
     then if fst (detect_with_roi K a) then region else full ++ region
     else full) ++ log a.
Proof.
  cbv zeta. unfold detect_either.
  destruct ((1 <? rect_width (last_roi a))%Z && (1 <? rect_height (last_roi a))%Z) eqn:G.
  - pose proof (detect_with_roi_log_guarded K a G) as Hl.
    destruct (fst (detect_with_roi K a)).
    + rewrite Hl. reflexivity.
    + destruct (detect_without_roi_more K (snd (detect_with_roi K a)))
        as (_ & _ & _ & _ & Hl2).
      rewrite Hl2, Hl. reflexivity.
  - rewrite (detect_with_roi_log_unguarded K a G). cbn [fst snd].
    destruct (detect_without_roi_more K (set_last_roi_field sentinel_roi a))
      as (_ & _ & _ & _ & Hl2).
    rewrite Hl2, log_set_last_roi_field. reflexivity.
Qed.

(** X5: a stored region at most one pixel wide or high - the sentinel,
    or a region that the clamping squeezed to nothing at the frame's
    edge - is never searched: the next turn that reads a frame runs the
    detector exactly once, on the whole frame with the configured
    bounds. *)
Theorem degenerate_roi_not_searched (inp : frame_input cv) (a : tracker cv)
    (img : Mat cv) :
  cam_read inp = Some img ->
  (rect_width (last_roi a) <= 1 \/ rect_height (last_roi a) <= 1)%Z ->
  exists tail : list event,
    log (iteration K inp a) =
      tail ++ EvDetect None :: EvSetMinMaxSize (size_min K) (size_max K)
           :: EvCameraRead true :: log a /\
    Props.count Props.is_detect tail = 0%nat.
Proof.
  intros Hread Hdeg.
  destruct (iteration_shape K inp a img Hread) as (Hlog & _).
  cbv zeta in Hlog.
  destruct (grab_frame K img inp a) as (_ & _ & _ & G4 & _ & _ & G7).
  pose proof (detect_either_log (grab K img inp a)) as Hd. cbv zeta in Hd.
  rewrite G4 in Hd.
  assert (G : (1 <? rect_width (last_roi a))%Z && (1 <? rect_height (last_roi a))%Z
              = false).
  { apply andb_false_iff.
    destruct Hdeg; [left|right]; apply Z.ltb_ge; assumption. }
  rewrite G, G7 in Hd. rewrite Hd in Hlog. rewrite Hlog.
  exists ((if (0 <? rows cv img)%Z then [EvUpdateImage] else [])
          ++ EvDrawAr (fst (detect_either K (grab K img inp a)))
          :: (if fst (detect_either K (grab K img inp a))
              then [EvSolvePnP
                      (fst (solve inp (snd (detect_either K (grab K img inp a)))))]
              else [])).
  destruct (0 <? rows cv img)%Z;
    destruct (fst (detect_either K (grab K img inp a)));
    split; reflexivity.
Qed.

End LoopInvariants.

Section LoopRuns.

Context {cv : OpenCV} (K : Header).

Lemma region_event_ok_other (c rws : Z) (e : event) :
  Props.is_region_detect e = false -> Props.region_event_ok c rws e.
Proof. destruct e as [| | | | | |[roi|]| | |]; simpl; intros; try exact I; discriminate. Qed.

Lemma sentinel_guard_false :
  (1 <? rect_width sentinel_roi)%Z && (1 <? rect_height sentinel_roi)%Z = false.
Proof. reflexivity. Qed.

(** One turn keeps the two facts the loop relies on. *)
Lemma iteration_keeps_roi_ok (c rws : Z) (inp : frame_input cv) (a : tracker cv) :
  (1 <= c)%Z -> (1 <= rws)%Z ->
  (forall img, cam_read inp = Some img -> cols cv img = c /\ rows cv img = rws) ->
  Props.roi_ok c rws (last_roi a) ->
  Forall (Props.region_event_ok c rws) (log a) ->
  Props.roi_ok c rws (last_roi (iteration K inp a)) /\
  Forall (Props.region_event_ok c rws) (log (iteration K inp a)).
Proof.
  intros Hc Hr Hsize Hroi Hlog.
  destruct (cam_read inp) as [img|] eqn:Hread.
  - destruct (Hsize img eq_refl) as [Ec Er].
    destruct (iteration_shape K inp a img Hread) as (L & R & _).
    cbv zeta in L, R.
    destruct (grab_frame K img inp a) as (_ & _ & _ & G4 & G5 & _ & G7).
    destruct (detect_either_frame K (grab K img inp a)) as (_ & _ & _ & _ & D5 & _).
    destruct (solve_frame inp (snd (detect_either K (grab K img inp a))))
      as (_ & _ & _ & _ & S5 & _).
    pose proof (detect_either_log K (grab K img inp a)) as Hd. cbv zeta in Hd.
    rewrite G4, G7 in Hd.
    split.
    + rewrite R.
      destruct (fst (detect_either K (grab K img inp a)) &&
                fst (solve inp (snd (detect_either K (grab K img inp a)))));
        [|now left].
      right.
      pose proof (set_last_roi_inside K (cfg inp)
                    (snd (solve inp (snd (detect_either K (grab K img inp a))))))
        as HI.
      rewrite S5, D5, G5, Ec, Er in HI. exact (HI Hc Hr).
    + rewrite L, Hd.
      assert (Hregion : (1 <? rect_width (last_roi a))%Z
                        && (1 <? rect_height (last_roi a))%Z = true ->
                        Props.region_event_ok c rws (EvDetect (Some (last_roi a)))).
      { intros G. destruct Hroi as [E|Hin].
        - rewrite E in G. rewrite sentinel_guard_false in G. discriminate.
        - apply andb_prop in G. destruct G as [G1 G2].
          apply Z.ltb_lt in G1. apply Z.ltb_lt in G2. simpl. auto. }
      apply Forall_app. split.
      { destruct (0 <? rows cv img)%Z; repeat constructor. }
      constructor; [exact I|].
      apply Forall_app. split.
      { destruct (fst (detect_either K (grab K img inp a))); repeat constructor. }
      apply Forall_app. split.
      * destruct ((1 <? rect_width (last_roi a))%Z
                  && (1 <? rect_height (last_roi a))%Z) eqn:G.
        -- pose proof (Hregion eq_refl) as Hev.
           destruct (fst (detect_with_roi K (grab K img inp a))); cbn [app].
           ++ apply Forall_cons; [exact Hev|].
              apply Forall_cons; [exact I|apply Forall_nil].
           ++ apply Forall_cons; [exact I|].
              apply Forall_cons; [exact I|].
              apply Forall_cons; [exact Hev|].
              apply Forall_cons; [exact I|apply Forall_nil].
        -- apply Forall_cons; [exact I|].
           apply Forall_cons; [exact I|apply Forall_nil].
      * constructor; [exact I|exact Hlog].
  - assert (E : iteration K inp a = emit (EvCameraRead false) a).
    { unfold iteration. now rewrite Hread. }
    rewrite E. split; [exact Hroi|].
    rewrite log_emit. constructor; [exact I|exact Hlog].
Qed.

(** X6: while the camera delivers frames of one size, at least 1 x 1,
    the loop keeps the stored region either at the sentinel or inside
    the frame, and every run of the detector inside a region is on a
    region that lies inside the frame and is more than one pixel wide
    and high. *)
Theorem loop_keeps_roi_in_frame (c rws : Z) (inputs : list (frame_input cv))
    (a : tracker cv) :
  (1 <= c)%Z -> (1 <= rws)%Z ->
  Props.frames_sized cv c rws inputs ->
  Props.roi_ok c rws (last_roi a) ->
  Forall (Props.region_event_ok c rws) (log a) ->
  Props.roi_ok c rws (last_roi (Props.capture_loop K inputs a)) /\
  Forall (Props.region_event_ok c rws) (log (Props.capture_loop K inputs a)).
Proof.
  intros Hc Hr. revert a.
  induction inputs as [|inp inputs IH]; intros a Hsize Hroi Hlog.
  - split; assumption.
  - rewrite capture_loop_cons.
    destruct (iteration_keeps_roi_ok c rws inp a Hc Hr) as [H1 H2]; auto.
    { intros img Hread. apply (Hsize inp img); [now left|exact Hread]. }
    apply IH; auto.
    intros i img Hi. apply Hsize. now right.
Qed.

End LoopRuns.

Section LoopCounts.

Context {cv : OpenCV} (K : Header).

(** The events one turn adds, counted by kind. *)
Lemma iteration_counts (inp : frame_input cv) (a : tracker cv) :
  exists evs : list event,
    log (iteration K inp a) = evs ++ log a /\
    Props.count Props.is_read evs = 1%nat /\
    Props.count Props.is_draw evs = Props.count Props.is_good_read evs /\
    (Props.count Props.is_good_read evs <= 1)%nat /\
    (Props.count Props.is_good_read evs <= Props.count Props.is_detect evs)%nat /\
    (Props.count Props.is_detect evs <= 2 * Props.count Props.is_good_read evs)%nat /\
    (Props.count Props.is_region_detect evs <= Props.count Props.is_good_read evs)%nat /\
    (Props.count Props.is_solve evs <= Props.count Props.is_good_read evs)%nat.
Proof.
  destruct (cam_read inp) as [img|] eqn:Hread.
  - destruct (iteration_shape K inp a img Hread) as (L & _).
    cbv zeta in L.
    destruct (grab_frame K img inp a) as (_ & _ & _ & G4 & _ & _ & G7).
    pose proof (detect_either_log K (grab K img inp a)) as Hd. cbv zeta in Hd.
    rewrite G7 in Hd. rewrite Hd in L.
    eexists. split.
    { rewrite L. rewrite !app_comm_cons, !app_assoc.
      change (EvCameraRead true :: log a) with ([EvCameraRead true] ++ log a).
      rewrite !app_assoc. reflexivity. }
    destruct (0 <? rows cv img)%Z;
      destruct (fst (detect_either K (grab K img inp a)));
      destruct ((1 <? rect_width (last_roi (grab K img inp a)))%Z
                && (1 <? rect_height (last_roi (grab K img inp a)))%Z);
      destruct (fst (detect_with_roi K (grab K img inp a)));
      cbn; repeat split; lia.
  - exists [EvCameraRead false]. split.
    + unfold iteration. rewrite Hread. reflexivity.
    + cbn. repeat split; lia.
Qed.

(** X7: the loop reads the camera exactly once per turn and calls
    [draw_ar] exactly once per frame read; per frame read it runs the
    detector once or twice, at most once of them inside a region, and
    the solver at most once. *)
Theorem loop_work_per_frame (inputs : list (frame_input cv)) (a : tracker cv) :
  exists evs : list event,
    log (Props.capture_loop K inputs a) = evs ++ log a /\
    Props.count Props.is_read evs = length inputs /\
    Props.count Props.is_draw evs = Props.count Props.is_good_read evs /\
    (Props.count Props.is_good_read evs <= length inputs)%nat /\
    (Props.count Props.is_good_read evs <= Props.count Props.is_detect evs)%nat /\
    (Props.count Props.is_detect evs <= 2 * Props.count Props.is_good_read evs)%nat /\
    (Props.count Props.is_region_detect evs <= Props.count Props.is_good_read evs)%nat /\
    (Props.count Props.is_solve evs <= Props.count Props.is_good_read evs)%nat.
Proof.
  revert a. induction inputs as [|inp inputs IH]; intros a.
  - exists []. cbn. repeat split; lia.
  - rewrite capture_loop_cons.
    destruct (iteration_counts inp a)
      as (e1 & L1 & A1 & A2 & A3 & A4 & A5 & A6 & A7).
    destruct (IH (iteration K inp a))
      as (e2 & L2 & B1 & B2 & B3 & B4 & B5 & B6 & B7).
    exists (e2 ++ e1). split.
    { rewrite L2, L1. now rewrite app_assoc. }
    rewrite !count_app. cbn [length]. repeat split; lia.
Qed.

Lemma set_intrinsics_pinhole (s : settings) (a : tracker cv) :
  Props.pinhole (intrinsics a) ->
  Props.pinhole (intrinsics (set_intrinsics s a)) /\
  v_2 (fst (fst (intrinsics (set_intrinsics s a)))) =
    Cxx.double_of_int (Cxx.int_div (cols cv (grayscale a)) 2) /\
  v_2 (snd (fst (intrinsics (set_intrinsics s a)))) =
    Cxx.double_of_int (Cxx.int_div (rows cv (grayscale a)) 2).
Proof.
  unfold Props.pinhole, set_intrinsics.
  destruct (intrinsics a) as [[r0 r1] r2]. simpl. tauto.
Qed.

Lemma iteration_intrinsics (inp : frame_input cv) (a : tracker cv) :
  intrinsics (iteration K inp a) =
  match cam_read inp with
  | Some img =>
      intrinsics (set_intrinsics (cfg inp)
                    (set_grayscale (cvtColor cv img)
                       (set_color img (emit (EvCameraRead true) a))))
  | None => intrinsics a
  end.
Proof.
  destruct (cam_read inp) as [img|] eqn:Hread.
  - destruct (iteration_shape K inp a img Hread) as (_ & _ & _ & _ & _ & I).
    rewrite I. apply grab_more.
  - unfold iteration. rewrite Hread. reflexivity.
Qed.

(** X8: the loop never gives the intrinsic matrix a skew or another
    bottom row than (0, 0, 1), and after a turn that read a frame the
    principal point is half the width and half the height of the
    grayscale frame, each halved as an integer. *)
Theorem loop_keeps_pinhole (inputs : list (frame_input cv)) (a : tracker cv) :
  Props.pinhole (intrinsics a) ->
  Props.pinhole (intrinsics (Props.capture_loop K inputs a)) /\
  (forall inp img, cam_read inp = Some img ->
     v_2 (fst (fst (intrinsics (iteration K inp a)))) =
       Cxx.double_of_int (Cxx.int_div (cols cv (cvtColor cv img)) 2) /\
     v_2 (snd (fst (intrinsics (iteration K inp a)))) =
       Cxx.double_of_int (Cxx.int_div (rows cv (cvtColor cv img)) 2)).
Proof.
  intros Hp. split.
  - revert a Hp. induction inputs as [|inp inputs IH]; intros a Hp; [exact Hp|].
    rewrite capture_loop_cons. apply IH.
    unfold Props.pinhole. rewrite iteration_intrinsics.
    destruct (cam_read inp) as [img|]; [|exact Hp].
    apply set_intrinsics_pinhole. exact Hp.
  - intros inp img Hread. rewrite iteration_intrinsics, Hread.
    apply (set_intrinsics_pinhole (cfg inp)
             (set_grayscale (cvtColor cv img)
                (set_color img (emit (EvCameraRead true) a)))).
    exact Hp.
Qed.

(** One turn either leaves the published pose and the calibration pair
    alone or replaces all three from one solve. *)
Lemma iteration_publishes_together (inp : frame_input cv) (a : tracker cv) :
  length (pose a) = 6%nat ->
  (pose (iteration K inp a) = pose a /\ r (iteration K inp a) = r a /\
   t (iteration K inp a) = t a) \/
  (exists rv tv : Vec3d,
     pose (iteration K inp a) =
       Spec.published tv (RQDecomp3x3 cv (Rodrigues cv rv)) /\
     r (iteration K inp a) = Rodrigues cv rv /\
     t (iteration K inp a) = mkVec3d (v_0 tv) (- v_1 tv)%float (v_2 tv)).
Proof.
  intros Hlen.
  destruct (cam_read inp) as [img|] eqn:Hread.
  - destruct (iteration_shape K inp a img Hread) as (_ & _ & P & R & T & _).
    cbv zeta in P, R, T.
    destruct (fst (detect_either K (grab K img inp a))) eqn:Hd;
      [destruct (fst (solve inp (snd (detect_either K (grab K img inp a))))) eqn:Hs|].
    + right.
      rewrite (if_both _ _ _ _ eq_refl eq_refl) in P.
      rewrite (if_both _ _ _ _ eq_refl eq_refl) in R.
      rewrite (if_both _ _ _ _ eq_refl eq_refl) in T.
      set (sol := snd (solve inp (snd (detect_either K (grab K img inp a))))) in *.
      destruct (grab_frame K img inp a) as (G1 & _).
      destruct (detect_either_frame K (grab K img inp a)) as (D1 & _).
      destruct (solve_frame inp (snd (detect_either K (grab K img inp a))))
        as (S1 & _).
      fold sol in S1.
      destruct (set_last_roi_frame K (cfg inp) sol) as (R1 & _ & _ & R4 & R5 & _).
      destruct (set_rmat_rt (set_last_roi K (cfg inp) sol)) as (M1 & M2).
      assert (HlenX : length (pose (set_last_roi K (cfg inp) sol)) = 6%nat).
      { rewrite R1, S1, D1, G1. exact Hlen. }
      exists (rvec sol), (tvec sol).
      rewrite P, R, T, (set_rmat_pose _ HlenX), M1, M2, R4, R5.
      repeat split; reflexivity.
    + left. rewrite P, R, T. rewrite andb_false_r. repeat split; reflexivity.
    + left. rewrite P, R, T. repeat split; reflexivity.
  - left. unfold iteration. rewrite Hread. repeat split; reflexivity.
Qed.

(** X9: however the loop runs, the published pose and the pair returned
    by [getRT] come from the same solve: either all three are still the
    initial ones, or there are a rotation vector and a translation the
    solver returned together of which the pose is the published form,
    [r] the rotation matrix and [t] the translation with Y negated. *)
Theorem pose_and_rt_from_one_solve (inputs : list (frame_input cv))
    (a : tracker cv) :
  length (pose a) = 6%nat ->
  (pose (Props.capture_loop K inputs a) = pose a /\
   getRT (Props.capture_loop K inputs a) = getRT a) \/
  (exists rv tv : Vec3d,
     pose (Props.capture_loop K inputs a) =
       Spec.published tv (RQDecomp3x3 cv (Rodrigues cv rv)) /\
     getRT (Props.capture_loop K inputs a) =
       (Rodrigues cv rv, mkVec3d (v_0 tv) (- v_1 tv)%float (v_2 tv))).
Proof.
  intros Hlen.
  assert (H : forall b : tracker cv,
             length (pose b) = 6%nat ->
             (pose b = pose a /\ r b = r a /\ t b = t a) \/
             (exists rv tv : Vec3d,
                pose b = Spec.published tv (RQDecomp3x3 cv (Rodrigues cv rv)) /\
                r b = Rodrigues cv rv /\
                t b = mkVec3d (v_0 tv) (- v_1 tv)%float (v_2 tv)) ->
             (pose (Props.capture_loop K inputs b) = pose a /\
              r (Props.capture_loop K inputs b) = r a /\
              t (Props.capture_loop K inputs b) = t a) \/
             (exists rv tv : Vec3d,
                pose (Props.capture_loop K inputs b) =
                  Spec.published tv (RQDecomp3x3 cv (Rodrigues cv rv)) /\
                r (Props.capture_loop K inputs b) = Rodrigues cv rv /\
                t (Props.capture_loop K inputs b) =
                  mkVec3d (v_0 tv) (- v_1 tv)%float (v_2 tv))).
  { induction inputs as [|inp inputs IH]; intros b Hb Hinv; [exact Hinv|].
    rewrite capture_loop_cons.
    destruct (iteration_publishes_together inp b Hb)
      as [(P & R & T)|(rv & tv & P & R & T)].
    - apply IH; [now rewrite P|].
      rewrite P, R, T. exact Hinv.
    - apply IH; [rewrite P; reflexivity|].
      right. exists rv, tv. auto. }
  unfold getRT.
  destruct (H a Hlen) as [(P & R & T)|(rv & tv & P & R & T)].
  - left. auto.
  - left. rewrite P, R, T. auto.
  - right. exists rv, tv. rewrite P, R, T. auto.
Qed.

End LoopCounts.

Section RoiCover.

Context {cv : OpenCV}.

Lemma min4_max4_bounds (f : nat -> Z) (i : nat) :
  (i < 4)%nat -> (Spec.min4 f <= f i <= Spec.max4 f)%Z.
Proof.
  intros Hi. unfold Spec.min4, Spec.max4.
  destruct i as [|[|[|[|i]]]]; try lia.
Qed.

(** X10: the region computed from the projection covers every one of the
    four projected points that falls inside the frame: such a point's
    column lies between the region's first column and its first column
    plus its width, and likewise its row. *)
Theorem roi_covers_points_in_frame (a : tracker cv) (i : nat) :
  (i < 4)%nat ->
  (0 <= Spec.proj_x a i <= cols cv (color a) - 1)%Z ->
  (0 <= Spec.proj_y a i <= rows cv (color a) - 1)%Z ->
  let roi := last_roi (set_roi_from_projection a) in
  (rect_x roi <= Spec.proj_x a i <= rect_x roi + rect_width roi /\
   rect_y roi <= Spec.proj_y a i <= rect_y roi + rect_height roi)%Z.
Proof.
  intros Hi Hx Hy. cbv zeta. rewrite set_roi_from_projection_rect. cbv zeta.
  cbn [rect_x rect_y rect_width rect_height].
  pose proof (min4_max4_bounds (Spec.proj_x a) i Hi) as Bx.
  pose proof (min4_max4_bounds (Spec.proj_y a) i Hi) as By.
  revert Hx Hy Bx By.
  generalize (Spec.min4 (Spec.proj_x a)) (Spec.max4 (Spec.proj_x a))
             (Spec.min4 (Spec.proj_y a)) (Spec.max4 (Spec.proj_y a))
             (Spec.proj_x a i) (Spec.proj_y a i)
             (cols cv (color a)) (rows cv (color a)).
  intros lx hx ly hy px py c rws Hx Hy Bx By. lia.
Qed.

End RoiCover.

(** * Further properties of the calibration dialog *)

Section CalibrationRuns.

Context {cv : OpenCV} {C : Calibrator}.

Lemma toggleCalibrate_flips (d : dialog cv C) :
  calib_timer_active (toggleCalibrate d) = negb (calib_timer_active d).
Proof.
  unfold toggleCalibrate, cleanupCalib.
  destruct (calib_timer_active d) eqn:H; simpl; rewrite ?H; reflexivity.
Qed.

Lemma update_tracker_calibration_keeps (d : dialog cv C) :
  calib_timer_active (update_tracker_calibration d) = calib_timer_active d /\
  s (update_tracker_calibration d) = s d /\
  tracker_ptr (update_tracker_calibration d) = tracker_ptr d.
Proof.
  unfold update_tracker_calibration.
  destruct (calib_timer_active d) eqn:A, (tracker_ptr d) eqn:P; simpl;
    rewrite ?A, ?P; repeat split; reflexivity.
Qed.

(** X11: for any sequence of clicks and timer ticks, the timer runs
    exactly when the number of clicks so far is odd (starting from a
    stopped timer), and the camera settings and the tracker pointer are
    never touched. *)
Theorem dialog_events_invariant (evs : list dialog_event) (d : dialog cv C) :
  calib_timer_active (fold_left dialog_step evs d) =
    xorb (calib_timer_active d) (Nat.odd (Props.clicks evs)) /\
  resolution (s (fold_left dialog_step evs d)) = resolution (s d) /\
  force_fps (s (fold_left dialog_step evs d)) = force_fps (s d) /\
  fov (s (fold_left dialog_step evs d)) = fov (s d) /\
  tracker_ptr (fold_left dialog_step evs d) = tracker_ptr d.
Proof.
  revert d. induction evs as [|e evs IH]; intros d.
  - cbn. rewrite xorb_false_r. auto.
  - cbn [fold_left]. destruct (IH (dialog_step d e)) as (H1 & H2 & H3 & H4 & H5).
    rewrite H1, H2, H3, H4, H5. destruct e; cbn [dialog_step].
    + destruct (toggleCalibrate_keeps d) as (K1 & K2 & K3 & K4).
      rewrite toggleCalibrate_flips, K1, K2, K3, K4.
      unfold Props.clicks. cbn [filter length]. fold (Props.clicks evs).
      rewrite Nat.odd_succ, <- Nat.negb_odd.
      destruct (calib_timer_active d), (Nat.odd (Props.clicks evs)); auto.
    + destruct (update_tracker_calibration_keeps d) as (K1 & K2 & K3).
      rewrite K1, K2, K3. unfold Props.clicks. cbn [filter].
      fold (Props.clicks evs). auto.
Qed.

Lemma tick_calibrating (d : dialog cv C) (tr : tracker cv) :
  calib_timer_active d = true ->
  calib_timer_active (Props.tick d tr) = true /\
  s (Props.tick d tr) = s d /\
  (tracker_ptr d = None ->
     calibrator (Props.tick d tr) = calibrator d /\
     tracker_ptr (Props.tick d tr) = None) /\
  (tracker_ptr d <> None ->
     calibrator (Props.tick d tr) = calib_update C (r tr) (t tr) (calibrator d) /\
     tracker_ptr (Props.tick d tr) <> None).
Proof.
  intros H. unfold Props.tick, update_tracker_calibration.
  cbn [calib_timer_active tracker_ptr s calibrator]. rewrite H.
  destruct (tracker_ptr d) as [tr0|]; cbn [option_map];
    cbn [calib_timer_active tracker_ptr s calibrator getRT fst snd];
    repeat split; try congruence; intros; try congruence.
Qed.

Lemma ticks_calibrating (trs : list (tracker cv)) (d : dialog cv C) :
  calib_timer_active d = true ->
  calib_timer_active (fold_left Props.tick trs d) = true /\
  s (fold_left Props.tick trs d) = s d /\
  calibrator (fold_left Props.tick trs d) =
    match tracker_ptr d with
    | Some _ => Props.sampled C trs (calibrator d)
    | None => calibrator d
    end.
Proof.
  revert d. induction trs as [|tr trs IH]; intros d H.
  - cbn. destruct (tracker_ptr d); auto.
  - cbn [fold_left Props.sampled].
    destruct (tick_calibrating d tr H) as (T1 & T2 & T3 & T4).
    destruct (IH (Props.tick d tr) T1) as (I1 & I2 & I3).
    rewrite I1, I2, I3, T2. split; [reflexivity|]. split; [reflexivity|].
    destruct (tracker_ptr d) as [tr0|] eqn:P.
    + destruct T4 as [T4 T5]; [discriminate|].
      destruct (tracker_ptr (Props.tick d tr)); [|congruence].
      rewrite T4. reflexivity.
    + destruct T3 as [T3 T5]; [reflexivity|]. rewrite T5. exact T3.
Qed.

(** X12: a whole calibration - a click with the timer stopped, any
    number of ticks, a second click.  While the ticks run the three
    head-centre settings are 0; the accumulator is the freshly reset one
    fed the pair [getRT] returned at each tick, oldest first (or left as
    reset when no tracker runs); the second click stops the timer and
    writes that accumulator's estimate to the head-centre settings. *)
Theorem calibration_session (trs : list (tracker cv)) (d : dialog cv C) :
  calib_timer_active d = false ->
  let sampling := fold_left Props.tick trs (toggleCalibrate d) in
  let acc := match tracker_ptr d with
             | Some _ => Props.sampled C trs (calib_reset C (calibrator d))
             | None => calib_reset C (calibrator d)
             end in
  (headpos_x (s sampling) = 0%float /\ headpos_y (s sampling) = 0%float /\
   headpos_z (s sampling) = 0%float) /\
  calibrator sampling = acc /\
  calib_timer_active (toggleCalibrate sampling) = false /\
  headpos_x (s (toggleCalibrate sampling)) = v_0 (calib_get_estimate C acc) /\
  headpos_y (s (toggleCalibrate sampling)) = v_1 (calib_get_estimate C acc) /\
  headpos_z (s (toggleCalibrate sampling)) = v_2 (calib_get_estimate C acc).
Proof.
  intros Hidle sampling acc.
  assert (Hstart : calib_timer_active (toggleCalibrate d) = true /\
                   headpos_x (s (toggleCalibrate d)) = 0%float /\
                   headpos_y (s (toggleCalibrate d)) = 0%float /\
                   headpos_z (s (toggleCalibrate d)) = 0%float /\
                   calibrator (toggleCalibrate d) = calib_reset C (calibrator d) /\
                   tracker_ptr (toggleCalibrate d) = tracker_ptr d).
  { unfold toggleCalibrate. rewrite Hidle. simpl. auto 10. }
  destruct Hstart as (A1 & A2 & A3 & A4 & A5 & A6).
  destruct (ticks_calibrating trs (toggleCalibrate d) A1) as (B1 & B2 & B3).
  fold sampling in B1, B2, B3. rewrite A5, A6 in B3. fold acc in B3.
  assert (Hstop : calib_timer_active (toggleCalibrate sampling) = false /\
                  headpos_x (s (toggleCalibrate sampling))
                    = v_0 (calib_get_estimate C (calibrator sampling)) /\
                  headpos_y (s (toggleCalibrate sampling))
                    = v_1 (calib_get_estimate C (calibrator sampling)) /\
                  headpos_z (s (toggleCalibrate sampling))
                    = v_2 (calib_get_estimate C (calibrator sampling))).
  { unfold toggleCalibrate, cleanupCalib. rewrite B1. simpl. auto. }
  destruct Hstop as (C1 & C2 & C3 & C4).
  rewrite B2, B3 in *. rewrite C2, C3, C4. auto 10.
Qed.

End CalibrationRuns.

(** * The vJoy protocol *)

Section VJoyFacts.

Variables VJOY_AXIS_MIN VJOY_AXIS_MAX : Z.

Lemma axis_value_range (v range : float) :
  (VJOY_AXIS_MIN <= VJOY_AXIS_MAX)%Z ->
  (VJOY_AXIS_MIN <= VJoy.axis_value VJOY_AXIS_MIN VJOY_AXIS_MAX v range
   <= VJOY_AXIS_MAX)%Z.
Proof.
  intros H. unfold VJoy.axis_value, VJoy.min_int, VJoy.max_int.
  generalize (VJoy.int_of_double
                (v * Cxx.double_of_int VJOY_AXIS_MAX / range)%float).
  intros x.
  destruct (Z.ltb_spec VJOY_AXIS_MIN x);
    match goal with |- context [(?u <? ?w)%Z] => destruct (Z.ltb_spec u w) end;
    lia.
Qed.

(** X13: whatever the six pose values are - huge, infinite or not a
    number - every axis [sendHeadposeToGame] sends lies between
    [VJOY_AXIS_MIN] and [VJOY_AXIS_MAX], provided the minimum is not above
    the maximum. *)
Theorem joystick_axes_in_range (headpose : list float) :
  (VJOY_AXIS_MIN <= VJOY_AXIS_MAX)%Z ->
  let j := VJoy.sendHeadposeToGame VJOY_AXIS_MIN VJOY_AXIS_MAX headpose in
  (VJOY_AXIS_MIN <= VJoy.XAxis j <= VJOY_AXIS_MAX /\
   VJOY_AXIS_MIN <= VJoy.YAxis j <= VJOY_AXIS_MAX /\
   VJOY_AXIS_MIN <= VJoy.ZAxis j <= VJOY_AXIS_MAX /\
   VJOY_AXIS_MIN <= VJoy.XRotation j <= VJOY_AXIS_MAX /\
   VJOY_AXIS_MIN <= VJoy.YRotation j <= VJOY_AXIS_MAX /\
   VJOY_AXIS_MIN <= VJoy.ZRotation j <= VJOY_AXIS_MAX)%Z.
Proof.
  intros H. cbv zeta. unfold VJoy.sendHeadposeToGame.
  cbn [VJoy.XAxis VJoy.YAxis VJoy.ZAxis VJoy.XRotation VJoy.YRotation
       VJoy.ZRotation].
  repeat split; apply axis_value_range; exact H.
Qed.

End VJoyFacts.

(** * The frame-rate text *)

Module OverlayFacts.

Import Stdlib.Strings.String.
Local Open Scope string_scope.

Lemma substring_length_le (n : nat) (s : string) :
  (String.length (substring 0 n s) <= n)%nat.
Proof.
  revert s. induction n as [|n IH]; intros [|c s]; simpl; try lia.
  specialize (IH s). lia.
Qed.

Lemma small_rates_checked :
  forallb (fun n => String.eqb (Overlay.hz_text (Z.of_nat n))
                               ("Hz: " ++ Overlay.decimal (Z.of_nat n)))
          (seq 0 (Z.to_nat 1000)) = true.
Proof. vm_compute. reflexivity. Qed.

Lemma large_rates_checked :
  forallb (fun n => String.eqb (Overlay.hz_text (Z.of_nat n))
                               ("Hz: " ++ Overlay.decimal (Z.of_nat n / 10)))
          (seq (Z.to_nat 1000) (Z.to_nat 9000)) = true.
Proof. vm_compute. reflexivity. Qed.

(** X14: the frame-rate text of the overlay never has more than seven
    characters.  For a rate of 0 to 999 it is "Hz: " followed by the
    rate; for a rate of 1000 to 9999 the last digit does not fit and the
    text shows the rate divided by ten. *)
Theorem hz_text_drops_fourth_digit (v : Z) :
  (String.length (Overlay.hz_text v) <= 7)%nat /\
  ((0 <= v <= 999)%Z -> Overlay.hz_text v = "Hz: " ++ Overlay.decimal v) /\
  ((1000 <= v <= 9999)%Z ->
     Overlay.hz_text v = "Hz: " ++ Overlay.decimal (v / 10)).
Proof.
  split; [|split].
  - unfold Overlay.hz_text, Overlay.snprintf_hz.
    apply (substring_length_le 7).
  - intros Hv.
    pose proof (proj1 (forallb_forall _ _) small_rates_checked (Z.to_nat v)) as H.
    cbv beta in H. rewrite Z2Nat.id in H by lia.
    apply String.eqb_eq. apply H. apply in_seq. lia.
  - intros Hv.
    pose proof (proj1 (forallb_forall _ _) large_rates_checked (Z.to_nat v)) as H.
    cbv beta in H. rewrite Z2Nat.id in H by lia.
    apply String.eqb_eq. apply H. apply in_seq. lia.
Qed.

Lemma hz_text_drops_fourth_digit_witness :
  (0 <= 60 <= 999)%Z /\ (1000 <= 1234 <= 9999)%Z /\
  Overlay.hz_text 60 = "Hz: 60" /\ Overlay.hz_text 1234 = "Hz: 123".
Proof.
  destruct (hz_text_drops_fourth_digit 60) as (_ & Hsmall & _).
  destruct (hz_text_drops_fourth_digit 1234) as (_ & _ & Hlarge).
  assert (H1 : (0 <= 60 <= 999)%Z) by lia.
  assert (H2 : (1000 <= 1234 <= 9999)%Z) by lia.
  split; [exact H1|]. split; [exact H2|]. split.
  - rewrite (Hsmall H1). reflexivity.
  - rewrite (Hlarge H2). reflexivity.
Defined.

End OverlayFacts.

(** * Further properties of the pose lock *)

Module PoseLockMore.

Import PoseLock.

Lemma lock_ok_initial (p0 : list float) : Props.lock_ok (initial p0).
Proof. reflexivity. Qed.

Lemma lock_ok_step (s1 s2 : state) :
  Props.lock_ok s1 -> step s1 s2 -> Props.lock_ok s2.
Proof.
  intros H Hstep. unfold Props.lock_ok in *.
  destruct Hstep; cbn [wpc rpc mtx] in *.
  - destruct rp; [reflexivity|discriminate].
  - destruct rp; exact H.
  - destruct rp; [reflexivity|contradiction].
  - destruct wp; [reflexivity|discriminate].
  - destruct wp; exact H.
  - destruct wp; [reflexivity|contradiction].
Qed.

Lemma lock_ok_reachable (p0 : list float) (s : state) :
  reachable p0 s -> Props.lock_ok s.
Proof.
  intros Hr. induction Hr as [|s1 s2 _ IH Hstep].
  - apply lock_ok_initial.
  - exact (lock_ok_step s1 s2 IH Hstep).
Qed.

(** X16: the two threads never block each other for good: in every
    reachable state some thread can take a step. *)
Theorem never_deadlocked (p0 : list float) (s : state) :
  reachable p0 s -> exists s', step s s'.
Proof.
  intros Hr. pose proof (lock_ok_reachable p0 s Hr) as L.
  unfold Props.lock_ok in L.
  destruct s as [m p wp rp wr ob]. cbn [wpc rpc mtx] in L.
  destruct wp as [|[|[i v] todo]].
  - destruct rp as [|[|i todo] out].
    + subst m. eexists. apply (writer_lock p wr ob ROut zero3 zero3).
    + eexists. apply reader_unlock.
    + eexists. apply reader_assign.
  - eexists. apply writer_unlock.
  - eexists. apply writer_assign.
Qed.

Lemma never_deadlocked_witness :
  reachable (repeat 0%float 6) Bench.after_schedule /\
  exists s', step Bench.after_schedule s'.
Proof.
  assert (Hr : reachable (repeat 0%float 6) Bench.after_schedule).
  { apply (PoseLockFacts.exec_all_reachable (repeat 0%float 6)
             Bench.one_write_one_read (initial (repeat 0%float 6)));
      [apply reach_init|].
    vm_compute. reflexivity. }
  split; [exact Hr|].
  exact (never_deadlocked (repeat 0%float 6) Bench.after_schedule Hr).
Defined.

End PoseLockMore.

Section LoopMore.

Context {cv : OpenCV} (K : Header).

Lemma set_points_obj (s : settings) (a : tracker cv) :
  length (obj_points (set_points s a)) = length (obj_points a) /\
  markers (set_points s a) = markers a.
Proof.
  unfold set_points. cbn [obj_points set_obj_points markers].
  rewrite !PoseLockFacts.array_set_length. auto.
Qed.

Lemma iteration_obj_points (inp : frame_input cv) (a : tracker cv) :
  length (obj_points (iteration K inp a)) = length (obj_points a).
Proof.
  unfold iteration. destruct (cam_read inp) as [img|]; [|reflexivity].
  cbv zeta.
  assert (G : obj_points (grab K img inp a) = obj_points a).
  { unfold grab, update_fps, set_intrinsics. cbv zeta.
    destruct (intrinsics _) as [[r0 r1] r2].
    destruct (0.001 <? elapsed inp)%float; reflexivity. }
  assert (D : obj_points (snd (detect_either K (grab K img inp a))) =
              obj_points (grab K img inp a)).
  { unfold detect_either.
    destruct (detect_with_roi_more K (grab K img inp a)) as (_ & _ & _ & O1 & _).
    destruct (fst (detect_with_roi K (grab K img inp a))); [exact O1|].
    destruct (detect_without_roi_more K (snd (detect_with_roi K (grab K img inp a))))
      as (_ & _ & _ & O2 & _).
    congruence. }
  set (d := snd (detect_either K (grab K img inp a))) in *.
  assert (S : length (obj_points (snd (solve inp d))) = length (obj_points d)).
  { unfold solve. cbn [snd obj_points set_tvec set_rvec emit].
    apply set_points_obj. }
  assert (R : forall b : tracker cv,
             obj_points (set_rmat (set_last_roi K (cfg inp) b)) = obj_points b).
  { intros b. unfold set_rmat, set_last_roi, set_roi_from_projection,
      clamp_last_roi. reflexivity. }
  assert (F : forall (ok : bool) (b : tracker cv),
             obj_points (if (0 <? rows cv (color (emit (EvDrawAr ok) b)))%Z
                         then emit EvUpdateImage (emit (EvDrawAr ok) b)
                         else emit (EvDrawAr ok) b) = obj_points b).
  { intros ok b. destruct (0 <? rows cv _)%Z; reflexivity. }
  rewrite F.
  destruct (fst (detect_either K (grab K img inp a)));
    [destruct (negb (fst (solve inp d)))|].
  - cbn [obj_points set_last_roi_field]. congruence.
  - rewrite R. congruence.
  - cbn [obj_points set_last_roi_field]. congruence.
Qed.

Lemma capture_loop_obj_points (inputs : list (frame_input cv)) (a : tracker cv) :
  length (obj_points (Props.capture_loop K inputs a)) = length (obj_points a).
Proof.
  revert a. induction inputs as [|i inputs IH]; intros a; [reflexivity|].
  rewrite capture_loop_cons, IH. apply iteration_obj_points.
Qed.

(** X17: every call of the solver is on four model points and four
    image points: the loop keeps [obj_points] at its four elements, and
    when the detection of a turn succeeds [markers[0]] has four corners. *)
Theorem solver_called_on_quads (inputs : list (frame_input cv))
    (a : tracker cv) (inp : frame_input cv) (img : Mat cv) :
  length (obj_points a) = 4%nat ->
  cam_read inp = Some img ->
  fst (detect_either K (grab K img inp (Props.capture_loop K inputs a))) = true ->
  let d := snd (detect_either K (grab K img inp (Props.capture_loop K inputs a))) in
  length (obj_points (Props.capture_loop K inputs a)) = 4%nat /\
  length (obj_points (set_points (cfg inp) d)) = 4%nat /\
  length (nth 0 (markers (set_points (cfg inp) d)) []) = 4%nat.
Proof.
  intros Hlen Hread Hd d.
  assert (Hloop : length (obj_points (Props.capture_loop K inputs a)) = 4%nat)
    by (now rewrite capture_loop_obj_points).
  split; [exact Hloop|].
  set (b := Props.capture_loop K inputs a) in *.
  assert (G : obj_points (grab K img inp b) = obj_points b).
  { unfold grab, update_fps, set_intrinsics. cbv zeta.
    destruct (intrinsics _) as [[r0 r1] r2].
    destruct (0.001 <? elapsed inp)%float; reflexivity. }
  assert (D : obj_points d = obj_points (grab K img inp b)).
  { subst d. unfold detect_either.
    destruct (detect_with_roi_more K (grab K img inp b)) as (_ & _ & _ & O1 & _).
    destruct (fst (detect_with_roi K (grab K img inp b))); [exact O1|].
    destruct (detect_without_roi_more K (snd (detect_with_roi K (grab K img inp b))))
      as (_ & _ & _ & O2 & _).
    congruence. }
  destruct (set_points_obj (cfg inp) d) as (P1 & P2).
  destruct (detect_either_markers K (grab K img inp b) Hd) as (m & Hm4 & Hm).
  fold d in Hm.
  split.
  - rewrite P1, D, G. exact Hloop.
  - rewrite P2, Hm. cbn [nth].
    destruct (fst (detect_with_roi K (grab K img inp b)));
      [now rewrite length_map|exact Hm4].
Qed.

Lemma iteration_fps (inp : frame_input cv) (a : tracker cv) :
  fps (iteration K inp a) =
  match cam_read inp with
  | Some _ => Props.fps_after K (fps a) (elapsed inp)
  | None => fps a
  end.
Proof.
  unfold iteration. destruct (cam_read inp) as [img|]; [|reflexivity].
  cbv zeta.
  assert (G : fps (grab K img inp a) = Props.fps_after K (fps a) (elapsed inp)).
  { unfold grab, update_fps, set_intrinsics, Props.fps_after, Spec.ema. cbv zeta.
    destruct (intrinsics _) as [[r0 r1] r2].
    destruct (0.001 <? elapsed inp)%float; reflexivity. }
  destruct (detect_either_frame K (grab K img inp a)) as (_ & _ & _ & D4 & _).
  set (d := snd (detect_either K (grab K img inp a))) in *.
  destruct (solve_more inp d) as (_ & S2).
  destruct (set_last_roi_more K (cfg inp) (snd (solve inp d))) as (_ & R2 & _).
  destruct (set_rmat_frame (set_last_roi K (cfg inp) (snd (solve inp d))))
    as (_ & _ & _ & M4).
  assert (F : forall (ok : bool) (b : tracker cv),
             fps (if (0 <? rows cv (color (emit (EvDrawAr ok) b)))%Z
                  then emit EvUpdateImage (emit (EvDrawAr ok) b)
                  else emit (EvDrawAr ok) b) = fps b).
  { intros ok b. destruct (0 <? rows cv _)%Z; reflexivity. }
  rewrite F.
  destruct (fst (detect_either K (grab K img inp a)));
    [destruct (negb (fst (solve inp d)))|].
  - cbn [fps set_last_roi_field]. congruence.
  - congruence.
  - cbn [fps set_last_roi_field]. congruence.
Qed.

(** X18: the frame-rate estimate depends on nothing but the reads and
    their elapsed times: after any run of the loop it is the initial
    estimate updated once, by the moving average, for each turn that read
    a frame more than a millisecond after the previous update; detection,
    solving and failed reads never change it. *)
Theorem fps_depends_on_reads_only (inputs : list (frame_input cv))
    (a : tracker cv) :
  fps (Props.capture_loop K inputs a) = Props.fps_of_reads K inputs (fps a).
Proof.
  revert a. induction inputs as [|inp inputs IH]; intros a; [reflexivity|].
  rewrite capture_loop_cons, IH, iteration_fps. reflexivity.
Qed.

(** One turn changes the pose or the calibration pair only if its solver
    call succeeded. *)
Lemma iteration_pose_needs_solve (inp : frame_input cv) (a : tracker cv) :
  exists evs : list event,
    log (iteration K inp a) = evs ++ log a /\
    (~ In (EvSolvePnP true) evs ->
       pose (iteration K inp a) = pose a /\ r (iteration K inp a) = r a /\
       t (iteration K inp a) = t a).
Proof.
  destruct (cam_read inp) as [img|] eqn:Hread.
  - destruct (iteration_shape K inp a img Hread) as (L & _ & P & R & T & _).
    cbv zeta in L, P, R, T.
    destruct (grab_frame K img inp a) as (_ & _ & _ & _ & _ & _ & G7).
    pose proof (detect_either_log K (grab K img inp a)) as Hd. cbv zeta in Hd.
    rewrite G7 in Hd. rewrite Hd in L.
    eexists. split.
    { rewrite L. rewrite !app_comm_cons, !app_assoc.
      change (EvCameraRead true :: log a) with ([EvCameraRead true] ++ log a).
      rewrite !app_assoc. reflexivity. }
    intros Hno.
    destruct (fst (detect_either K (grab K img inp a))) eqn:Ed;
      [destruct (fst (solve inp (snd (detect_either K (grab K img inp a))))) eqn:Es|].
    + exfalso. apply Hno.
      apply in_or_app. left. apply in_or_app. left.
      apply in_or_app. right. right. left. reflexivity.
    + rewrite P, R, T, andb_false_r. auto.
    + rewrite P, R, T. auto.
  - exists [EvCameraRead false]. split.
    + unfold iteration. rewrite Hread. reflexivity.
    + intros _. unfold iteration. rewrite Hread. auto.
Qed.

(** X19: the loop changes the published pose and the calibration pair
    only through a successful solve: if none of the events a run added
    is a solver call that succeeded, the pose and the pair [getRT]
    returns are what they were before the run. *)
Theorem pose_changes_only_on_solve (inputs : list (frame_input cv))
    (a : tracker cv) :
  exists evs : list event,
    log (Props.capture_loop K inputs a) = evs ++ log a /\
    (~ In (EvSolvePnP true) evs ->
       pose (Props.capture_loop K inputs a) = pose a /\
       getRT (Props.capture_loop K inputs a) = getRT a).
Proof.
  revert a. induction inputs as [|inp inputs IH]; intros a.
  - exists []. split; [reflexivity|]. intros _. split; reflexivity.
  - rewrite capture_loop_cons.
    destruct (iteration_pose_needs_solve inp a) as (e1 & L1 & H1).
    destruct (IH (iteration K inp a)) as (e2 & L2 & H2).
    exists (e2 ++ e1). split.
    { rewrite L2, L1. now rewrite app_assoc. }
    intros Hno.
    destruct H1 as (P1 & R1 & T1).
    { intros Hin. apply Hno. apply in_or_app. now right. }
    destruct H2 as (P2 & RT2).
    { intros Hin. apply Hno. apply in_or_app. now left. }
    split; [congruence|].
    rewrite RT2. unfold getRT. now rewrite R1, T1.
Qed.

End LoopMore.

(** * The further properties at work on the bench *)

Lemma open_camera_out_of_range_witness :
  (resolution BenchMore.wild_conf < 0 \/ 3 <= resolution BenchMore.wild_conf)%Z /\
  (force_fps BenchMore.wild_conf < 0 \/ 5 < force_fps BenchMore.wild_conf)%Z /\
  log (snd (open_camera BenchMore.wild_conf true Bench.fresh)) =
    [EvCameraSetHeight 480; EvCameraSetWidth 640; EvCameraOpen true].
Proof.
  assert (H1 : (resolution BenchMore.wild_conf < 0
                \/ 3 <= resolution BenchMore.wild_conf)%Z)
    by (right; vm_compute; discriminate).
  assert (H2 : (force_fps BenchMore.wild_conf < 0
                \/ 5 < force_fps BenchMore.wild_conf)%Z)
    by (right; reflexivity).
  destruct (open_camera_out_of_range BenchMore.wild_conf true Bench.fresh)
    as (_ & Hres & Hfps).
  split; [exact H1|]. split; [exact H2|].
  rewrite (Hres H1). reflexivity.
Defined.

Lemma failed_reads_change_nothing_witness :
  pose (Props.capture_loop Bench.header [BenchMore.no_frame; BenchMore.no_frame]
                           Bench.after_marker)
    = pose Bench.after_marker /\
  last_roi (Props.capture_loop Bench.header
              [BenchMore.no_frame; BenchMore.no_frame] Bench.after_marker)
    = mkRect 90 90 70 70.
Proof.
  destruct (failed_reads_change_nothing Bench.header
              [BenchMore.no_frame; BenchMore.no_frame] Bench.after_marker)
    as (Hp & _ & Hr & _).
  { intros inp [<-|[<-|[]]]; reflexivity. }
  split; [exact Hp|]. rewrite Hr. vm_compute. reflexivity.
Defined.

Lemma detect_either_one_quad_witness :
  fst (detect_either Bench.header Bench.tracking) = true /\
  exists m : Marker,
    markers (snd (detect_either Bench.header Bench.tracking)) = [m] /\
    length m = 4%nat.
Proof.
  assert (H : fst (detect_either Bench.header Bench.tracking) = true)
    by (vm_compute; reflexivity).
  split; [exact H|].
  exact (detect_either_one_quad Bench.header Bench.tracking H).
Defined.

Lemma solved_turn_publishes_witness :
  pose (iteration Bench.header Bench.marker_frame Bench.fresh)
    = [1; 2; 3; 2; -1; 3]%float /\
  Props.inside 640 480
    (last_roi (iteration Bench.header Bench.marker_frame Bench.fresh)).
Proof.
  destruct (solved_turn_publishes Bench.header Bench.marker_frame Bench.fresh
              (Bench.vga [Bench.square 150 150 50] []))
    as (Hp & _ & Hr).
  - reflexivity.
  - reflexivity.
  - vm_compute. discriminate.
  - vm_compute. discriminate.
  - vm_compute. reflexivity.
  - vm_compute. reflexivity.
  - split; [|exact Hr]. rewrite Hp. vm_compute. reflexivity.
Defined.

Lemma degenerate_roi_not_searched_witness :
  (rect_width (last_roi Bench.fresh) <= 1
   \/ rect_height (last_roi Bench.fresh) <= 1)%Z /\
  exists tail : list event,
    log (iteration Bench.header Bench.marker_frame Bench.fresh) =
      tail ++ [EvDetect None; EvSetMinMaxSize 0.05 0.3; EvCameraRead true] /\
    Props.count Props.is_detect tail = 0%nat.
Proof.
  assert (H : (rect_width (last_roi Bench.fresh) <= 1
               \/ rect_height (last_roi Bench.fresh) <= 1)%Z)
    by (left; vm_compute; discriminate).
  split; [exact H|].
  exact (degenerate_roi_not_searched Bench.header Bench.marker_frame Bench.fresh
           (Bench.vga [Bench.square 150 150 50] []) eq_refl H).
Defined.

Lemma bench_session_sized :
  Props.frames_sized Bench.solving 640 480 BenchMore.session.
Proof.
  intros inp img Hin Hread.
  destruct Hin as [<-|[<-|[<-|[<-|[]]]]]; try discriminate;
    injection Hread as <-; split; reflexivity.
Qed.

Lemma loop_keeps_roi_in_frame_witness :
  Props.roi_ok 640 480
    (last_roi (Props.capture_loop Bench.header BenchMore.session Bench.fresh)) /\
  Forall (Props.region_event_ok 640 480)
    (log (Props.capture_loop Bench.header BenchMore.session Bench.fresh)).
Proof.
  apply (loop_keeps_roi_in_frame Bench.header 640 480 BenchMore.session
           Bench.fresh).
  - lia.
  - lia.
  - exact bench_session_sized.
  - left. reflexivity.
  - apply Forall_nil.
Defined.

Lemma loop_keeps_pinhole_witness :
  Props.pinhole (intrinsics Bench.fresh) /\
  Props.pinhole
    (intrinsics (Props.capture_loop Bench.header BenchMore.session Bench.fresh)) /\
  v_2 (fst (fst (intrinsics
                   (iteration Bench.header Bench.marker_frame Bench.fresh))))
    = 320%float.
Proof.
  assert (H : Props.pinhole (intrinsics Bench.fresh))
    by (repeat split; reflexivity).
  destruct (loop_keeps_pinhole Bench.header BenchMore.session Bench.fresh H)
    as (Hp & Hc).
  split; [exact H|]. split; [exact Hp|].
  destruct (Hc Bench.marker_frame (Bench.vga [Bench.square 150 150 50] [])
              eq_refl) as (Hx & _).
  rewrite Hx. vm_compute. reflexivity.
Defined.

Lemma pose_and_rt_from_one_solve_witness :
  length (pose Bench.fresh) = 6%nat /\
  ((pose (Props.capture_loop Bench.header BenchMore.session Bench.fresh)
      = pose Bench.fresh /\
    getRT (Props.capture_loop Bench.header BenchMore.session Bench.fresh)
      = getRT Bench.fresh) \/
   exists rv tv : Vec3d,
     pose (Props.capture_loop Bench.header BenchMore.session Bench.fresh)
       = Spec.published tv (RQDecomp3x3 Bench.solving (Rodrigues Bench.solving rv)) /\
     getRT (Props.capture_loop Bench.header BenchMore.session Bench.fresh)
       = (Rodrigues Bench.solving rv,
          mkVec3d (v_0 tv) (- v_1 tv)%float (v_2 tv))).
Proof.
  split; [reflexivity|].
  exact (pose_and_rt_from_one_solve Bench.header BenchMore.session Bench.fresh
           eq_refl).
Defined.

Lemma roi_covers_points_in_frame_witness :
  (rect_x (last_roi (set_roi_from_projection Bench.on_frame_roi))
     <= Spec.proj_x Bench.on_frame_roi 2
     <= rect_x (last_roi (set_roi_from_projection Bench.on_frame_roi))
        + rect_width (last_roi (set_roi_from_projection Bench.on_frame_roi)))%Z.
Proof.
  assert (Hx : (0 <= Spec.proj_x Bench.on_frame_roi 2
                <= cols Bench.solving (color Bench.on_frame_roi) - 1)%Z)
    by (vm_compute; split; discriminate).
  assert (Hy : (0 <= Spec.proj_y Bench.on_frame_roi 2
                <= rows Bench.solving (color Bench.on_frame_roi) - 1)%Z)
    by (vm_compute; split; discriminate).
  assert (Hi : (2 < 4)%nat) by lia.
  exact (proj1 (roi_covers_points_in_frame Bench.on_frame_roi 2 Hi Hx Hy)).
Defined.

Lemma calibration_session_witness :
  calib_timer_active Bench.idle_dialog = false /\
  headpos_x (s (fold_left Props.tick [Bench.solved; Bench.after_marker]
                  (toggleCalibrate Bench.idle_dialog))) = 0%float /\
  headpos_y (s (toggleCalibrate
                  (fold_left Props.tick [Bench.solved; Bench.after_marker]
                     (toggleCalibrate Bench.idle_dialog)))) = (-20)%float.
Proof.
  destruct (calibration_session [Bench.solved; Bench.after_marker]
              Bench.idle_dialog eq_refl)
    as ((Hx & _) & _ & _ & _ & Hy & _).
  split; [reflexivity|]. split; [exact Hx|].
  rewrite Hy. vm_compute. reflexivity.
Defined.

Lemma joystick_axes_in_range_witness :
  (BenchMore.axis_min <= BenchMore.axis_max)%Z /\
  (BenchMore.axis_min
   <= VJoy.YRotation (VJoy.sendHeadposeToGame BenchMore.axis_min
                        BenchMore.axis_max BenchMore.headpose)
   <= BenchMore.axis_max)%Z /\
  VJoy.YRotation (VJoy.sendHeadposeToGame BenchMore.axis_min
                    BenchMore.axis_max BenchMore.headpose) = (-32768)%Z /\
  VJoy.XAxis (VJoy.sendHeadposeToGame BenchMore.axis_min
                BenchMore.axis_max BenchMore.headpose) = 8191%Z.
Proof.
  assert (H : (BenchMore.axis_min <= BenchMore.axis_max)%Z)
    by (vm_compute; discriminate).
  destruct (joystick_axes_in_range BenchMore.axis_min BenchMore.axis_max
              BenchMore.headpose H) as (_ & _ & _ & _ & Hy & _).
  split; [exact H|]. split; [exact Hy|]. split; vm_compute; reflexivity.
Defined.

Lemma solver_called_on_quads_witness :
  fst (detect_either Bench.header
         (grab (cv := Bench.solving) Bench.header
               (Bench.vga [Bench.square 150 150 50] []) Bench.marker_frame
               (Props.capture_loop Bench.header BenchMore.session Bench.fresh)))
    = true /\
  length (obj_points (Props.capture_loop Bench.header BenchMore.session Bench.fresh))
    = 4%nat.
Proof.
  assert (H : fst (detect_either Bench.header
                     (grab (cv := Bench.solving) Bench.header
                           (Bench.vga [Bench.square 150 150 50] [])
                           Bench.marker_frame
                           (Props.capture_loop Bench.header BenchMore.session
                                               Bench.fresh))) = true)
    by (vm_compute; reflexivity).
  split; [exact H|].
  exact (proj1 (solver_called_on_quads Bench.header BenchMore.session
                  Bench.fresh Bench.marker_frame
                  (Bench.vga [Bench.square 150 150 50] []) eq_refl eq_refl H)).
Defined.

(** An empty frame and a missing frame after a pose was published. *)
Lemma pose_changes_only_on_solve_witness :
  pose (Props.capture_loop Bench.header [Bench.empty_frame; BenchMore.no_frame]
                           Bench.after_marker)
    = [1; 2; 3; 2; -1; 3]%float.
Proof.
  destruct (pose_changes_only_on_solve Bench.header
              [Bench.empty_frame; BenchMore.no_frame] Bench.after_marker)
    as (evs & L & H).
  assert (E : evs =
    [EvCameraRead false; EvUpdateImage; EvDrawAr false; EvDetect None;
     EvSetMinMaxSize 0.05 0.3; EvDetect (Some (mkRect 90 90 70 70));
     EvSetMinMaxSize 0.45714285714285713 1; EvCameraRead true]).
  { apply (app_inv_tail (log Bench.after_marker)). rewrite <- L.
    vm_compute. reflexivity. }
  destruct H as (P & _).
  - rewrite E. cbn [In]. intros [X|[X|[X|[X|[X|[X|[X|[X|[]]]]]]]]]; discriminate.
  - rewrite P. vm_compute. reflexivity.
Defined.
